(** * PhysicsScene: a shallow embedding of Source/Engine/Physics/PhysicsScene.cpp

    The development follows the layout of the C++ file: the pair filter
    shader, the scene members, the settings accessors, [Simulate],
    [CollectResults] (with the vehicle pipeline), [FlushRequests] and the
    deferred mutation operations.

    Conventions.
    - [float] values are modelled by rationals.  The code under study only
      compares, negates, takes absolute values and copies floats (no rounding
      arithmetic is involved in what is proved), and every literal used in a
      statement (0, 0.5, 1, 8, 80, 90) is exactly representable; NaN is not
      modelled.
    - Native objects (actors, colliders, joints, materials, ...) are non-null
      handles; the code's [ASSERT(ptr)] on arguments are therefore true by
      typing.  Members that may be null ([mScene], [mStepper], [_drive], ...)
      are options, and dereferencing a null one is a crash.
    - A crash (failed [ASSERT] or null dereference) is the result [None].
    - Every call that leaves the class (backend, event collector, stepper,
      lock) is recorded, in order, in the [trace] member of the model.
    - The [userData] field of the actors, which [RemoveActor] clears and
      [CollectResults] reads back, is kept in the [userData] member of the
      model: the actors whose owner the cast of line 578 recovers. *)

From Stdlib Require Import ZArith QArith Qabs Qround Lqa List Bool Lia.
From Stdlib Require String.
Import ListNotations.
Open Scope Z_scope.

(* ------------------------------------------------------------------ *)
(** ** Scalars *)

Definition float := Q.

(** [ZeroTolerance] is [1e-6f]; this is the exact value of that float. *)
Definition ZeroTolerance : float := (8796093 # 8796093022208)%Q.

(** [a < b] and [a > b] on floats, as booleans. *)
Definition fltb (a b : float) : bool := negb (Qle_bool b a).
Definition fgtb (a b : float) : bool := fltb b a.

Record Vector3 := mkVector3 { vX : float; vY : float; vZ : float }.

Definition Vector3_Zero : Vector3 := mkVector3 0%Q 0%Q 0%Q.

(** 32-bit signed wrap-around of [int32] arithmetic. *)
Definition wrap32 (z : Z) : Z := (z + 2 ^ 31) mod 2 ^ 32 - 2 ^ 31.

(* ------------------------------------------------------------------ *)
(** ** Enumerations of the PhysX SDK headers used by the file *)

Module PxPairFlag.
Definition eSOLVE_CONTACT : Z := Z.shiftl 1 0.
Definition eMODIFY_CONTACTS : Z := Z.shiftl 1 1.
Definition eNOTIFY_TOUCH_FOUND : Z := Z.shiftl 1 2.
Definition eNOTIFY_TOUCH_PERSISTS : Z := Z.shiftl 1 3.
Definition eNOTIFY_TOUCH_LOST : Z := Z.shiftl 1 4.
Definition eNOTIFY_TOUCH_CCD : Z := Z.shiftl 1 5.
Definition eNOTIFY_THRESHOLD_FORCE_FOUND : Z := Z.shiftl 1 6.
Definition eNOTIFY_THRESHOLD_FORCE_PERSISTS : Z := Z.shiftl 1 7.
Definition eNOTIFY_THRESHOLD_FORCE_LOST : Z := Z.shiftl 1 8.
Definition eNOTIFY_CONTACT_POINTS : Z := Z.shiftl 1 9.
Definition eDETECT_DISCRETE_CONTACT : Z := Z.shiftl 1 10.
Definition eDETECT_CCD_CONTACT : Z := Z.shiftl 1 11.
Definition ePRE_SOLVER_VELOCITY : Z := Z.shiftl 1 12.
Definition ePOST_SOLVER_VELOCITY : Z := Z.shiftl 1 13.
Definition eCONTACT_EVENT_POSE : Z := Z.shiftl 1 14.
End PxPairFlag.

Module PxFilterFlag.
Definition eKILL : Z := Z.shiftl 1 0.
Definition eSUPPRESS : Z := Z.shiftl 1 1.
Definition eCALLBACK : Z := Z.shiftl 1 2.
Definition eNOTIFY : Z := Z.lor (Z.shiftl 1 3) eCALLBACK.
Definition eDEFAULT : Z := 0.
End PxFilterFlag.

Module PxFilterObjectFlag.
Definition eKINEMATIC : Z := Z.shiftl 1 4.
Definition eTRIGGER : Z := Z.shiftl 1 5.
End PxFilterObjectFlag.

Module PxSceneFlag.
Definition eENABLE_ACTIVE_ACTORS : Z := Z.shiftl 1 0.
Definition eENABLE_CCD : Z := Z.shiftl 1 1.
Definition eADAPTIVE_FORCE : Z := Z.shiftl 1 3.
Definition eENABLE_PCM : Z := Z.shiftl 1 6.
End PxSceneFlag.

Definition PxFilterObjectAttributes := Z.
Definition PxPairFlags := Z.
Definition PxFilterFlags := Z.

Record PxFilterData := mkFilterData
  { word0 : Z; word1 : Z; word2 : Z; word3 : Z }.

Definition PxFilterObjectIsKinematic (attr : PxFilterObjectAttributes) : bool :=
  negb (Z.land attr PxFilterObjectFlag.eKINEMATIC =? 0).

Definition PxFilterObjectIsTrigger (attr : PxFilterObjectAttributes) : bool :=
  negb (Z.land attr PxFilterObjectFlag.eTRIGGER =? 0).

(** C++ truth value of an integer expression. *)
Definition nonzero (z : Z) : bool := negb (z =? 0).

(** [flags |= bit], applied to a list of bits in the order of the source. *)
Definition set_flags (flags : Z) (bits : list Z) : Z :=
  fold_left Z.lor bits flags.

(** Is [bit] raised in [flags]? *)
Definition has_flag (flags bit : Z) : bool := Z.land flags bit =? bit.

(* ------------------------------------------------------------------ *)
(** ** FilterShader (lines 23-61)

    The result is the returned [PxFilterFlags] together with the value of the
    in/out parameter [pairFlags] on return. *)

Definition FilterShader
    (attributes0 : PxFilterObjectAttributes) (filterData0 : PxFilterData)
    (attributes1 : PxFilterObjectAttributes) (filterData1 : PxFilterData)
    (pairFlags : PxPairFlags) : PxFilterFlags * PxPairFlags :=
  (* Let triggers through *)
  if PxFilterObjectIsTrigger attributes0 || PxFilterObjectIsTrigger attributes1 then
    (PxFilterFlag.eDEFAULT,
     set_flags pairFlags
       [PxPairFlag.eNOTIFY_TOUCH_FOUND;
        PxPairFlag.eNOTIFY_TOUCH_LOST;
        PxPairFlag.eDETECT_DISCRETE_CONTACT])
  (* Send events for the kinematic actors but don't solve the contact *)
  else if PxFilterObjectIsKinematic attributes0 && PxFilterObjectIsKinematic attributes1 then
    (PxFilterFlag.eSUPPRESS,
     set_flags pairFlags
       [PxPairFlag.eNOTIFY_TOUCH_FOUND;
        PxPairFlag.eNOTIFY_TOUCH_PERSISTS;
        PxPairFlag.eNOTIFY_TOUCH_LOST;
        PxPairFlag.eDETECT_DISCRETE_CONTACT])
  (* Pairs (A,B) where the filtermask of A contains the ID of B and vice versa *)
  else if nonzero (Z.land (word0 filterData0) (word1 filterData1))
          && nonzero (Z.land (word0 filterData1) (word1 filterData0)) then
    (PxFilterFlag.eDEFAULT,
     set_flags pairFlags
       [PxPairFlag.eSOLVE_CONTACT;
        PxPairFlag.eDETECT_DISCRETE_CONTACT;
        PxPairFlag.eNOTIFY_TOUCH_FOUND;
        PxPairFlag.eNOTIFY_TOUCH_PERSISTS;
        PxPairFlag.ePOST_SOLVER_VELOCITY;
        PxPairFlag.eNOTIFY_CONTACT_POINTS])
  (* Ignore pair (no collisions nor events) *)
  else (PxFilterFlag.eKILL, pairFlags).

(** Readings of a filter result used by the statements. *)
Definition solves_contact (pf : PxPairFlags) : bool :=
  has_flag pf PxPairFlag.eSOLVE_CONTACT.
Definition notifies_found (pf : PxPairFlags) : bool :=
  has_flag pf PxPairFlag.eNOTIFY_TOUCH_FOUND.
Definition notifies_persists (pf : PxPairFlags) : bool :=
  has_flag pf PxPairFlag.eNOTIFY_TOUCH_PERSISTS.
Definition notifies_lost (pf : PxPairFlags) : bool :=
  has_flag pf PxPairFlag.eNOTIFY_TOUCH_LOST.

(* ------------------------------------------------------------------ *)
(** ** Native objects and collaborators *)

(** Handles of native objects (non-null pointers). *)
Definition PxActor := nat.
Definition PxMaterial := nat.
Definition PxBase := nat.
Definition PhysicsColliderActor := nat.
Definition Joint := nat.

Inductive ActionType := Sleep.

Record ActionData := mkAction { Type_ : ActionType; Actor : PxActor }.

(** The engine settings read through [PhysicsSettings::Get()]; the fields are
    those the file reads. *)
Record PhysicsSettings := mkSettings
  { DefaultGravity : Vector3;
    DisableCCD : bool;
    EnableAdaptiveForce : bool;
    BounceThresholdVelocity : float;
    MaxDeltaTime : float;
    EnableSubstepping : bool;
    SubstepDeltaTime : float;
    MaxSubsteps : Z }.

(** Process-wide context: the backend handle [CPhysX] (is it initialised?)
    and the settings object. *)
Record Engine := mkEngine
  { CPhysX : bool;
    Settings : PhysicsSettings }.

(** The backend world behind [mScene], as far as this file observes it: the
    actors it contains, its settings, the steps dispatched on it so far and
    the actors reported active by the last fetch. *)
Record PxScene := mkPxScene
  { sceneActors : list PxActor;
    sceneGravity : Vector3;
    sceneFlags : Z;
    sceneBounceThresholdVelocity : float;
    sceneSteps : list float;
    sceneActiveActors : list PxActor }.

Inductive DriveTypes := Drive4W | DriveNW.

(** The PhysX vehicle behind [WheeledVehicle::_drive]. *)
Record PxVehicleWheels := mkDrive
  { driveId : nat;
    getNbWheels : Z }.

(** The members and getters of [WheeledVehicle] read by the pipeline. *)
Record WheeledVehicle := mkVehicle
  { IsActiveInHierarchy : bool;
    _drive : option PxVehicleWheels;
    _throttle : float;
    _brake : float;
    _steering : float;
    _handBrake : float;
    UseReverseAsBrake : bool;
    UseAnalogSteering : bool;
    _driveTypeCurrent : DriveTypes;
    GetForwardSpeed : float;
    GetCurrentGear : Z;
    GetTargetGear : Z;
    _wheelsDataCount : Z }.

(** One entry of [mWheelVehiclesResultsPerVehicle]: the wheel count and the
    offset of [wheelQueryResults] inside [mWheelVehiclesResultsPerWheel]. *)
Record PxVehicleWheelQueryResult := mkPerVehicle
  { nbWheelQueryResults : Z;
    wheelQueryResults : Z }.

Definition PxVehicleWheelQueryResult_default : PxVehicleWheelQueryResult :=
  mkPerVehicle 0 0.

(** Raw inputs handed to the PhysX input smoothers. *)
Inductive RawInput :=
| AnalogInput (accel brake steer handbrake : float)
| DigitalInput (accel brake steerLeft steerRight handbrake : bool).

(** Calls leaving the class, in program order. *)
Inductive Event :=
| EvLock
| EvUnlock
| EvAddActors (actors : list PxActor)
| EvAddActor (a : PxActor)
| EvPutToSleep (a : PxActor)
| EvRemoveActors (actors : list PxActor) (wakeOnLostTouch : bool)
| EvRemoveActor (a : PxActor)
| EvActorRelease (a : PxActor)
| EvActorUnlink (a : PxActor)
| EvOnColliderRemoved (c : PhysicsColliderActor)
| EvOnJointRemoved (j : Joint)
| EvMaterialUnlink (m : PxMaterial)
| EvMaterialRelease (m : PxMaterial)
| EvObjectRelease (o : PxBase)
| EvAllocateScratch
| EvNewFixedStepper
| EvStepperSetup (dt : float)
| EvStepperSetupSubsteps (subDt : float) (maxSubsteps : Z)
| EvAdvance (dt : float) (dispatched : bool)
| EvWait
| EvRenderDone
| EvEventsClear
| EvEventsCollectResults
| EvSendTriggerEvents
| EvSendCollisionEvents
| EvSendJointEvents
| EvSmoothInputs (kind : DriveTypes) (drive : PxVehicleWheels) (raw : RawInput) (dt : float)
| EvBatchQueryRelease
| EvBatchQueryCreate (maxRaycasts : Z)
| EvTireFrictionsSetup
| EvSuspensionRaycasts (vehicles : list PxVehicleWheels) (nbResults : Z)
| EvVehicleUpdates (dt : float) (gravity : Vector3) (vehicles : list PxVehicleWheels)
    (results : list PxVehicleWheelQueryResult)
| EvSyncWheels (vehicle : nat) (drive : PxVehicleWheels)
    (result : PxVehicleWheelQueryResult) (wheels : Z)
| EvOnActiveTransformChanged (a : PxActor).

(** *** The stepper interface (PhysicsStepper.h)

    [PhysicsStepper.h] is not among the sources, so the stepper is an
    interface: a state type with the five operations the scene calls.
    [advance] and [wait] receive the (possibly null) world and may crash. *)
Class PhysicsStepper (S : Type) := mkStepper
  { NewFixedStepper : S;
    Setup : float -> S -> S;
    SetupSubsteps : float -> Z -> S -> S;
    advance : option PxScene -> float -> S -> option (bool * S * option PxScene);
    wait : option PxScene -> S -> option (S * option PxScene);
    renderDone : S -> S;
    minimalEpsilon : float }.

(** Modelled from the spec: the contract of the missing stepper, section
    4.1: below a (positive) minimal epsilon [advance] returns false without
    effect on the world; on a live world neither [advance] nor [wait]
    crashes. *)
Class StepperContract (S : Type) `{PhysicsStepper S} : Prop := mkContract
  { epsilon_positive : (0 < minimalEpsilon)%Q;
    advance_below_epsilon :
      forall w dt st, (dt < minimalEpsilon)%Q ->
        exists st', advance w dt st = Some (false, st', w);
    advance_live :
      forall w dt st, exists r, advance (Some w) dt st = Some r;
    wait_live :
      forall w st, exists r, wait (Some w) st = Some r }.

(** Modelled from the spec: the [FixedStepper] class of PhysicsStepper.h is
    missing; this instance follows section 4.1: [Setup(dt)] configures a
    single step, [Setup(subDt, maxSubsteps)] the substep mode, [advance]
    returns false without effect below a minimal epsilon and otherwise
    dispatches the step(s) on the world, up to [maxSubsteps] steps of size
    [subDt] in substep mode.  The spec gives no value for the epsilon; one
    microsecond is used here. *)
Record FixedStepper := mkFixedStepper
  { stepSize : float;
    maxSubSteps : Z;
    substepping : bool }.

(** Modelled from the spec: the steps one [advance] of the missing
    [FixedStepper] dispatches: the delta itself in single-step mode, whole
    substeps (at most [maxSubSteps]) in substep mode. *)
Definition FixedStepper_steps (dt : float) (st : FixedStepper) : list float :=
  if substepping st then
    if Qle_bool (stepSize st) 0 then []
    else repeat (stepSize st)
           (Z.to_nat (Z.min (Qfloor (dt / stepSize st)) (maxSubSteps st)))
  else [dt].

(** Modelled from the spec: [advance] of the missing [FixedStepper]. *)
Definition FixedStepper_advance (w : option PxScene) (dt : float) (st : FixedStepper)
  : option (bool * FixedStepper * option PxScene) :=
  if fltb dt (1 # 1000000)%Q then Some (false, st, w)
  else match w with
       | None => None
       | Some sc =>
           Some (true, st,
                 Some (mkPxScene (sceneActors sc) (sceneGravity sc) (sceneFlags sc)
                         (sceneBounceThresholdVelocity sc)
                         (sceneSteps sc ++ FixedStepper_steps dt st)
                         (sceneActiveActors sc)))
       end.

(** Modelled from the spec: [wait] of the missing [FixedStepper]; the fetch
    leaves the world model as it is. *)
Definition FixedStepper_wait (w : option PxScene) (st : FixedStepper)
  : option (FixedStepper * option PxScene) :=
  match w with
  | None => None
  | Some sc => Some (st, Some sc)
  end.

(** Modelled from the spec: the missing [FixedStepper] as a stepper. *)
#[export] Instance FixedStepper_ops : PhysicsStepper FixedStepper :=
  {| NewFixedStepper := mkFixedStepper 0%Q 1 false;
     Setup := fun dt _ => mkFixedStepper dt 1 false;
     SetupSubsteps := fun subDt n _ => mkFixedStepper subDt n true;
     advance := FixedStepper_advance;
     wait := FixedStepper_wait;
     renderDone := fun st => st;
     minimalEpsilon := (1 # 1000000)%Q |}.

(** *** Arrays *)

(** Modelled from the spec: the [Array] container of Engine/Core/Collections
    is missing.  An array has its items and an allocated capacity. *)
Record Array (A : Type) := mkArray
  { items : list A;
    Capacity : Z }.
Arguments mkArray {A} _ _.
Arguments items {A} _.
Arguments Capacity {A} _.

Definition Count {A} (a : Array A) : Z := Z.of_nat (length (items a)).

Definition Array_empty {A} : Array A := mkArray [] 0.

(** Modelled from the spec: [Array::Resize(n, false)] of the missing
    container keeps the first [n] items when shrinking, appends default
    items when growing, and never gives memory back: the capacity is the
    high-water mark of the sizes requested (section 3).  A negative size is
    a crash. *)
Definition Resize {A} (dflt : A) (size : Z) (a : Array A) : option (Array A) :=
  if size <? 0 then None
  else if Count a >? size then
    Some (mkArray (firstn (Z.to_nat size) (items a)) (Capacity a))
  else
    Some (mkArray (items a ++ repeat dflt (Z.to_nat size - length (items a)))
            (Z.max (Capacity a) size)).

(** Modelled from the spec: the helpers of Engine/Core/Math are missing.
    [Math::Clamp(v, lo, hi)] bounds [v] below by [lo] and above by [hi]
    (section 4.5: the delta is clamped to the configured maximum),
    [Math::Abs] is the absolute value and [Math::Max] the larger of two. *)
Definition Math_Clamp (value lo hi : float) : float :=
  if Qlt_le_dec value lo then lo
  else if Qlt_le_dec value hi then value else hi.

(** Modelled from the spec: [Math::Abs] of the missing Engine/Core/Math. *)
Definition Math_Abs (value : float) : float :=
  if fltb value 0%Q then Qopp value else value.

(** Modelled from the spec: [Math::Max] of the missing Engine/Core/Math. *)
Definition Math_Max (a b : float) : float :=
  if fgtb a b then a else b.

(* ------------------------------------------------------------------ *)
(** ** The members of PhysicsScene *)

(** The pending mutation queues guarded by [mFlushLocker]. *)
Record Queues := mkQueues
  { mNewActors : list PxActor;
    mActions : list ActionData;
    mDeadActors : list PxActor;
    mDeadColliders : list PhysicsColliderActor;
    mDeadJoints : list Joint;
    mDeadMaterials : list PxMaterial;
    mDeadObjects : list PxBase }.

Definition Queues_empty : Queues := mkQueues [] [] [] [] [] [] [].

(** The vehicle members ([WITH_VEHICLE]).  The raycast result buffers carry
    no content of interest, only their size; [mWheelRaycastBatchQuery] holds
    the size the live batch query was created for. *)
Record WheelBuffers := mkWheelBuffers
  { mWheelVehicles : list WheeledVehicle;
    mWheelVehiclesCache : list PxVehicleWheels;
    mWheelQueryResults : Array unit;
    mWheelHitResults : Array unit;
    mWheelVehiclesResultsPerWheel : Array unit;
    mWheelVehiclesResultsPerVehicle : Array PxVehicleWheelQueryResult;
    mWheelRaycastBatchQuery : option Z;
    mWheelTireFrictions : bool }.

Definition WheelBuffers_empty : WheelBuffers :=
  mkWheelBuffers [] [] Array_empty Array_empty Array_empty Array_empty None false.

(** The members of the class, the calls made so far ([trace]) and the one
    part of the actor objects the class reads and writes: [userData], the
    actors whose [userData] field points to an [IPhysicsActor] (the owner the
    cast of line 578 recovers).  The owners set the field outside this file;
    [RemoveActor] clears it (line 742). *)
Record PhysicsScene (St : Type) := mkScene
  { mName : String.string;
    mScene : option PxScene;
    mCpuDispatcher : option Z;
    mControllerManager : bool;
    mAutoSimulation : bool;
    mIsDuringSimulation : bool;
    mLastDeltaTime : float;
    mScratchMemory : bool;
    mStepper : option St;
    queues : Queues;
    wheels : WheelBuffers;
    trace : list Event;
    userData : list PxActor }.
Arguments mkScene {St}.
Arguments mName {St}.
Arguments mScene {St}.
Arguments mCpuDispatcher {St}.
Arguments mControllerManager {St}.
Arguments mAutoSimulation {St}.
Arguments mIsDuringSimulation {St}.
Arguments mLastDeltaTime {St}.
Arguments mScratchMemory {St}.
Arguments mStepper {St}.
Arguments queues {St}.
Arguments wheels {St}.
Arguments trace {St}.
Arguments userData {St}.

(** *** Member updates *)

Definition set_mNewActors (v : list PxActor) (q : Queues) : Queues :=
  mkQueues v (mActions q) (mDeadActors q) (mDeadColliders q) (mDeadJoints q)
    (mDeadMaterials q) (mDeadObjects q).
Definition set_mActions (v : list ActionData) (q : Queues) : Queues :=
  mkQueues (mNewActors q) v (mDeadActors q) (mDeadColliders q) (mDeadJoints q)
    (mDeadMaterials q) (mDeadObjects q).
Definition set_mDeadActors (v : list PxActor) (q : Queues) : Queues :=
  mkQueues (mNewActors q) (mActions q) v (mDeadColliders q) (mDeadJoints q)
    (mDeadMaterials q) (mDeadObjects q).
Definition set_mDeadColliders (v : list PhysicsColliderActor) (q : Queues) : Queues :=
  mkQueues (mNewActors q) (mActions q) (mDeadActors q) v (mDeadJoints q)
    (mDeadMaterials q) (mDeadObjects q).
Definition set_mDeadJoints (v : list Joint) (q : Queues) : Queues :=
  mkQueues (mNewActors q) (mActions q) (mDeadActors q) (mDeadColliders q) v
    (mDeadMaterials q) (mDeadObjects q).
Definition set_mDeadMaterials (v : list PxMaterial) (q : Queues) : Queues :=
  mkQueues (mNewActors q) (mActions q) (mDeadActors q) (mDeadColliders q)
    (mDeadJoints q) v (mDeadObjects q).
Definition set_mDeadObjects (v : list PxBase) (q : Queues) : Queues :=
  mkQueues (mNewActors q) (mActions q) (mDeadActors q) (mDeadColliders q)
    (mDeadJoints q) (mDeadMaterials q) v.

Definition set_mWheelVehicles (v : list WheeledVehicle) (w : WheelBuffers) :=
  mkWheelBuffers v (mWheelVehiclesCache w) (mWheelQueryResults w)
    (mWheelHitResults w) (mWheelVehiclesResultsPerWheel w)
    (mWheelVehiclesResultsPerVehicle w) (mWheelRaycastBatchQuery w)
    (mWheelTireFrictions w).
Definition set_mWheelVehiclesCache (v : list PxVehicleWheels) (w : WheelBuffers) :=
  mkWheelBuffers (mWheelVehicles w) v (mWheelQueryResults w)
    (mWheelHitResults w) (mWheelVehiclesResultsPerWheel w)
    (mWheelVehiclesResultsPerVehicle w) (mWheelRaycastBatchQuery w)
    (mWheelTireFrictions w).
Definition set_mWheelQueryResults (v : Array unit) (w : WheelBuffers) :=
  mkWheelBuffers (mWheelVehicles w) (mWheelVehiclesCache w) v
    (mWheelHitResults w) (mWheelVehiclesResultsPerWheel w)
    (mWheelVehiclesResultsPerVehicle w) (mWheelRaycastBatchQuery w)
    (mWheelTireFrictions w).
Definition set_mWheelHitResults (v : Array unit) (w : WheelBuffers) :=
  mkWheelBuffers (mWheelVehicles w) (mWheelVehiclesCache w) (mWheelQueryResults w)
    v (mWheelVehiclesResultsPerWheel w)
    (mWheelVehiclesResultsPerVehicle w) (mWheelRaycastBatchQuery w)
    (mWheelTireFrictions w).
Definition set_mWheelVehiclesResultsPerWheel (v : Array unit) (w : WheelBuffers) :=
  mkWheelBuffers (mWheelVehicles w) (mWheelVehiclesCache w) (mWheelQueryResults w)
    (mWheelHitResults w) v
    (mWheelVehiclesResultsPerVehicle w) (mWheelRaycastBatchQuery w)
    (mWheelTireFrictions w).
Definition set_mWheelVehiclesResultsPerVehicle
    (v : Array PxVehicleWheelQueryResult) (w : WheelBuffers) :=
  mkWheelBuffers (mWheelVehicles w) (mWheelVehiclesCache w) (mWheelQueryResults w)
    (mWheelHitResults w) (mWheelVehiclesResultsPerWheel w)
    v (mWheelRaycastBatchQuery w) (mWheelTireFrictions w).
Definition set_mWheelRaycastBatchQuery (v : option Z) (w : WheelBuffers) :=
  mkWheelBuffers (mWheelVehicles w) (mWheelVehiclesCache w) (mWheelQueryResults w)
    (mWheelHitResults w) (mWheelVehiclesResultsPerWheel w)
    (mWheelVehiclesResultsPerVehicle w) v (mWheelTireFrictions w).
Definition set_mWheelTireFrictions (v : bool) (w : WheelBuffers) :=
  mkWheelBuffers (mWheelVehicles w) (mWheelVehiclesCache w) (mWheelQueryResults w)
    (mWheelHitResults w) (mWheelVehiclesResultsPerWheel w)
    (mWheelVehiclesResultsPerVehicle w) (mWheelRaycastBatchQuery w) v.

Section Members.
Context {St : Type}.
Implicit Type s : PhysicsScene St.

Definition set_mScene (v : option PxScene) s :=
    mkScene (mName s) v (mCpuDispatcher s) (mControllerManager s)
      (mAutoSimulation s) (mIsDuringSimulation s) (mLastDeltaTime s)
      (mScratchMemory s) (mStepper s) (queues s) (wheels s) (trace s)
      (userData s).
Definition set_mAutoSimulation (v : bool) s :=
    mkScene (mName s) (mScene s) (mCpuDispatcher s) (mControllerManager s)
      v (mIsDuringSimulation s) (mLastDeltaTime s)
      (mScratchMemory s) (mStepper s) (queues s) (wheels s) (trace s)
      (userData s).
Definition set_mIsDuringSimulation (v : bool) s :=
    mkScene (mName s) (mScene s) (mCpuDispatcher s) (mControllerManager s)
      (mAutoSimulation s) v (mLastDeltaTime s)
      (mScratchMemory s) (mStepper s) (queues s) (wheels s) (trace s)
      (userData s).
Definition set_mLastDeltaTime (v : float) s :=
    mkScene (mName s) (mScene s) (mCpuDispatcher s) (mControllerManager s)
      (mAutoSimulation s) (mIsDuringSimulation s) v
      (mScratchMemory s) (mStepper s) (queues s) (wheels s) (trace s)
      (userData s).
Definition set_mScratchMemory (v : bool) s :=
    mkScene (mName s) (mScene s) (mCpuDispatcher s) (mControllerManager s)
      (mAutoSimulation s) (mIsDuringSimulation s) (mLastDeltaTime s)
      v (mStepper s) (queues s) (wheels s) (trace s)
      (userData s).
Definition set_mStepper (v : option St) s :=
    mkScene (mName s) (mScene s) (mCpuDispatcher s) (mControllerManager s)
      (mAutoSimulation s) (mIsDuringSimulation s) (mLastDeltaTime s)
      (mScratchMemory s) v (queues s) (wheels s) (trace s)
      (userData s).
Definition set_queues (v : Queues) s :=
    mkScene (mName s) (mScene s) (mCpuDispatcher s) (mControllerManager s)
      (mAutoSimulation s) (mIsDuringSimulation s) (mLastDeltaTime s)
      (mScratchMemory s) (mStepper s) v (wheels s) (trace s)
      (userData s).
Definition set_wheels (v : WheelBuffers) s :=
    mkScene (mName s) (mScene s) (mCpuDispatcher s) (mControllerManager s)
      (mAutoSimulation s) (mIsDuringSimulation s) (mLastDeltaTime s)
      (mScratchMemory s) (mStepper s) (queues s) v (trace s)
      (userData s).
Definition set_trace (v : list Event) s :=
    mkScene (mName s) (mScene s) (mCpuDispatcher s) (mControllerManager s)
      (mAutoSimulation s) (mIsDuringSimulation s) (mLastDeltaTime s)
      (mScratchMemory s) (mStepper s) (queues s) (wheels s) v (userData s).
Definition set_userData (v : list PxActor) s :=
    mkScene (mName s) (mScene s) (mCpuDispatcher s) (mControllerManager s)
      (mAutoSimulation s) (mIsDuringSimulation s) (mLastDeltaTime s)
      (mScratchMemory s) (mStepper s) (queues s) (wheels s) (trace s) v.

  (** *** The state-and-crash monad of the member functions *)

Definition M (A : Type) : Type := PhysicsScene St -> option (A * PhysicsScene St).

Definition ret {A} (a : A) : M A := fun s => Some (a, s).
Definition bind {A B} (c : M A) (k : A -> M B) : M B :=
    fun s => match c s with
             | Some (a, s') => k a s'
             | None => None
             end.
Definition crash {A} : M A := fun _ => None.
Definition gets {A} (f : PhysicsScene St -> A) : M A := fun s => Some (f s, s).
Definition modify (f : PhysicsScene St -> PhysicsScene St) : M unit :=
    fun s => Some (tt, f s).
Definition ASSERT (b : bool) : M unit := if b then ret tt else crash.
Definition emit (e : Event) : M unit :=
    modify (fun s => set_trace (trace s ++ [e]) s).
Definition when (b : bool) (c : M unit) : M unit := if b then c else ret tt.
Definition modify_queues (f : Queues -> Queues) : M unit :=
    modify (fun s => set_queues (f (queues s)) s).
Definition modify_wheels (f : WheelBuffers -> WheelBuffers) : M unit :=
    modify (fun s => set_wheels (f (wheels s)) s).

  (** [for (i = 0; i < a.Count(); i++) body(a[i])] for a body that leaves
      the array alone. *)
Fixpoint for_each {A} (l : list A) (body : A -> M unit) : M unit :=
    match l with
    | [] => ret tt
    | x :: l' => bind (body x) (fun _ => for_each l' body)
    end.

  (** [mScene->f(...)]: a null [mScene] crashes. *)
Definition on_scene (f : PxScene -> PxScene) : M unit :=
    fun s => match mScene s with
             | Some w => Some (tt, set_mScene (Some (f w)) s)
             | None => None
             end.
Definition read_scene {A} (f : PxScene -> A) : M A :=
    fun s => match mScene s with
             | Some w => Some (f w, s)
             | None => None
             end.
End Members.
Arguments M St A : clear implicits.

Declare Scope scene_scope.
Delimit Scope scene_scope with scene.
Notation "x <- c1 ;; c2" := (bind c1 (fun x => c2))
  (at level 61, c1 at next level, right associativity) : scene_scope.
Notation "c1 ;; c2" := (bind c1 (fun _ => c2))
  (at level 61, right associativity) : scene_scope.
Open Scope scene_scope.

Definition HasItems {A} (l : list A) : bool :=
  match l with [] => false | _ => true end.

(** *** Backend world operations

    PhysX is outside the repository.  These stand-ins only keep what the
    class asked of the world, so that the functions of this file that read
    the world back have something to read: the actors added and removed, and
    the gravity, flag and bounce threshold last set.  Nothing is stated
    about PhysX itself. *)

Definition PxScene_addActors (l : list PxActor) (w : PxScene) : PxScene :=
  mkPxScene (sceneActors w ++ l) (sceneGravity w) (sceneFlags w)
    (sceneBounceThresholdVelocity w) (sceneSteps w) (sceneActiveActors w).

Definition PxScene_removeActors (l : list PxActor) (w : PxScene) : PxScene :=
  mkPxScene
    (filter (fun a => negb (existsb (Nat.eqb a) l)) (sceneActors w))
    (sceneGravity w) (sceneFlags w)
    (sceneBounceThresholdVelocity w) (sceneSteps w) (sceneActiveActors w).

Definition PxScene_setGravity (g : Vector3) (w : PxScene) : PxScene :=
  mkPxScene (sceneActors w) g (sceneFlags w)
    (sceneBounceThresholdVelocity w) (sceneSteps w) (sceneActiveActors w).

Definition PxScene_setFlag (flag : Z) (value : bool) (w : PxScene) : PxScene :=
  mkPxScene (sceneActors w) (sceneGravity w)
    (if value then Z.lor (sceneFlags w) flag
     else Z.land (sceneFlags w) (Z.lnot flag))
    (sceneBounceThresholdVelocity w) (sceneSteps w) (sceneActiveActors w).

Definition PxScene_setBounceThresholdVelocity (v : float) (w : PxScene) : PxScene :=
  mkPxScene (sceneActors w) (sceneGravity w) (sceneFlags w)
    v (sceneSteps w) (sceneActiveActors w).

(* ------------------------------------------------------------------ *)
(** ** The member functions *)

Section Operations.
Context {St : Type} `{PhysicsStepper St}.

  (** [WheeledVehicle::SetCurrentGear] lives in WheeledVehicle.cpp; the
      pipeline is parametric in its effect on the vehicle. *)
Variable SetCurrentGear : Z -> WheeledVehicle -> WheeledVehicle.

  (** The process-wide context the functions run in. *)
Variable E : Engine.

Let Scene := PhysicsScene St.

  (** *** Constructor (lines 95-141)

      [dispatcherCreated] and [sceneCreated] tell whether
      [PxDefaultCpuDispatcherCreate] and [createScene] returned an object.
      The members not assigned in the body start from their declared
      defaults; no actor has been handed to a new scene, so [userData]
      starts empty. *)
Definition PhysicsScene_new (name : String.string) (settings : PhysicsSettings)
      (ProcessorCoreCount : Z) (dispatcherCreated sceneCreated : bool) : Scene :=
    let s0 := mkScene name None None false true false 0%Q false None
                Queues_empty WheelBuffers_empty [] [] in
    let flags := Z.lor PxSceneFlag.eENABLE_PCM PxSceneFlag.eENABLE_ACTIVE_ACTORS in
    let flags := if negb (DisableCCD settings)
                 then Z.lor flags PxSceneFlag.eENABLE_CCD else flags in
    let flags := if EnableAdaptiveForce settings
                 then Z.lor flags PxSceneFlag.eADAPTIVE_FORCE else flags in
    let threads :=
      let v := (ProcessorCoreCount - 1) mod 2 ^ 32 in
      if v <? 1 then 1 else if v <? 4 then v else 4 in
    if negb dispatcherCreated then s0        (* CHECK_INIT(mCpuDispatcher, ...) *)
    else
      let s1 := mkScene name None (Some threads) false true false 0%Q false None
                  Queues_empty WheelBuffers_empty [] [] in
      if negb sceneCreated then s1           (* CHECK_INIT(mScene, ...) *)
      else
        mkScene name
          (Some (mkPxScene [] (DefaultGravity settings) flags
                   (BounceThresholdVelocity settings) [] []))
          (Some threads) true true false 0%Q false None
          Queues_empty WheelBuffers_empty [] [].

  (** *** Accessors (lines 163-216) *)

Definition GetScene (s : Scene) : option PxScene := mScene s.

Definition GetAutoSimulation (s : Scene) : bool := mAutoSimulation s.

Definition SetAutoSimulation (value : bool) : M St unit :=
    modify (set_mAutoSimulation value).

Definition SetGravity (value : Vector3) : M St unit :=
    fun s => match mScene s with
             | Some w => Some (tt, set_mScene (Some (PxScene_setGravity value w)) s)
             | None => Some (tt, s)
             end.

Definition GetGravity (s : Scene) : Vector3 :=
    match mScene s with
    | Some w => sceneGravity w
    | None => Vector3_Zero
    end.

Definition GetEnableCCD (s : Scene) : bool :=
    match mScene s with
    | Some w => Z.land (sceneFlags w) PxSceneFlag.eENABLE_CCD =? PxSceneFlag.eENABLE_CCD
    | None => negb (DisableCCD (Settings E))
    end.

Definition SetEnableCCD (value : bool) : M St unit :=
    fun s => match mScene s with
             | Some w =>
                 Some (tt, set_mScene
                             (Some (PxScene_setFlag PxSceneFlag.eENABLE_CCD value w)) s)
             | None => Some (tt, s)
             end.

Definition GetBounceThresholdVelocity (s : Scene) : float :=
    match mScene s with
    | Some w => sceneBounceThresholdVelocity w
    | None => BounceThresholdVelocity (Settings E)
    end.

Definition SetBounceThresholdVelocity (value : float) : M St unit :=
    fun s => match mScene s with
             | Some w =>
                 Some (tt, set_mScene
                             (Some (PxScene_setBounceThresholdVelocity value w)) s)
             | None => Some (tt, s)
             end.

Definition IsDuringSimulation (s : Scene) : bool := mIsDuringSimulation s.

  (** *** FlushRequests (lines 598-673) *)

Definition FlushRequests : M St unit :=
    during <- gets IsDuringSimulation ;;
    ASSERT (negb during) ;;
    ASSERT (CPhysX E) ;;
    emit EvLock ;;
    newActors <- gets (fun s => mNewActors (queues s)) ;;
    when (HasItems newActors)
      (on_scene (PxScene_addActors newActors) ;;
       emit (EvAddActors newActors) ;;
       modify_queues (set_mNewActors [])) ;;
    actions <- gets (fun s => mActions (queues s)) ;;
    for_each actions (fun action =>
      match Type_ action with
      | Sleep => emit (EvPutToSleep (Actor action))
      end) ;;
    modify_queues (set_mActions []) ;;
    deadActors <- gets (fun s => mDeadActors (queues s)) ;;
    when (HasItems deadActors)
      (on_scene (PxScene_removeActors deadActors) ;;
       emit (EvRemoveActors deadActors true) ;;
       for_each deadActors (fun a => emit (EvActorRelease a)) ;;
       modify_queues (set_mDeadActors [])) ;;
    deadColliders <- gets (fun s => mDeadColliders (queues s)) ;;
    when (HasItems deadColliders)
      (for_each deadColliders (fun c => emit (EvOnColliderRemoved c)) ;;
       modify_queues (set_mDeadColliders [])) ;;
    deadJoints <- gets (fun s => mDeadJoints (queues s)) ;;
    when (HasItems deadJoints)
      (for_each deadJoints (fun j => emit (EvOnJointRemoved j)) ;;
       modify_queues (set_mDeadJoints [])) ;;
    deadMaterials <- gets (fun s => mDeadMaterials (queues s)) ;;
    for_each deadMaterials (fun material =>
      (* Unlink ref to flax object *)
      emit (EvMaterialUnlink material) ;;
      emit (EvMaterialRelease material)) ;;
    modify_queues (set_mDeadMaterials []) ;;
    deadObjects <- gets (fun s => mDeadObjects (queues s)) ;;
    for_each deadObjects (fun o => emit (EvObjectRelease o)) ;;
    modify_queues (set_mDeadObjects []) ;;
    emit EvUnlock.

  (** *** The deferred mutation operations (lines 675-765)

      [inMain] is the value of [IsInMainThread()] for the calling thread. *)

Definition RemoveMaterial (material : PxMaterial) : M St unit :=
    emit EvLock ;;
    modify_queues (fun q => set_mDeadMaterials (mDeadMaterials q ++ [material]) q) ;;
    emit EvUnlock.

Definition RemoveObject (obj : PxBase) : M St unit :=
    emit EvLock ;;
    modify_queues (fun q => set_mDeadObjects (mDeadObjects q ++ [obj]) q) ;;
    emit EvUnlock.

Definition AddActor (inMain : bool) (actor : PxActor) : M St unit :=
    emit EvLock ;;
    (if inMain then
       on_scene (PxScene_addActors [actor]) ;;
       emit (EvAddActor actor)
     else
       modify_queues (fun q => set_mNewActors (mNewActors q ++ [actor]) q)) ;;
    emit EvUnlock.

(** The overload [AddActor(PxRigidDynamic*, bool putToSleep)]. *)
Definition AddDynamicActor (inMain : bool) (actor : PxActor) (putToSleep : bool)
    : M St unit :=
    emit EvLock ;;
    (if inMain then
       on_scene (PxScene_addActors [actor]) ;;
       emit (EvAddActor actor) ;;
       when putToSleep (emit (EvPutToSleep actor))
     else
       modify_queues (fun q => set_mNewActors (mNewActors q ++ [actor]) q) ;;
       when putToSleep
         (modify_queues (fun q => set_mActions (mActions q ++ [mkAction Sleep actor]) q))) ;;
    emit EvUnlock.

Definition UnlinkActor (inMain : bool) (actor : PxActor) : M St unit :=
    ASSERT inMain ;;
    on_scene (PxScene_removeActors [actor]) ;;
    emit (EvRemoveActor actor).

Definition RemoveActor (actor : PxActor) : M St unit :=
    (* Unlink ref to flax object *)
    emit (EvActorUnlink actor) ;;
    modify (fun s => set_userData (remove Nat.eq_dec actor (userData s)) s) ;;
    emit EvLock ;;
    modify_queues (fun q => set_mDeadActors (mDeadActors q ++ [actor]) q) ;;
    emit EvUnlock.

Definition RemoveCollider (collider : PhysicsColliderActor) : M St unit :=
    emit EvLock ;;
    modify_queues (fun q => set_mDeadColliders (mDeadColliders q ++ [collider]) q) ;;
    emit EvUnlock.

Definition RemoveJoint (joint : Joint) : M St unit :=
    emit EvLock ;;
    modify_queues (fun q => set_mDeadJoints (mDeadJoints q ++ [joint]) q) ;;
    emit EvUnlock.

  (** *** Simulate (lines 218-259) *)

  (** [mStepper->...]: a null [mStepper] crashes. *)
Definition the_stepper : M St St :=
    fun s => match mStepper s with
             | Some st => Some (st, s)
             | None => None
             end.

Definition stepper_advance (dt : float) : M St bool :=
    st <- the_stepper ;;
    w <- gets mScene ;;
    match advance w dt st with
    | None => crash
    | Some (dispatched, st', w') =>
        modify (set_mStepper (Some st')) ;;
        modify (set_mScene w') ;;
        emit (EvAdvance dt dispatched) ;;
        ret dispatched
    end.

Definition Simulate (inMain : bool) (dt : float) : M St unit :=
    during <- gets mIsDuringSimulation ;;
    ASSERT (inMain && negb during) ;;
    ASSERT (CPhysX E) ;;
    let settings := Settings E in
    (* Flush the old/new objects and the other requests before the simulation *)
    FlushRequests ;;
    (* Clamp delta *)
    let dt := Math_Clamp dt 0%Q (MaxDeltaTime settings) in
    (* Prepare util objects *)
    scratch <- gets mScratchMemory ;;
    when (negb scratch)
      (emit EvAllocateScratch ;; modify (set_mScratchMemory true)) ;;
    stepper <- gets mStepper ;;
    when (match stepper with None => true | Some _ => false end)
      (emit EvNewFixedStepper ;; modify (set_mStepper (Some NewFixedStepper))) ;;
    (if EnableSubstepping settings then
       st <- the_stepper ;;
       modify (set_mStepper
                 (Some (SetupSubsteps (SubstepDeltaTime settings) (MaxSubsteps settings) st))) ;;
       emit (EvStepperSetupSubsteps (SubstepDeltaTime settings) (MaxSubsteps settings))
     else
       st <- the_stepper ;;
       modify (set_mStepper (Some (Setup dt st))) ;;
       emit (EvStepperSetup dt)) ;;
    (* Start simulation (may not be fired due to too small delta time) *)
    modify (set_mIsDuringSimulation true) ;;
    dispatched <- stepper_advance dt ;;
    if negb dispatched then ret tt
    else
      emit EvEventsClear ;;
      modify (set_mLastDeltaTime dt) ;;
      st <- the_stepper ;;
      modify (set_mStepper (Some (renderDone st))) ;;
      emit EvRenderDone.

(** *** CollectResults (lines 266-596) *)

Definition stepper_wait : M St unit :=
  st <- the_stepper ;;
  w <- gets mScene ;;
  match wait w st with
  | None => crash
  | Some (st', w') =>
      modify (set_mStepper (Some st')) ;;
      modify (set_mScene w') ;;
      emit EvWait
  end.

(** Lines 298-353: the throttle and brake handed to the input smoother, and
    the vehicle after the automatic gear change. *)
Definition ComputeVehicleInput (wheelVehicle : WheeledVehicle)
  : float * float * WheeledVehicle :=
  let throttle := _throttle wheelVehicle in
  let brake := _brake wheelVehicle in
  if UseReverseAsBrake wheelVehicle then
    let invalidDirectionThreshold := 80%Q in
    let breakThreshold := 8%Q in
    let forwardSpeed := GetForwardSpeed wheelVehicle in
    (* Automatic gear change when changing driving direction *)
    let wheelVehicle' :=
      if fltb (Math_Abs forwardSpeed) invalidDirectionThreshold then
        if fltb throttle (Qopp ZeroTolerance)
           && (GetCurrentGear wheelVehicle >=? 0)
           && (GetTargetGear wheelVehicle >=? 0)
        then SetCurrentGear (-1) wheelVehicle
        else if fgtb throttle ZeroTolerance
                && (GetCurrentGear wheelVehicle <=? 0)
                && (GetTargetGear wheelVehicle <=? 0)
        then SetCurrentGear 1 wheelVehicle
        else wheelVehicle
      else wheelVehicle in
    (* Automatic break when changing driving direction *)
    let brake :=
      if fgtb throttle 0%Q then
        if fltb forwardSpeed (Qopp invalidDirectionThreshold) then 1%Q else brake
      else if fltb throttle 0%Q then
        if fgtb forwardSpeed invalidDirectionThreshold then 1%Q else brake
      else
        if fltb forwardSpeed breakThreshold
           && fgtb forwardSpeed (Qopp breakThreshold) then 1%Q else brake in
    (* Block throttle if user is changing driving direction *)
    let throttle :=
      if (fgtb throttle 0%Q && (GetTargetGear wheelVehicle' <? 0))
         || (fltb throttle 0%Q && (GetTargetGear wheelVehicle' >? 0))
      then 0%Q else throttle in
    (Math_Abs throttle, brake, wheelVehicle')
  else
    (Math_Max throttle 0%Q, brake, wheelVehicle).

(** [deadZone] is [0.1f]; this is the exact value of that float. *)
Definition deadZone : float := (13421773 # 134217728)%Q.

(** Lines 406-460: the raw input record filled for the smoother. *)
Definition MakeRawInput (wheelVehicle : WheeledVehicle) (throttle brake : float)
  : RawInput :=
  if UseAnalogSteering wheelVehicle then
    AnalogInput throttle brake (_steering wheelVehicle) (_handBrake wheelVehicle)
  else
    DigitalInput (fgtb throttle deadZone) (fgtb brake deadZone)
      (fltb (_steering wheelVehicle) (Qopp deadZone))
      (fgtb (_steering wheelVehicle) deadZone)
      (fgtb (_handBrake wheelVehicle) deadZone).

(** Lines 289-461: the steering loop over [mWheelVehicles].  It returns the
    vehicles after the gear changes, the drives cached, the wheel total and
    the smoother calls made. *)
Fixpoint UpdateVehiclesSteering (lastDeltaTime : float)
    (vehicles : list WheeledVehicle)
    (cache : list PxVehicleWheels) (wheelsCount : Z)
  : option (list WheeledVehicle * list PxVehicleWheels * Z * list Event) :=
  match vehicles with
  | [] => Some ([], cache, wheelsCount, [])
  | wheelVehicle :: rest =>
      if negb (IsActiveInHierarchy wheelVehicle) then
        match UpdateVehiclesSteering lastDeltaTime rest cache wheelsCount with
        | Some (vs, c, n, evs) => Some (wheelVehicle :: vs, c, n, evs)
        | None => None
        end
      else
        match _drive wheelVehicle with
        | None => None                                   (* ASSERT(drive) *)
        | Some drive =>
            let '(throttle, brake, wheelVehicle') := ComputeVehicleInput wheelVehicle in
            let ev := EvSmoothInputs (_driveTypeCurrent wheelVehicle') drive
                        (MakeRawInput wheelVehicle' throttle brake) lastDeltaTime in
            match UpdateVehiclesSteering lastDeltaTime rest (cache ++ [drive])
                    (wrap32 (wheelsCount + getNbWheels drive)) with
            | Some (vs, c, n, evs) => Some (wheelVehicle' :: vs, c, n, ev :: evs)
            | None => None
            end
        end
  end.

(** [a[i] = x] on the items of an array; out of range is a crash. *)
Fixpoint list_set {A} (i : nat) (x : A) (l : list A) : option (list A) :=
  match l, i with
  | [], _ => None
  | _ :: t, O => Some (x :: t)
  | h :: t, S i' =>
      match list_set i' x t with
      | Some t' => Some (h :: t')
      | None => None
      end
  end.

(** Lines 493-505: the loop preparing the per-vehicle wheel-query records.
    [rest] is the part of [mWheelVehicles] from index [i] on; [all] is the
    whole array, read at index [ii] for the drive. *)
Fixpoint SetupWheelStates (all rest : list WheeledVehicle) (ii : nat)
    (wheelsCount : Z) (perVehicle : list PxVehicleWheelQueryResult)
  : option (list PxVehicleWheelQueryResult) :=
  match rest with
  | [] => Some perVehicle
  | wheelVehicle :: rest' =>
      if negb (IsActiveInHierarchy wheelVehicle) then
        SetupWheelStates all rest' ii wheelsCount perVehicle
      else
        match nth_error all ii with                      (* mWheelVehicles[ii] *)
        | None => None
        | Some other =>
            match _drive other with                      (* ->_drive *)
            | None => None
            | Some drive =>
                let nb := getNbWheels drive in
                match list_set ii (mkPerVehicle nb wheelsCount) perVehicle with
                | None => None
                | Some perVehicle' =>
                    SetupWheelStates all rest' (S ii) (wrap32 (wheelsCount + nb))
                      perVehicle'
                end
            end
        end
  end.

(** Lines 515-561: the loop copying the wheel states back; one event per
    active vehicle, with the drive and the per-vehicle record it reads. *)
Fixpoint SynchronizeState (cache : list PxVehicleWheels)
    (perVehicle : list PxVehicleWheelQueryResult)
    (rest : list WheeledVehicle) (i ii : nat) : option (list Event) :=
  match rest with
  | [] => Some []
  | wheelVehicle :: rest' =>
      if negb (IsActiveInHierarchy wheelVehicle) then
        SynchronizeState cache perVehicle rest' (S i) ii
      else
        match nth_error cache ii, nth_error perVehicle ii with
        | Some drive, Some r =>
            match SynchronizeState cache perVehicle rest' (S i) (S ii) with
            | Some evs =>
                Some (EvSyncWheels i drive r (_wheelsDataCount wheelVehicle) :: evs)
            | None => None
            end
        | _, _ => None
        end
  end.

Definition resize_wheels {A} (get : WheelBuffers -> Array A)
    (set : Array A -> WheelBuffers -> WheelBuffers) (dflt : A) (size : Z)
  : M St unit :=
  fun s => match Resize dflt size (get (wheels s)) with
           | Some a => Some (tt, set_wheels (set a (wheels s)) s)
           | None => None
           end.

Definition is_some {A} (o : option A) : bool :=
  match o with Some _ => true | None => false end.

(** Lines 281-562. *)
Definition VehiclePipeline : M St unit :=
  (* Update vehicles steering *)
  modify_wheels (set_mWheelVehiclesCache []) ;;
  vehicles <- gets (fun s => mWheelVehicles (wheels s)) ;;
  lastDeltaTime <- gets mLastDeltaTime ;;
  match UpdateVehiclesSteering lastDeltaTime vehicles [] 0 with
  | None => crash
  | Some (vehicles', cache, wheelsCount, smoothing) =>
      modify_wheels (set_mWheelVehicles vehicles') ;;
      modify_wheels (set_mWheelVehiclesCache cache) ;;
      for_each smoothing emit ;;
      (* Update batches queries cache *)
      queryCount <- gets (fun s => Count (mWheelQueryResults (wheels s))) ;;
      when (wheelsCount >? queryCount)
        (batchQuery <- gets (fun s => mWheelRaycastBatchQuery (wheels s)) ;;
         when (is_some batchQuery) (emit EvBatchQueryRelease) ;;
         resize_wheels mWheelQueryResults set_mWheelQueryResults tt wheelsCount ;;
         resize_wheels mWheelHitResults set_mWheelHitResults tt wheelsCount ;;
         read_scene (fun _ => tt) ;;                     (* mScene->createBatchQuery *)
         emit (EvBatchQueryCreate wheelsCount) ;;
         modify_wheels (set_mWheelRaycastBatchQuery (Some wheelsCount))) ;;
      (* Tire frictions, built on first use *)
      tireFrictions <- gets (fun s => mWheelTireFrictions (wheels s)) ;;
      when (negb tireFrictions)
        (emit EvTireFrictionsSetup ;; modify_wheels (set_mWheelTireFrictions true)) ;;
      (* Setup cache for wheel states *)
      resize_wheels mWheelVehiclesResultsPerVehicle set_mWheelVehiclesResultsPerVehicle
        PxVehicleWheelQueryResult_default (Z.of_nat (length cache)) ;;
      resize_wheels mWheelVehiclesResultsPerWheel set_mWheelVehiclesResultsPerWheel
        tt wheelsCount ;;
      perVehicle <- gets (fun s => mWheelVehiclesResultsPerVehicle (wheels s)) ;;
      match SetupWheelStates vehicles' vehicles' 0 0 (items perVehicle) with
      | None => crash
      | Some results =>
          modify_wheels
            (set_mWheelVehiclesResultsPerVehicle (mkArray results (Capacity perVehicle))) ;;
          (* Update vehicles *)
          when (negb (Z.of_nat (length cache) =? 0))
            (queryCount <- gets (fun s => Count (mWheelQueryResults (wheels s))) ;;
             emit (EvSuspensionRaycasts cache queryCount) ;;
             gravity <- read_scene sceneGravity ;;
             emit (EvVehicleUpdates lastDeltaTime gravity cache results)) ;;
          (* Synchronize state *)
          match SynchronizeState cache results vehicles' 0 0 with
          | None => crash
          | Some sync => for_each sync emit
          end
      end
  end.

Definition CollectResults (inMain : bool) : M St unit :=
  during <- gets mIsDuringSimulation ;;
  if negb during then ret tt
  else
    ASSERT inMain ;;
    stepper <- gets mStepper ;;
    ASSERT (CPhysX E && is_some stepper) ;;
    (* Gather results (with waiting for the end) *)
    stepper_wait ;;
    vehicles <- gets (fun s => mWheelVehicles (wheels s)) ;;
    when (HasItems vehicles) VehiclePipeline ;;
    (* Update changed transformations *)
    activeActors <- read_scene sceneActiveActors ;;
    for_each activeActors (fun pxActor =>
      owners <- gets userData ;;
      ASSERT (existsb (Nat.eqb pxActor) owners) ;;       (* ASSERT(actor) *)
      emit (EvOnActiveTransformChanged pxActor)) ;;
    (* Send events *)
    emit EvEventsCollectResults ;;
    emit EvSendTriggerEvents ;;
    emit EvSendCollisionEvents ;;
    emit EvSendJointEvents ;;
    (* End *)
    modify (set_mIsDuringSimulation false).

(** *** Sequences of calls

    The public operations of the scene, each with the thread it is called
    from where the code looks at it, and the registration of vehicles, which
    other classes perform on [mWheelVehicles]. *)
Inductive Op :=
| OpSimulate (inMain : bool) (dt : float)
| OpCollectResults (inMain : bool)
| OpFlushRequests
| OpAddActor (inMain : bool) (actor : PxActor)
| OpAddDynamicActor (inMain : bool) (actor : PxActor) (putToSleep : bool)
| OpUnlinkActor (inMain : bool) (actor : PxActor)
| OpRemoveActor (actor : PxActor)
| OpRemoveCollider (collider : PhysicsColliderActor)
| OpRemoveJoint (joint : Joint)
| OpRemoveMaterial (material : PxMaterial)
| OpRemoveObject (obj : PxBase)
| OpSetAutoSimulation (value : bool)
| OpSetGravity (value : Vector3)
| OpSetEnableCCD (value : bool)
| OpSetBounceThresholdVelocity (value : float)
| OpSetVehicles (vehicles : list WheeledVehicle).

Definition run_op (op : Op) : M St unit :=
  match op with
  | OpSimulate inMain dt => Simulate inMain dt
  | OpCollectResults inMain => CollectResults inMain
  | OpFlushRequests => FlushRequests
  | OpAddActor inMain a => AddActor inMain a
  | OpAddDynamicActor inMain a p => AddDynamicActor inMain a p
  | OpUnlinkActor inMain a => UnlinkActor inMain a
  | OpRemoveActor a => RemoveActor a
  | OpRemoveCollider c => RemoveCollider c
  | OpRemoveJoint j => RemoveJoint j
  | OpRemoveMaterial m => RemoveMaterial m
  | OpRemoveObject o => RemoveObject o
  | OpSetAutoSimulation v => SetAutoSimulation v
  | OpSetGravity v => SetGravity v
  | OpSetEnableCCD v => SetEnableCCD v
  | OpSetBounceThresholdVelocity v => SetBounceThresholdVelocity v
  | OpSetVehicles vs => modify_wheels (set_mWheelVehicles vs)
  end.

Fixpoint run_ops (ops : list Op) : M St unit :=
  match ops with
  | [] => ret tt
  | op :: ops' => run_op op ;; run_ops ops'
  end.

End Operations.

(* ------------------------------------------------------------------ *)
(** ** Concrete settings, scenes and vehicles used to run the model *)

(** Modelled from the spec: [WheeledVehicle::SetCurrentGear] is missing;
    section 4.4 only says that the policy flips the gear.  This instance
    forces both the current and the target gear, and serves to run the
    pipeline on concrete vehicles. *)
Definition ForceGear (gear : Z) (v : WheeledVehicle) : WheeledVehicle :=
  mkVehicle (IsActiveInHierarchy v) (_drive v) (_throttle v) (_brake v)
    (_steering v) (_handBrake v) (UseReverseAsBrake v) (UseAnalogSteering v)
    (_driveTypeCurrent v) (GetForwardSpeed v) gear gear (_wheelsDataCount v).

Definition sample_settings : PhysicsSettings :=
  mkSettings (mkVector3 0%Q (-981 # 1)%Q 0%Q) false false (200 # 1)%Q
    (1 # 10)%Q false (1 # 120)%Q 5.

Definition sample_engine : Engine := mkEngine true sample_settings.

Definition scene_name : String.string := String.EmptyString.

(** A scene whose backend objects were created, and one whose world was not. *)
Definition live_scene : PhysicsScene FixedStepper :=
  PhysicsScene_new scene_name sample_settings 8 true true.

Definition failed_scene : PhysicsScene FixedStepper :=
  PhysicsScene_new scene_name sample_settings 8 true false.

(** A car rolling backwards at 90 units while its driver pushes the throttle
    half way, with the gearbox in the given gear. *)
Definition rolling_back (gear : Z) : WheeledVehicle :=
  mkVehicle true (Some (mkDrive 1%nat 4)) (1 # 2)%Q 0%Q 0%Q 0%Q true true Drive4W
    (-90 # 1)%Q gear gear 4.

(** A parked six-wheeler that is inactive in its hierarchy, followed in the
    scene by an active four-wheeled car. *)
Definition parked_truck : WheeledVehicle :=
  mkVehicle false (Some (mkDrive 7%nat 6)) 0%Q 0%Q 0%Q 0%Q false true DriveNW
    0%Q 0 0 6.

Definition driving_car : WheeledVehicle :=
  mkVehicle true (Some (mkDrive 8%nat 4)) (1 # 2)%Q 0%Q 0%Q 0%Q false true Drive4W
    (10 # 1)%Q 1 1 4.

(** *** What a flush does, in closed form

    The events of one flush of the queues [q], and the world it leaves. *)
Definition flush_events (q : Queues) : list Event :=
  [EvLock]
  ++ (if HasItems (mNewActors q) then [EvAddActors (mNewActors q)] else [])
  ++ map (fun action => EvPutToSleep (Actor action)) (mActions q)
  ++ (if HasItems (mDeadActors q)
      then EvRemoveActors (mDeadActors q) true :: map EvActorRelease (mDeadActors q)
      else [])
  ++ map EvOnColliderRemoved (mDeadColliders q)
  ++ map EvOnJointRemoved (mDeadJoints q)
  ++ flat_map (fun m => [EvMaterialUnlink m; EvMaterialRelease m]) (mDeadMaterials q)
  ++ map EvObjectRelease (mDeadObjects q)
  ++ [EvUnlock].

Definition flush_world (q : Queues) (w : PxScene) : PxScene :=
  let w1 := if HasItems (mNewActors q) then PxScene_addActors (mNewActors q) w else w in
  if HasItems (mDeadActors q) then PxScene_removeActors (mDeadActors q) w1 else w1.

Definition flushed {St : Type} (s : PhysicsScene St) (w : option PxScene)
  : PhysicsScene St :=
  mkScene (mName s) w (mCpuDispatcher s) (mControllerManager s)
    (mAutoSimulation s) (mIsDuringSimulation s) (mLastDeltaTime s)
    (mScratchMemory s) (mStepper s) Queues_empty (wheels s)
    (trace s ++ flush_events (queues s)) (userData s).

(** The world after a flush: a null world survives a flush only when no
    actor is queued for addition or removal. *)
Definition flush_scene (q : Queues) (w : option PxScene) : option (option PxScene) :=
  match w with
  | Some w => Some (Some (flush_world q w))
  | None =>
      if HasItems (mNewActors q) || HasItems (mDeadActors q) then None
      else Some None
  end.

(** A live scene holding actor 3, with requests pending in every queue. *)
Definition busy_scene : PhysicsScene FixedStepper :=
  mkScene scene_name
    (Some (mkPxScene [3%nat] (mkVector3 0%Q (-981 # 1)%Q 0%Q) 67 (200 # 1)%Q [] []))
    (Some 4) true true false 0%Q false None
    (mkQueues [1%nat; 2%nat] [mkAction Sleep 2%nat] [3%nat] [4%nat] [5%nat]
       [6%nat; 7%nat] [8%nat])
    WheelBuffers_empty [] [].

(** *** What Simulate does, in closed form

    The stepper as [Simulate] prepares it, the events of the preparation,
    and the scene a call returns, given the world [w1] left by the flush and
    the answer [(dispatched, st2, w2)] of [advance]. *)
Definition prepare_stepper {St : Type} `{PhysicsStepper St} (E : Engine)
    (dt : float) (stepper : option St) : St :=
  let st := match stepper with Some st => st | None => NewFixedStepper end in
  if EnableSubstepping (Settings E)
  then SetupSubsteps (SubstepDeltaTime (Settings E)) (MaxSubsteps (Settings E)) st
  else Setup dt st.

Definition prepare_events {St : Type} (E : Engine) (dt : float)
    (s : PhysicsScene St) : list Event :=
  (if mScratchMemory s then [] else [EvAllocateScratch])
  ++ (match mStepper s with Some _ => [] | None => [EvNewFixedStepper] end)
  ++ [if EnableSubstepping (Settings E)
      then EvStepperSetupSubsteps (SubstepDeltaTime (Settings E)) (MaxSubsteps (Settings E))
      else EvStepperSetup dt].

Definition simulated {St : Type} `{PhysicsStepper St} (E : Engine)
    (s : PhysicsScene St) (dt : float) (dispatched : bool) (st2 : St)
    (w2 : option PxScene) : PhysicsScene St :=
  mkScene (mName s) w2 (mCpuDispatcher s) (mControllerManager s)
    (mAutoSimulation s) true
    (if dispatched then dt else mLastDeltaTime s)
    true
    (Some (if dispatched then renderDone st2 else st2))
    Queues_empty (wheels s)
    (trace s ++ flush_events (queues s) ++ prepare_events E dt s
     ++ [EvAdvance dt dispatched]
     ++ (if dispatched then [EvEventsClear; EvRenderDone] else []))
    (userData s).

(** The [advance] calls recorded in a trace: the delta passed and the answer. *)
Definition advance_calls (evs : list Event) : list (float * bool) :=
  flat_map (fun e => match e with
                     | EvAdvance dt dispatched => [(dt, dispatched)]
                     | _ => []
                     end) evs.

(** A live scene with one actor waiting in the queue of new actors. *)
Definition pending_scene : PhysicsScene FixedStepper :=
  mkScene scene_name
    (Some (mkPxScene [] (mkVector3 0%Q (-981 # 1)%Q 0%Q) 67 (200 # 1)%Q [] []))
    (Some 4) true true false 0%Q false None
    (mkQueues [1%nat] [] [] [] [] [] [])
    WheelBuffers_empty [] [].

(** The live scene after [Simulate(1)]: the delta is clamped to 0.1. *)
Definition stepped_scene : PhysicsScene FixedStepper :=
  simulated sample_engine live_scene (1 # 10)%Q true
    (mkFixedStepper (1 # 10)%Q 1 false)
    (Some (mkPxScene [] (mkVector3 0%Q (-981 # 1)%Q 0%Q) 67 (200 # 1)%Q
             [(1 # 10)%Q] [])).

(** The wheel total the steering loop arrives at, starting from [n]: the
    wheels of the drives of the vehicles active in their hierarchy, summed
    in [int32]. *)
Fixpoint ActiveWheelsCount (vehicles : list WheeledVehicle) (n : Z) : Z :=
  match vehicles with
  | [] => n
  | v :: rest =>
      if IsActiveInHierarchy v then
        match _drive v with
        | Some drive => ActiveWheelsCount rest (wrap32 (n + getNbWheels drive))
        | None => n
        end
      else ActiveWheelsCount rest n
  end.

(** *** Statements about runs

    [post c s P]: if [c] returns from [s], its result and final scene
    satisfy [P]. *)
Definition post {St A : Type} (c : M St A) (s : PhysicsScene St)
    (P : A -> PhysicsScene St -> Prop) : Prop :=
  match c s with
  | Some (a, s') => P a s'
  | None => True
  end.

(** One run of the vehicle pipeline on the wheel buffers, for a wheel total
    [n]: no capacity decreases, and the two shared raycast buffers are either
    left alone or, when [n] exceeds the stored size, both resized to [n]. *)
Definition buffers_step (n : Z) (w w' : WheelBuffers) : Prop :=
  Capacity (mWheelQueryResults w) <= Capacity (mWheelQueryResults w')
  /\ Capacity (mWheelHitResults w) <= Capacity (mWheelHitResults w')
  /\ Capacity (mWheelVehiclesResultsPerWheel w)
     <= Capacity (mWheelVehiclesResultsPerWheel w')
  /\ Capacity (mWheelVehiclesResultsPerVehicle w)
     <= Capacity (mWheelVehiclesResultsPerVehicle w')
  /\ ((mWheelQueryResults w' = mWheelQueryResults w
       /\ mWheelHitResults w' = mWheelHitResults w)
      \/ (Count (mWheelQueryResults w) < n
          /\ Resize tt n (mWheelQueryResults w) = Some (mWheelQueryResults w')
          /\ Resize tt n (mWheelHitResults w) = Some (mWheelHitResults w'))).

(** Sizes and capacities of the wheel buffers do not decrease from [w] to [w']. *)
Definition buffers_le (w w' : WheelBuffers) : Prop :=
  Count (mWheelQueryResults w) <= Count (mWheelQueryResults w')
  /\ Count (mWheelHitResults w) <= Count (mWheelHitResults w')
  /\ Capacity (mWheelQueryResults w) <= Capacity (mWheelQueryResults w')
  /\ Capacity (mWheelHitResults w) <= Capacity (mWheelHitResults w')
  /\ Capacity (mWheelVehiclesResultsPerWheel w)
     <= Capacity (mWheelVehiclesResultsPerWheel w')
  /\ Capacity (mWheelVehiclesResultsPerVehicle w)
     <= Capacity (mWheelVehiclesResultsPerVehicle w').

(** The two shared raycast buffers have the same size. *)
Definition buffers_synced (w : WheelBuffers) : Prop :=
  Count (mWheelHitResults w) = Count (mWheelQueryResults w).

(** Two frames: a truck and a car drive, then the truck leaves the scene. *)
Definition active_truck : WheeledVehicle :=
  mkVehicle true (Some (mkDrive 7%nat 6)) 0%Q 0%Q 0%Q 0%Q false true DriveNW
    0%Q 0 0 6.

Definition two_frames : list Op :=
  [OpSetVehicles [active_truck; driving_car];
   OpSimulate true (1 # 60)%Q; OpCollectResults true;
   OpSetVehicles [driving_car];
   OpSimulate true (1 # 60)%Q; OpCollectResults true].

(** One frame with the parked truck registered before the driving car. *)
Definition interleaved_frame : list Op :=
  [OpSetVehicles [parked_truck; driving_car];
   OpSimulate true (1 # 60)%Q; OpCollectResults true].


(* ------------------------------------------------------------------ *)
(** ** The rest of the file: wheel raycast filter and destructor *)

Module PxQueryHitType.
Definition eNONE : Z := 0.
Definition eTOUCH : Z := 1.
Definition eBLOCK : Z := 2.
End PxQueryHitType.

(** WheelRaycastPreFilter (lines 76-91).  The in/out parameter [queryFlags]
    is never written, so the result is the returned hit type alone. *)
Definition WheelRaycastPreFilter (filterData0 filterData1 : PxFilterData) : Z :=
  (* Hardcoded id for vehicle shapes masking *)
  if word3 filterData0 =? word3 filterData1 then PxQueryHitType.eNONE
  (* Collide for pairs (A,B) where the filtermask of A contains the ID of B
     and vice versa *)
  else if nonzero (Z.land (word0 filterData0) (word1 filterData1))
          && nonzero (Z.land (word0 filterData1) (word1 filterData0))
  then PxQueryHitType.eBLOCK
  else PxQueryHitType.eNONE.

(** The drives of the vehicles that are active in their hierarchy, in
    registration order. *)
Definition active_drives (vehicles : list WheeledVehicle) : list PxVehicleWheels :=
  flat_map (fun v => if IsActiveInHierarchy v
                     then match _drive v with Some d => [d] | None => [] end
                     else []) vehicles.

(** The per-vehicle records for a run of vehicles with drives, laid out one
    after the other from offset [n]. *)
Fixpoint wheel_records (vehicles : list WheeledVehicle) (n : Z)
  : list PxVehicleWheelQueryResult :=
  match vehicles with
  | [] => []
  | v :: rest =>
      match _drive v with
      | Some d => mkPerVehicle (getNbWheels d) n
                  :: wheel_records rest (wrap32 (n + getNbWheels d))
      | None => []
      end
  end.

(** *** Requests submitted by a sequence of operations

    An operation is deferred when it only appends to the pending queues:
    the [Remove...] operations and the two [AddActor] overloads called off
    the owning thread. *)
Definition deferred (op : Op) : bool :=
  match op with
  | OpAddActor false _ | OpAddDynamicActor false _ _
  | OpRemoveActor _ | OpRemoveCollider _ | OpRemoveJoint _
  | OpRemoveMaterial _ | OpRemoveObject _ => true
  | _ => false
  end.

(** What a sequence of operations submits to each queue, in order. *)
Definition submitted (ops : list Op) : Queues :=
  mkQueues
    (flat_map (fun op => match op with
                         | OpAddActor false a | OpAddDynamicActor false a _ => [a]
                         | _ => []
                         end) ops)
    (flat_map (fun op => match op with
                         | OpAddDynamicActor false a true => [mkAction Sleep a]
                         | _ => []
                         end) ops)
    (flat_map (fun op => match op with OpRemoveActor a => [a] | _ => [] end) ops)
    (flat_map (fun op => match op with OpRemoveCollider c => [c] | _ => [] end) ops)
    (flat_map (fun op => match op with OpRemoveJoint j => [j] | _ => [] end) ops)
    (flat_map (fun op => match op with OpRemoveMaterial m => [m] | _ => [] end) ops)
    (flat_map (fun op => match op with OpRemoveObject o => [o] | _ => [] end) ops).

(** Queue by queue concatenation. *)
Definition Queues_app (q q' : Queues) : Queues :=
  mkQueues (mNewActors q ++ mNewActors q') (mActions q ++ mActions q')
    (mDeadActors q ++ mDeadActors q') (mDeadColliders q ++ mDeadColliders q')
    (mDeadJoints q ++ mDeadJoints q') (mDeadMaterials q ++ mDeadMaterials q')
    (mDeadObjects q ++ mDeadObjects q').

(** *** Kinds of events *)

Definition is_lock_event (e : Event) : bool :=
  match e with EvLock | EvUnlock => true | _ => false end.

Definition is_scratch_allocation (e : Event) : bool :=
  match e with EvAllocateScratch => true | _ => false end.

Definition is_stepper_creation (e : Event) : bool :=
  match e with EvNewFixedStepper => true | _ => false end.

Definition is_smooth_event (e : Event) : bool :=
  match e with EvSmoothInputs _ _ _ _ => true | _ => false end.

Definition is_sync_event (e : Event) : bool :=
  match e with EvSyncWheels _ _ _ _ => true | _ => false end.

(** The calls [CollectResults] may make. *)
Definition collect_event (e : Event) : bool :=
  match e with
  | EvWait
  | EvSmoothInputs _ _ _ _
  | EvBatchQueryRelease | EvBatchQueryCreate _
  | EvTireFrictionsSetup
  | EvSuspensionRaycasts _ _ | EvVehicleUpdates _ _ _ _
  | EvSyncWheels _ _ _ _
  | EvOnActiveTransformChanged _
  | EvEventsCollectResults | EvSendTriggerEvents
  | EvSendCollisionEvents | EvSendJointEvents => true
  | _ => false
  end.

(** What is still to be allocated: 1 while the scratch block (the stepper)
    is missing, 0 once it is there. *)
Definition scratch_missing {St : Type} (s : PhysicsScene St) : nat :=
  if mScratchMemory s then 0%nat else 1%nat.

Definition stepper_missing {St : Type} (s : PhysicsScene St) : nat :=
  match mStepper s with Some _ => 0%nat | None => 1%nat end.

(** [k] lock/unlock pairs, one after the other. *)
Fixpoint lock_pairs (k : nat) : list Event :=
  match k with
  | O => []
  | S k' => EvLock :: EvUnlock :: lock_pairs k'
  end.

(** The live batch query, when there is one, was created for the size the
    two raycast buffers have. *)
Definition batch_query_fits (w : WheelBuffers) : Prop :=
  forall size, mWheelRaycastBatchQuery w = Some size ->
               Count (mWheelQueryResults w) = size
               /\ Count (mWheelHitResults w) = size.

(** The members a pipeline run leaves alone, and the calls it makes. *)
Definition pipeline_result {St : Type} (s s' : PhysicsScene St) : Prop :=
  let vehicles := mWheelVehicles (wheels s) in
  let total := ActiveWheelsCount vehicles 0 in
  mScene s' = mScene s
  /\ queues s' = queues s
  /\ mLastDeltaTime s' = mLastDeltaTime s
  /\ mScratchMemory s' = mScratchMemory s
  /\ mStepper s' = mStepper s
  /\ userData s' = userData s
  /\ mWheelVehiclesCache (wheels s') = active_drives vehicles
  /\ Count (mWheelVehiclesResultsPerVehicle (wheels s'))
     = Z.of_nat (length (active_drives vehicles))
  /\ Count (mWheelVehiclesResultsPerWheel (wheels s')) = total
  /\ total <= Count (mWheelQueryResults (wheels s'))
  /\ (batch_query_fits (wheels s) -> batch_query_fits (wheels s'))
  /\ exists evs,
       trace s' = trace s ++ evs
       /\ Forall (fun e => collect_event e = true) evs
       /\ (forall c nb, In (EvSuspensionRaycasts c nb) evs ->
             c = active_drives vehicles
             /\ nb = Count (mWheelQueryResults (wheels s')))
       /\ (forall dt g c r, In (EvVehicleUpdates dt g c r) evs ->
             dt = mLastDeltaTime s
             /\ c = active_drives vehicles
             /\ r = items (mWheelVehiclesResultsPerVehicle (wheels s'))
             /\ option_map sceneGravity (mScene s) = Some g).

(** What a run calls and what it does to the batch query: the batch query
    keeps fitting its buffers, every allocation of the scratch block or
    creation of the stepper fills a missing one, and the calls on the scene
    lock come in pairs. *)
Definition op_calls {St : Type} (s s' : PhysicsScene St) : Prop :=
  (batch_query_fits (wheels s) -> batch_query_fits (wheels s'))
  /\ exists evs,
       trace s' = trace s ++ evs
       /\ (length (filter is_scratch_allocation evs) + scratch_missing s'
           = scratch_missing s)%nat
       /\ (length (filter is_stepper_creation evs) + stepper_missing s'
           = stepper_missing s)%nat
       /\ exists k, filter is_lock_event evs = lock_pairs k.

(** *** Destructor (lines 143-161) *)

(** The calls the destructor makes. *)
Inductive Teardown :=
| TdBatchQueryRelease
| TdTireFrictionsRelease
| TdControllerManagerRelease
| TdCpuDispatcherDelete
| TdStepperDelete
| TdScratchFree
| TdSceneRelease.

(** Modelled from the spec: the macros [RELEASE_PHYSX] and [SAFE_DELETE] are
    defined outside this file, and the spec only says that the scene owns
    its backend objects and frees them on destruction (sections 3 and 4.1).
    They are taken to release, or delete, a member that is set and to leave
    a null member alone. *)
Definition RELEASE_PHYSX (present : bool) (call : Teardown) : list Teardown :=
  if present then [call] else [].

Definition SAFE_DELETE (present : bool) (call : Teardown) : list Teardown :=
  if present then [call] else [].

(** [~PhysicsScene]: the calls made, in order, or a crash.  The four wheel
    buffers are emptied with [Resize(0)], which makes no outside call, and
    [Allocator::Free] is called whether or not a scratch block was
    allocated.  The last statement, [mScene->release()], is not guarded: a
    null [mScene] is a crash. *)
Definition PhysicsScene_delete {St : Type} (s : PhysicsScene St)
  : option (list Teardown) :=
  let calls :=
    RELEASE_PHYSX (is_some (mWheelRaycastBatchQuery (wheels s)))
      TdBatchQueryRelease
    ++ RELEASE_PHYSX (mWheelTireFrictions (wheels s)) TdTireFrictionsRelease
    ++ RELEASE_PHYSX (mControllerManager s) TdControllerManagerRelease
    ++ SAFE_DELETE (is_some (mCpuDispatcher s)) TdCpuDispatcherDelete
    ++ SAFE_DELETE (is_some (mStepper s)) TdStepperDelete
    ++ [TdScratchFree] in
  match mScene s with
  | Some _ => Some (calls ++ [TdSceneRelease])
  | None => None
  end.

(** *** Statements about runs that return

    [returns c s P]: [c] returns from [s], and its result and final scene
    satisfy [P]. *)
Definition returns {St A : Type} (c : M St A) (s : PhysicsScene St)
    (P : A -> PhysicsScene St -> Prop) : Prop :=
  exists a s', c s = Some (a, s') /\ P a s'.

(** Two vehicles at the same place of the scene: the same activity in the
    hierarchy and the same drive. *)
Definition same_place (v v' : WheeledVehicle) : Prop :=
  IsActiveInHierarchy v' = IsActiveInHierarchy v /\ _drive v' = _drive v.

(** *** The full path of CollectResults

    The calls of the vehicle stage (lines 281-562) from the scene [s], given
    the scene [s'] it leaves, the input smoothing calls [smooth] of the
    steering loop and the wheel state reads [sync] of the last loop: in
    between, the batch query is released and created anew when the wheel
    total exceeds the query buffer, the tire frictions are set up on first
    use, and the suspension raycasts and vehicle updates run when a drive is
    cached. *)
Definition vehicle_stage_calls {St : Type} (s s' : PhysicsScene St)
    (smooth sync : list Event) : list Event :=
  let w := wheels s in
  let cache := active_drives (mWheelVehicles w) in
  let total := ActiveWheelsCount (mWheelVehicles w) 0 in
  smooth
  ++ (if total >? Count (mWheelQueryResults w)
      then (if is_some (mWheelRaycastBatchQuery w) then [EvBatchQueryRelease] else [])
           ++ [EvBatchQueryCreate total]
      else [])
  ++ (if mWheelTireFrictions w then [] else [EvTireFrictionsSetup])
  ++ (if HasItems cache
      then [EvSuspensionRaycasts cache (Count (mWheelQueryResults (wheels s')));
            EvVehicleUpdates (mLastDeltaTime s) (GetGravity s') cache
              (items (mWheelVehiclesResultsPerVehicle (wheels s')))]
      else [])
  ++ sync.

(** [CollectResults] went from [s] to [s'] through its whole body: the wait
    on the stepper, the vehicle stage when a vehicle is registered, the
    transform notification of every active actor (each of which had its
    owner), the four event calls, and the reset of the flag. *)
Definition full_collect {St : Type} (s s' : PhysicsScene St) : Prop :=
  let vehicles := mWheelVehicles (wheels s) in
  mIsDuringSimulation s' = false
  /\ (HasItems vehicles = true ->
      mWheelVehiclesCache (wheels s') = active_drives vehicles)
  /\ exists smooth sync actives,
       trace s'
       = trace s ++ [EvWait]
         ++ (if HasItems vehicles then vehicle_stage_calls s s' smooth sync else [])
         ++ map EvOnActiveTransformChanged actives
         ++ [EvEventsCollectResults; EvSendTriggerEvents;
             EvSendCollisionEvents; EvSendJointEvents]
       /\ option_map sceneActiveActors (mScene s') = Some actives
       /\ (forall a, In a actives -> In a (userData s))
       /\ Forall (fun e => exists kind drive raw,
                     e = EvSmoothInputs kind drive raw (mLastDeltaTime s)) smooth
       /\ length smooth = length (active_drives vehicles)
       /\ Forall (fun e => is_sync_event e = true) sync.

Definition is_collect (op : Op) : bool :=
  match op with OpCollectResults _ => true | _ => false end.

(** The live scene with a truck and a car registered, and actor 5, owned,
    reported active by the world. *)
Definition driving_scene : PhysicsScene FixedStepper :=
  mkScene scene_name
    (Some (mkPxScene [5%nat] (mkVector3 0%Q (-981 # 1)%Q 0%Q) 67 (200 # 1)%Q []
             [5%nat]))
    (Some 4) true true false 0%Q false None Queues_empty
    (set_mWheelVehicles [active_truck; driving_car] WheelBuffers_empty) []
    [5%nat].

(* ================================================================== *)
(** * Properties *)

(* ------------------------------------------------------------------ *)
(** ** Running the monad *)

Section Running.
Context {St : Type}.
Implicit Types (s : PhysicsScene St) (e : Event).

Lemma set_trace_same s : set_trace (trace s) s = s.
Proof. now destruct s. Qed.

Lemma set_trace_twice (t t' : list Event) s :
  set_trace t (set_trace t' s) = set_trace t s.
Proof. reflexivity. Qed.

Lemma bind_ret {A B} (a : A) (k : A -> M St B) s : bind (ret a) k s = k a s.
Proof. reflexivity. Qed.

Lemma bind_gets {A B} (f : PhysicsScene St -> A) (k : A -> M St B) s :
  bind (gets f) k s = k (f s) s.
Proof. reflexivity. Qed.

Lemma bind_modify {B} (f : PhysicsScene St -> PhysicsScene St) (k : unit -> M St B) s :
  bind (modify f) k s = k tt (f s).
Proof. reflexivity. Qed.

Lemma bind_modify_queues {B} (f : Queues -> Queues) (k : unit -> M St B) s :
  bind (modify_queues f) k s = k tt (set_queues (f (queues s)) s).
Proof. reflexivity. Qed.

Lemma bind_emit {B} e (k : unit -> M St B) s :
  bind (emit e) k s = k tt (set_trace (trace s ++ [e]) s).
Proof. reflexivity. Qed.

Lemma bind_assoc {A B C} (c : M St A) (k1 : A -> M St B) (k2 : B -> M St C) s :
  bind (bind c k1) k2 s = bind c (fun a => bind (k1 a) k2) s.
Proof. unfold bind. destruct (c s) as [[a s']|]; reflexivity. Qed.

Lemma bind_Some {A B} (c : M St A) (k : A -> M St B) s (r : B * PhysicsScene St) :
  bind c k s = Some r ->
  exists a s', c s = Some (a, s') /\ k a s' = Some r.
Proof.
  unfold bind. destruct (c s) as [[a s']|]; [|discriminate].
  intros Hk. now exists a, s'.
Qed.

Lemma bind_on_scene {B} (f : PxScene -> PxScene) (k : unit -> M St B) s (w : PxScene) :
  mScene s = Some w ->
  bind (on_scene f) k s = k tt (set_mScene (Some (f w)) s).
Proof. intros Hw. unfold bind, on_scene. now rewrite Hw. Qed.

Lemma bind_on_scene_null {B} (f : PxScene -> PxScene) (k : unit -> M St B) s :
  mScene s = None -> bind (on_scene f) k s = None.
Proof. intros Hw. unfold bind, on_scene. now rewrite Hw. Qed.

(** A loop whose body only emits events emits them item after item. *)
Lemma for_each_emits {A} (g : A -> list Event) (body : A -> M St unit) (l : list A) :
  (forall x s, body x s = Some (tt, set_trace (trace s ++ g x) s)) ->
  forall s, for_each l body s = Some (tt, set_trace (trace s ++ flat_map g l) s).
Proof.
  intros Hbody. induction l as [|x l IH]; intros s; simpl.
  - unfold ret. now rewrite app_nil_r, set_trace_same.
  - unfold bind. rewrite Hbody, IH. cbn [trace set_trace].
    now rewrite <- app_assoc.
Qed.

Lemma flat_map_singleton {A B} (f : A -> B) (l : list A) :
  flat_map (fun x => [f x]) l = map f l.
Proof. induction l as [|x l IH]; simpl; congruence. Qed.

Lemma for_each_emit {A} (f : A -> Event) (l : list A) s :
  for_each l (fun x => emit (f x)) s
  = Some (tt, set_trace (trace s ++ map f l) s).
Proof.
  rewrite (for_each_emits (fun x => [f x])) by reflexivity.
  now rewrite flat_map_singleton.
Qed.

Lemma bind_for_each_emit {A B} (f : A -> Event) (l : list A) (k : unit -> M St B) s :
  bind (for_each l (fun x => emit (f x))) k s
  = k tt (set_trace (trace s ++ map f l) s).
Proof. unfold bind at 1. now rewrite for_each_emit. Qed.

Lemma bind_for_each_emits {A B} (g : A -> list Event) (body : A -> M St unit)
    (l : list A) (k : unit -> M St B) s :
  (forall x s, body x s = Some (tt, set_trace (trace s ++ g x) s)) ->
  bind (for_each l body) k s = k tt (set_trace (trace s ++ flat_map g l) s).
Proof. intros Hbody. unfold bind at 1. now rewrite (for_each_emits g). Qed.

Lemma bind_the_stepper {B} (k : St -> M St B) s (st : St) :
  mStepper s = Some st -> bind the_stepper k s = k st s.
Proof. intros Hst. unfold bind, the_stepper. now rewrite Hst. Qed.

Lemma bind_crash {A B} (k : A -> M St B) s : bind crash k s = None.
Proof. reflexivity. Qed.

Lemma emit_twice e1 e2 s :
  bind (emit e1) (fun _ => emit e2) s
  = Some (tt, set_trace (trace s ++ [e1; e2]) s).
Proof.
  unfold bind, emit, modify. cbn [trace set_trace].
  now rewrite set_trace_twice, <- app_assoc.
Qed.

End Running.

Lemma HasItems_snoc {A} (l : list A) (x : A) : HasItems (l ++ [x]) = true.
Proof. now destruct l. Qed.

(** One step of symbolic execution of a member function. *)
Ltac run_members :=
  cbn [HasItems when negb andb orb ASSERT
       mName mScene mCpuDispatcher mControllerManager mAutoSimulation
       mIsDuringSimulation mLastDeltaTime mScratchMemory mStepper
       queues wheels trace userData
       set_mScene set_mAutoSimulation set_mIsDuringSimulation
       set_mLastDeltaTime set_mScratchMemory set_mStepper set_queues
       set_wheels set_trace set_userData
       mNewActors mActions mDeadActors mDeadColliders mDeadJoints
       mDeadMaterials mDeadObjects
       set_mNewActors set_mActions set_mDeadActors set_mDeadColliders
       set_mDeadJoints set_mDeadMaterials set_mDeadObjects].

Ltac run_step :=
  first
    [ rewrite bind_assoc
    | rewrite bind_gets
    | rewrite bind_emit
    | rewrite bind_modify_queues
    | rewrite bind_modify
    | rewrite bind_for_each_emit
    | rewrite bind_ret
    | rewrite bind_crash
    | progress run_members
    | erewrite bind_the_stepper by (run_members; first [reflexivity | eassumption])
    | erewrite bind_on_scene by (run_members; first [reflexivity | eassumption])
    | rewrite bind_on_scene_null by (run_members; first [reflexivity | eassumption]) ].

(* ------------------------------------------------------------------ *)
(** ** Bits of the pair flags *)

Lemma land_pow2 (f k : Z) :
  0 <= k -> Z.land f (2 ^ k) = if Z.testbit f k then 2 ^ k else 0.
Proof.
  intros Hk. apply Z.bits_inj'. intros n Hn.
  rewrite Z.land_spec, Z.pow2_bits_eqb by assumption.
  destruct (Z.eqb_spec k n) as [->|Hne].
  - destruct (Z.testbit f n) eqn:Hb; simpl.
    + now rewrite Z.pow2_bits_true.
    + now rewrite Z.bits_0.
  - rewrite andb_false_r. destruct (Z.testbit f k).
    + rewrite Z.pow2_bits_false; auto.
    + now rewrite Z.bits_0.
Qed.

Lemma has_flag_bit (f k : Z) :
  0 <= k -> has_flag f (Z.shiftl 1 k) = Z.testbit f k.
Proof.
  intros Hk. unfold has_flag.
  rewrite Z.shiftl_1_l, land_pow2 by assumption.
  destruct (Z.testbit f k).
  - apply Z.eqb_refl.
  - apply Z.eqb_neq. pose proof (Z.pow_pos_nonneg 2 k). lia.
Qed.

Lemma testbit_set_flags (bits : list Z) (f n : Z) :
  Z.testbit (set_flags f bits) n
  = Z.testbit f n || existsb (fun b => Z.testbit b n) bits.
Proof.
  unfold set_flags. revert f.
  induction bits as [|b bits IH]; intros f; simpl.
  - now rewrite orb_false_r.
  - rewrite IH, Z.lor_spec. now rewrite orb_assoc.
Qed.

Ltac flag_bits :=
  unfold solves_contact, notifies_found, notifies_persists, notifies_lost,
    PxPairFlag.eSOLVE_CONTACT, PxPairFlag.eNOTIFY_TOUCH_FOUND,
    PxPairFlag.eNOTIFY_TOUCH_PERSISTS, PxPairFlag.eNOTIFY_TOUCH_LOST;
  rewrite ?has_flag_bit by lia;
  rewrite ?testbit_set_flags;
  cbn [existsb];
  repeat match goal with
    | |- context [Z.testbit ?c ?n] =>
        lazymatch c with
        | Z.shiftl _ _ => idtac
        | _ => let c' := eval hnf in c in
               lazymatch c' with Z.shiftl _ _ => change c with c' end
        end
    end;
  rewrite ?Z.shiftl_1_l, ?Z.pow2_bits_eqb by lia;
  cbn [Z.eqb orb]; rewrite ?orb_false_r, ?orb_true_r; try reflexivity.

(** C2.  The pair filter has four cases, tried in this order.  A pair with a
    trigger gets the default filter result with touch found/lost raised and
    the solve and persists bits left as they came; else a pair of two
    kinematic objects is suppressed with touch found/persists/lost raised
    and the solve bit left as it came; else a pair whose masks match on both
    sides gets the default result with the solve bit and touch found/persists
    raised (touch lost left as it came); else the pair is killed and its
    pair flags are untouched.  On the cleared pair flags the backend passes
    in, the first two cases therefore do not solve. *)
Theorem FilterShader_cases (a0 : Z) (fd0 : PxFilterData) (a1 : Z) (fd1 : PxFilterData)
    (pf : PxPairFlags) :
  let r := FilterShader a0 fd0 a1 fd1 pf in
  let trigger := PxFilterObjectIsTrigger a0 || PxFilterObjectIsTrigger a1 in
  let kinematic := PxFilterObjectIsKinematic a0 && PxFilterObjectIsKinematic a1 in
  let matching := nonzero (Z.land (word0 fd0) (word1 fd1))
                  && nonzero (Z.land (word0 fd1) (word1 fd0)) in
  (trigger = true ->
     fst r = PxFilterFlag.eDEFAULT
     /\ notifies_found (snd r) = true /\ notifies_lost (snd r) = true
     /\ notifies_persists (snd r) = notifies_persists pf
     /\ solves_contact (snd r) = solves_contact pf
     /\ (pf = 0 -> solves_contact (snd r) = false))
  /\ (trigger = false -> kinematic = true ->
     fst r = PxFilterFlag.eSUPPRESS
     /\ notifies_found (snd r) = true /\ notifies_persists (snd r) = true
     /\ notifies_lost (snd r) = true
     /\ solves_contact (snd r) = solves_contact pf
     /\ (pf = 0 -> solves_contact (snd r) = false))
  /\ (trigger = false -> kinematic = false -> matching = true ->
     fst r = PxFilterFlag.eDEFAULT
     /\ solves_contact (snd r) = true
     /\ notifies_found (snd r) = true /\ notifies_persists (snd r) = true
     /\ notifies_lost (snd r) = notifies_lost pf)
  /\ (trigger = false -> kinematic = false -> matching = false ->
     r = (PxFilterFlag.eKILL, pf)).
Proof.
  intros r trigger kinematic matching. subst r. unfold FilterShader.
  fold trigger kinematic matching.
  repeat split; intros; subst;
    repeat match goal with H : _ = true |- _ => rewrite H; clear H
                      | H : _ = false |- _ => rewrite H; clear H end;
    cbn [fst snd]; try reflexivity; flag_bits.
Qed.

Lemma FilterShader_cases_witness :
  let r := FilterShader 17 (mkFilterData 1 1 0 0) 17 (mkFilterData 1 1 0 0) 0 in
  fst r = PxFilterFlag.eSUPPRESS
  /\ notifies_found (snd r) = true /\ notifies_persists (snd r) = true
  /\ notifies_lost (snd r) = true
  /\ solves_contact (snd r) = false.
Proof.
  destruct (FilterShader_cases 17 (mkFilterData 1 1 0 0) 17 (mkFilterData 1 1 0 0) 0)
    as (_ & Hkinematic & _).
  destruct (Hkinematic eq_refl eq_refl) as (Hr & Hf & Hp & Hl & _ & Hs).
  pose proof (Hs eq_refl) as Hunsolved.
  repeat split; assumption.
Defined.

(* ------------------------------------------------------------------ *)
(** ** Reverse-as-brake *)

(** C3 as stated fails: with the gearbox in a forward gear the car rolling
    back at 90 units under a throttle of one half gets the full brake, but
    the throttle handed to the smoother is still one half, not zero. *)
Lemma reverse_as_brake_forward_gear_keeps_throttle :
  UseReverseAsBrake (rolling_back 1) = true
  /\ GetForwardSpeed (rolling_back 1) = (-90 # 1)%Q
  /\ _throttle (rolling_back 1) = (1 # 2)%Q
  /\ ComputeVehicleInput ForceGear (rolling_back 1)
     = ((1 # 2)%Q, 1%Q, rolling_back 1)
  /\ ~ ((1 # 2) == 0)%Q.
Proof.
  repeat split; try reflexivity. intros Heq. discriminate Heq.
Qed.

(** C3, amended.  For a vehicle with the reverse-as-brake policy enabled,
    forward speed -90 and raw throttle +0.5, the brake handed to the
    smoother is 1.0 and no gear change takes place; the throttle handed to
    the smoother is 0 when the target gear is a reverse gear (negative), and
    stays 0.5 otherwise. *)
Theorem reverse_as_brake_opposing_motion
    (SetCurrentGear : Z -> WheeledVehicle -> WheeledVehicle) (v : WheeledVehicle) :
  UseReverseAsBrake v = true ->
  GetForwardSpeed v = (-90 # 1)%Q ->
  _throttle v = (1 # 2)%Q ->
  ComputeVehicleInput SetCurrentGear v
  = ((if GetTargetGear v <? 0 then 0%Q else (1 # 2)%Q), 1%Q, v).
Proof.
  intros Hpolicy Hspeed Hthrottle.
  unfold ComputeVehicleInput. rewrite Hpolicy, Hspeed, Hthrottle.
  change (fltb (Math_Abs (-90 # 1)%Q) 80%Q) with false.
  change (fgtb (1 # 2)%Q 0%Q) with true.
  change (fltb (1 # 2)%Q 0%Q) with false.
  change (fltb (-90 # 1)%Q (- (80))%Q) with true.
  cbn [andb orb].
  rewrite orb_false_r.
  destruct (GetTargetGear v <? 0); reflexivity.
Qed.

Lemma reverse_as_brake_opposing_motion_witness :
  ComputeVehicleInput ForceGear (rolling_back (-1))
  = (0%Q, 1%Q, rolling_back (-1)).
Proof.
  exact (reverse_as_brake_opposing_motion ForceGear (rolling_back (-1))
           eq_refl eq_refl eq_refl).
Defined.

(* ------------------------------------------------------------------ *)
(** ** Settings of a scene without a world *)

Lemma PhysicsScene_new_failed {St : Type} (name : String.string)
    (settings : PhysicsSettings) (cores : Z) (dispatcherCreated sceneCreated : bool) :
  dispatcherCreated && sceneCreated = false ->
  mScene (PhysicsScene_new (St := St) name settings cores dispatcherCreated sceneCreated)
  = None.
Proof.
  unfold PhysicsScene_new.
  destruct dispatcherCreated, sceneCreated; simpl; intros; congruence.
Qed.

(** C8 as stated fails: on a scene whose world was not created [GetGravity]
    returns the zero vector, while the engine default gravity of the
    settings points down. *)
Lemma GetGravity_failed_scene_not_default :
  mScene failed_scene = None
  /\ GetGravity failed_scene = Vector3_Zero
  /\ DefaultGravity (Settings sample_engine) = mkVector3 0%Q (-981 # 1)%Q 0%Q
  /\ ~ (vY (GetGravity failed_scene) == vY (DefaultGravity (Settings sample_engine)))%Q.
Proof.
  repeat split. intros Heq. discriminate Heq.
Qed.

(** C8, amended.  On a scene without a live world [GetGravity] returns the
    zero vector, [GetEnableCCD] the negation of the engine's CCD-disable
    flag and [GetBounceThresholdVelocity] the engine's bounce-threshold
    velocity.  The getters are total functions of the members: they neither
    crash nor reach the backend. *)
Theorem getters_without_world {St : Type} (E : Engine) (s : PhysicsScene St) :
  mScene s = None ->
  GetGravity s = Vector3_Zero
  /\ GetEnableCCD E s = negb (DisableCCD (Settings E))
  /\ GetBounceThresholdVelocity E s = BounceThresholdVelocity (Settings E).
Proof.
  intros Hnull. unfold GetGravity, GetEnableCCD, GetBounceThresholdVelocity.
  rewrite Hnull. repeat split.
Qed.

Lemma getters_without_world_witness :
  GetGravity failed_scene = Vector3_Zero
  /\ GetEnableCCD sample_engine failed_scene = true
  /\ GetBounceThresholdVelocity sample_engine failed_scene = (200 # 1)%Q.
Proof.
  exact (getters_without_world sample_engine failed_scene eq_refl).
Defined.

(* ------------------------------------------------------------------ *)
(** ** FlushRequests *)

Section Flush.
Context {St : Type} `{PhysicsStepper St}.
Variable E : Engine.
Implicit Types (s : PhysicsScene St).

Ltac run_flush :=
  repeat first
    [ run_step
    | rewrite (bind_for_each_emits (fun a => [EvPutToSleep (Actor a)]))
        by (intros [[] ?] ?; reflexivity)
    | rewrite (bind_for_each_emits (fun m => [EvMaterialUnlink m; EvMaterialRelease m]))
        by (intros; apply emit_twice) ].

(** The flush as one equation: it crashes when a step is in flight, when
    the backend is absent, or when actors are queued for a null world;
    otherwise it returns the scene with every queue empty and the events of
    [flush_events] appended to the trace. *)
Lemma FlushRequests_eq s :
  FlushRequests E s
  = if negb (mIsDuringSimulation s) && CPhysX E then
      match flush_scene (queues s) (mScene s) with
      | Some w' => Some (tt, flushed s w')
      | None => None
      end
    else None.
Proof.
  unfold FlushRequests, IsDuringSimulation.
  rewrite bind_gets.
  destruct (mIsDuringSimulation s) eqn:Hduring; [reflexivity|].
  destruct (CPhysX E); [|reflexivity].
  cbn [negb andb ASSERT]. rewrite !bind_ret.
  destruct s as [nm sc cd cm au du ld sm stp q wh tr ud].
  destruct q as [na ac da dc dj dm dob].
  unfold flushed, flush_events, flush_scene, flush_world.
  cbn [queues trace mScene mNewActors mActions mDeadActors mDeadColliders
       mDeadJoints mDeadMaterials mDeadObjects mName mCpuDispatcher
       mControllerManager mAutoSimulation mIsDuringSimulation mLastDeltaTime
       mScratchMemory mStepper wheels].
  clear Hduring.
  destruct sc as [w|], na as [|na0 na], da as [|da0 da], dc as [|dc0 dc],
    dj as [|dj0 dj];
    run_flush.
  all: try reflexivity.
  all: unfold emit, modify, Queues_empty; cbn;
    rewrite ?flat_map_singleton, <- ?app_assoc; reflexivity.
Qed.

Lemma FlushRequests_live s (w : PxScene) :
  mIsDuringSimulation s = false ->
  CPhysX E = true ->
  mScene s = Some w ->
  FlushRequests E s = Some (tt, flushed s (Some (flush_world (queues s) w))).
Proof.
  intros Hduring Hphysx Hw. rewrite FlushRequests_eq, Hduring, Hphysx, Hw.
  reflexivity.
Qed.

(** C1.  On a live world, outside a step, [FlushRequests] returns, and what
    it did is, in this order: take the lock; add the queued new actors in
    one bulk call (when there are any); put to sleep the actor of every
    queued action; remove the queued dead actors in one bulk call and only
    then release each of them; notify the event collector of every removed
    collider, then of every removed joint; for each dead material, clear its
    userData and then release it; release the dead objects; drop the lock.
    Every queue is empty afterwards. *)
Theorem FlushRequests_order s (w : PxScene) :
  mIsDuringSimulation s = false ->
  CPhysX E = true ->
  mScene s = Some w ->
  let q := queues s in
  exists s',
    FlushRequests E s = Some (tt, s')
    /\ trace s'
       = trace s
         ++ [EvLock]
         ++ (if HasItems (mNewActors q) then [EvAddActors (mNewActors q)] else [])
         ++ map (fun action => EvPutToSleep (Actor action)) (mActions q)
         ++ (if HasItems (mDeadActors q)
             then EvRemoveActors (mDeadActors q) true
                  :: map EvActorRelease (mDeadActors q)
             else [])
         ++ map EvOnColliderRemoved (mDeadColliders q)
         ++ map EvOnJointRemoved (mDeadJoints q)
         ++ flat_map (fun m => [EvMaterialUnlink m; EvMaterialRelease m])
              (mDeadMaterials q)
         ++ map EvObjectRelease (mDeadObjects q)
         ++ [EvUnlock]
    /\ queues s' = Queues_empty
    /\ mScene s'
       = Some (let w1 := if HasItems (mNewActors q)
                         then PxScene_addActors (mNewActors q) w else w in
               if HasItems (mDeadActors q)
               then PxScene_removeActors (mDeadActors q) w1 else w1)
    /\ mIsDuringSimulation s' = false
    /\ mLastDeltaTime s' = mLastDeltaTime s
    /\ wheels s' = wheels s.
Proof.
  intros Hduring Hphysx Hw q.
  exists (flushed s (Some (flush_world (queues s) w))).
  split; [now apply FlushRequests_live|].
  cbn [flushed trace queues mScene mIsDuringSimulation mLastDeltaTime wheels].
  repeat split; assumption.
Qed.

End Flush.

Lemma FlushRequests_order_witness :
  exists s',
    FlushRequests sample_engine busy_scene = Some (tt, s')
    /\ trace s'
       = [EvLock; EvAddActors [1%nat; 2%nat]; EvPutToSleep 2%nat;
          EvRemoveActors [3%nat] true; EvActorRelease 3%nat;
          EvOnColliderRemoved 4%nat; EvOnJointRemoved 5%nat;
          EvMaterialUnlink 6%nat; EvMaterialRelease 6%nat;
          EvMaterialUnlink 7%nat; EvMaterialRelease 7%nat;
          EvObjectRelease 8%nat; EvUnlock]
    /\ queues s' = Queues_empty.
Proof.
  destruct (FlushRequests_order sample_engine busy_scene
              (mkPxScene [3%nat] (mkVector3 0%Q (-981 # 1)%Q 0%Q) 67 (200 # 1)%Q [] [])
              eq_refl eq_refl eq_refl)
    as (s' & Hrun & Htrace & Hqueues & _).
  exists s'. repeat split; assumption.
Defined.

(* ------------------------------------------------------------------ *)
(** ** Simulate *)

Section Simulation.
Context {St : Type} `{PhysicsStepper St}.
Variable E : Engine.
Implicit Types (s : PhysicsScene St).

(** [Simulate] as one equation. *)
Lemma Simulate_eq (inMain : bool) (dt : float) s :
  Simulate E inMain dt s
  = if inMain && negb (mIsDuringSimulation s) && CPhysX E then
      match flush_scene (queues s) (mScene s) with
      | None => None
      | Some w1 =>
          let dt' := Math_Clamp dt 0%Q (MaxDeltaTime (Settings E)) in
          match advance w1 dt' (prepare_stepper E dt' (mStepper s)) with
          | None => None
          | Some (dispatched, st2, w2) =>
              Some (tt, simulated E s dt' dispatched st2 w2)
          end
      end
    else None.
Proof.
  unfold Simulate. rewrite bind_gets.
  destruct inMain; [|reflexivity].
  destruct (mIsDuringSimulation s) eqn:Hduring; [reflexivity|].
  destruct (CPhysX E) eqn:Hphysx; [|reflexivity].
  cbn [negb andb ASSERT]. rewrite !bind_ret.
  unfold bind at 1. rewrite FlushRequests_eq, Hduring, Hphysx. cbn [negb andb].
  destruct (flush_scene (queues s) (mScene s)) as [w1|]; [|reflexivity].
  set (dt' := Math_Clamp dt 0%Q (MaxDeltaTime (Settings E))). cbv zeta.
  clearbody dt'.
  unfold simulated, prepare_events, prepare_stepper, stepper_advance.
  destruct s as [nm sc cd cm au du ld sm stp q wh tr ud].
  unfold flushed.
  cbn [queues trace mScene mName mCpuDispatcher mControllerManager mAutoSimulation
       mIsDuringSimulation mLastDeltaTime mScratchMemory mStepper wheels].
  set (fe := flush_events q). clearbody fe.
  destruct sm, stp as [st|], (EnableSubstepping (Settings E));
    repeat run_step;
    match goal with |- context [advance ?w ?d ?x] =>
      destruct (advance w d x) as [[[[|] st2] w2]|] end;
    cbv iota beta; repeat run_step;
    unfold ret, emit, modify, crash; run_members;
    rewrite <- ?app_assoc; reflexivity.
Qed.

End Simulation.

(* ------------------------------------------------------------------ *)
(** ** AddActor *)

Section Adding.
Context {St : Type} `{PhysicsStepper St}.
Variable E : Engine.
Implicit Types (s : PhysicsScene St).

(** C6.  Called from the thread that owns the stepping, on a live world,
    [AddActor] and its dynamic overload insert the actor into the world at
    once (and put it to sleep at once when asked) and leave the queues as
    they were.  Called from any other thread they leave the world alone and
    append the actor to [mNewActors] (and a sleep action to [mActions] when
    asked); the next flush then adds the queued actors, this one included,
    in its bulk call and puts it to sleep. *)
Theorem AddActor_immediate_or_deferred s (w : PxScene) (actor : PxActor)
    (putToSleep : bool) :
  mScene s = Some w ->
  let q := queues s in
  (* owning thread *)
  (exists s1,
     AddActor true actor s = Some (tt, s1)
     /\ mScene s1 = Some (PxScene_addActors [actor] w)
     /\ queues s1 = q
     /\ trace s1 = trace s ++ [EvLock; EvAddActor actor; EvUnlock])
  /\ (exists s1,
     AddDynamicActor true actor putToSleep s = Some (tt, s1)
     /\ mScene s1 = Some (PxScene_addActors [actor] w)
     /\ queues s1 = q
     /\ trace s1 = trace s ++ [EvLock; EvAddActor actor]
                   ++ (if putToSleep then [EvPutToSleep actor] else [])
                   ++ [EvUnlock])
  (* any other thread *)
  /\ (exists s1,
     AddActor false actor s = Some (tt, s1)
     /\ mScene s1 = mScene s
     /\ queues s1 = set_mNewActors (mNewActors q ++ [actor]) q
     /\ trace s1 = trace s ++ [EvLock; EvUnlock])
  /\ (exists s1,
     AddDynamicActor false actor putToSleep s = Some (tt, s1)
     /\ mScene s1 = mScene s
     /\ mNewActors (queues s1) = mNewActors q ++ [actor]
     /\ mActions (queues s1)
        = mActions q ++ (if putToSleep then [mkAction Sleep actor] else [])
     /\ mDeadActors (queues s1) = mDeadActors q
     /\ trace s1 = trace s ++ [EvLock; EvUnlock]
     (* the next flush *)
     /\ (mIsDuringSimulation s = false -> CPhysX E = true ->
         exists s2 rest,
           FlushRequests E s1 = Some (tt, s2)
           /\ trace s2
              = trace s1
                ++ [EvLock; EvAddActors (mNewActors q ++ [actor])]
                ++ map (fun action => EvPutToSleep (Actor action)) (mActions q)
                ++ (if putToSleep then [EvPutToSleep actor] else [])
                ++ rest
           /\ (~ In actor (mDeadActors q) ->
               exists w2, mScene s2 = Some w2 /\ In actor (sceneActors w2)))).
Proof.
  intros Hw q. subst q.
  split; [|split; [|split]].
  - eexists. split.
    + unfold AddActor. repeat run_step. unfold emit, modify. reflexivity.
    + run_members. rewrite <- !app_assoc. repeat split.
  - destruct putToSleep; (eexists; split;
      [ unfold AddDynamicActor; repeat run_step; unfold emit, modify, ret; reflexivity
      | run_members; rewrite <- !app_assoc; repeat split ]).
  - eexists. split.
    + unfold AddActor. repeat run_step. unfold emit, modify. reflexivity.
    + run_members. rewrite <- !app_assoc. repeat split.
  - assert (Hrun : AddDynamicActor false actor putToSleep s
              = Some (tt,
                  set_trace (trace s ++ [EvLock; EvUnlock])
                    (set_queues
                       (set_mActions
                          (mActions (queues s)
                           ++ (if putToSleep then [mkAction Sleep actor] else []))
                          (set_mNewActors (mNewActors (queues s) ++ [actor]) (queues s)))
                       s))).
    { unfold AddDynamicActor. repeat run_step.
      destruct putToSleep; repeat run_step; unfold emit, modify, ret; run_members;
        rewrite <- ?app_assoc, ?app_nil_r; reflexivity. }
    eexists. split; [exact Hrun|]. run_members. repeat split.
    intros Hduring Hphysx.
    eexists. eexists. split.
    + apply FlushRequests_live; [exact Hduring|exact Hphysx|exact Hw].
    + unfold flushed, flush_events, flush_world. run_members. split.
      * rewrite HasItems_snoc, map_app, <- !app_assoc.
        destruct putToSleep; cbn [map Actor app]; reflexivity.
      * intros Hnotdead.
        eexists. split; [reflexivity|].
        assert (Hin : In actor (sceneActors
                  (if HasItems (mNewActors (queues s) ++ [actor])
                   then PxScene_addActors (mNewActors (queues s) ++ [actor]) w
                   else w))).
        { rewrite HasItems_snoc. cbn [PxScene_addActors sceneActors].
          rewrite !in_app_iff. right. right. now left. }
        destruct (HasItems (mDeadActors (queues s))); [|exact Hin].
        cbn [PxScene_removeActors sceneActors].
        apply filter_In. split; [exact Hin|].
        apply negb_true_iff. apply not_true_is_false. intros Hex.
        apply existsb_exists in Hex. destruct Hex as (x & Hx & Heq).
        apply Nat.eqb_eq in Heq. subst x. contradiction.
Qed.

End Adding.

Lemma AddActor_immediate_or_deferred_witness :
  (exists s1,
     AddActor true 9%nat live_scene = Some (tt, s1)
     /\ option_map sceneActors (mScene s1) = Some [9%nat]
     /\ queues s1 = Queues_empty)
  /\ (exists s1,
     AddDynamicActor false 9%nat true live_scene = Some (tt, s1)
     /\ option_map sceneActors (mScene s1) = Some []
     /\ mNewActors (queues s1) = [9%nat]
     /\ mActions (queues s1) = [mkAction Sleep 9%nat]).
Proof.
  destruct (AddActor_immediate_or_deferred sample_engine live_scene
              (mkPxScene [] (mkVector3 0%Q (-981 # 1)%Q 0%Q) 67 (200 # 1)%Q [] [])
              9%nat true eq_refl)
    as ((s1 & Hrun1 & Hw1 & Hq1 & _) & _ & _ & (s2 & Hrun2 & Hw2 & Hn2 & Ha2 & _)).
  split.
  - exists s1. repeat split; [exact Hrun1|now rewrite Hw1|exact Hq1].
  - exists s2. repeat split; [exact Hrun2|now rewrite Hw2|exact Hn2|exact Ha2].
Defined.

(* ------------------------------------------------------------------ *)
(** ** The delta handed to the stepper *)

Lemma fltb_true_iff (a b : float) : fltb a b = true <-> (a < b)%Q.
Proof.
  unfold fltb. rewrite negb_true_iff, <- not_true_iff_false, Qle_bool_iff.
  split; [apply Qnot_le_lt | apply Qlt_not_le].
Qed.

(** The spec-modelled fixed stepper honours the contract. *)
Lemma FixedStepper_contract : StepperContract FixedStepper.
Proof.
  constructor.
  - reflexivity.
  - intros w dt st Hlt. exists st. cbn. unfold FixedStepper_advance.
    apply fltb_true_iff in Hlt. cbn in Hlt. now rewrite Hlt.
  - intros w dt st. cbn. unfold FixedStepper_advance.
    destruct (fltb dt (1 # 1000000)); eexists; reflexivity.
  - intros w st. eexists. reflexivity.
Qed.

#[export] Existing Instance FixedStepper_contract.

Lemma Math_Clamp_small (dt hi eps : float) :
  (0 < eps)%Q -> (dt <= 0 \/ dt < eps)%Q -> (Math_Clamp dt 0 hi < eps)%Q.
Proof.
  intros Heps Hdt. unfold Math_Clamp.
  destruct (Qlt_le_dec dt 0) as [Hneg|Hpos]; [assumption|].
  destruct (Qlt_le_dec dt hi) as [Hlt|Hge].
  - destruct Hdt as [Hdt|Hdt]; [|assumption].
    eapply Qle_lt_trans; eassumption.
  - destruct Hdt as [Hdt|Hdt].
    + eapply Qle_lt_trans; [|exact Heps]. eapply Qle_trans; eassumption.
    + eapply Qle_lt_trans; eassumption.
Qed.

Lemma Math_Clamp_above (dt hi : float) :
  (hi < dt)%Q -> (0 < Math_Clamp dt 0 hi)%Q -> Math_Clamp dt 0%Q hi = hi.
Proof.
  intros Hhi Hpos. unfold Math_Clamp in *.
  destruct (Qlt_le_dec dt 0) as [Hneg|Hnn].
  - exfalso. exact (Qlt_irrefl _ Hpos).
  - destruct (Qlt_le_dec dt hi) as [Hlt|Hge]; [|reflexivity].
    exfalso. exact (Qlt_irrefl _ (Qlt_trans _ _ _ Hhi Hlt)).
Qed.

Lemma advance_calls_app (a b : list Event) :
  advance_calls (a ++ b) = advance_calls a ++ advance_calls b.
Proof. apply flat_map_app. Qed.

Lemma advance_calls_flush (q : Queues) : advance_calls (flush_events q) = [].
Proof.
  unfold flush_events. rewrite !advance_calls_app.
  assert (Hmap : forall A (f : A -> Event) (l : list A),
             (forall x, advance_calls [f x] = []) -> advance_calls (map f l) = []).
  { intros A f l Hf. induction l as [|x l IH]; [reflexivity|].
    change (map f (x :: l)) with ([f x] ++ map f l).
    now rewrite advance_calls_app, Hf, IH. }
  rewrite !Hmap by reflexivity.
  assert (Hmat : forall l : list PxMaterial,
             advance_calls
               (flat_map (fun m => [EvMaterialUnlink m; EvMaterialRelease m]) l) = []).
  { induction l as [|x l IH]; [reflexivity|]. exact IH. }
  rewrite Hmat.
  destruct (HasItems (mNewActors q)), (HasItems (mDeadActors q));
    cbn; rewrite ?Hmap by reflexivity; reflexivity.
Qed.

Lemma advance_calls_prepare {St : Type} (E : Engine) (dt : float) (s : PhysicsScene St) :
  advance_calls (prepare_events E dt s) = [].
Proof.
  unfold prepare_events.
  destruct (mScratchMemory s), (mStepper s), (EnableSubstepping (Settings E));
    reflexivity.
Qed.

Section Delta.
Context {St : Type} `{StepperContract St}.
Variable E : Engine.
Implicit Types (s : PhysicsScene St).

(** What a returning [Simulate] went through. *)
Lemma Simulate_Some (inMain : bool) (dt : float) s s1 :
  Simulate E inMain dt s = Some (tt, s1) ->
  let dt' := Math_Clamp dt 0%Q (MaxDeltaTime (Settings E)) in
  exists w1 dispatched st2 w2,
    inMain = true /\ mIsDuringSimulation s = false /\ CPhysX E = true
    /\ flush_scene (queues s) (mScene s) = Some w1
    /\ FlushRequests E s = Some (tt, flushed s w1)
    /\ advance w1 dt' (prepare_stepper E dt' (mStepper s)) = Some (dispatched, st2, w2)
    /\ s1 = simulated E s dt' dispatched st2 w2.
Proof.
  intros Hrun dt'. rewrite Simulate_eq in Hrun. fold dt' in Hrun.
  destruct inMain; [|discriminate].
  destruct (mIsDuringSimulation s) eqn:Hduring; [discriminate|].
  destruct (CPhysX E) eqn:Hphysx; [|discriminate].
  cbn [negb andb] in Hrun.
  destruct (flush_scene (queues s) (mScene s)) as [w1|] eqn:Hflush; [|discriminate].
  cbv zeta in Hrun.
  destruct (advance w1 dt' (prepare_stepper E dt' (mStepper s)))
    as [[[dispatched st2] w2]|] eqn:Hadv; [|discriminate].
  injection Hrun as <-.
  exists w1, dispatched, st2, w2. repeat split; try assumption.
  rewrite FlushRequests_eq, Hduring, Hphysx, Hflush. reflexivity.
Qed.

(** C4, amended.  For a delta that is zero, negative or below the stepper's
    minimal epsilon, whenever the flush of the pending requests goes
    through, [Simulate] returns without dispatching a step: [advance] is
    called once with the clamped delta and answers false, the world is the
    one the flush left (the world at entry when no actor was queued for
    addition or removal), and [mLastDeltaTime] keeps its value. *)
Theorem Simulate_skips_small_delta (dt : float) s sf :
  (dt <= 0 \/ dt < minimalEpsilon)%Q ->
  FlushRequests E s = Some (tt, sf) ->
  let dt' := Math_Clamp dt 0%Q (MaxDeltaTime (Settings E)) in
  exists s1,
    Simulate E true dt s = Some (tt, s1)
    /\ mScene s1 = mScene sf
    /\ mLastDeltaTime s1 = mLastDeltaTime s
    /\ trace s1 = trace sf ++ prepare_events E dt' s ++ [EvAdvance dt' false]
    /\ (mNewActors (queues s) = [] -> mDeadActors (queues s) = [] ->
        mScene s1 = mScene s).
Proof.
  intros Hdt Hflush dt'.
  assert (Hsmall : (dt' < minimalEpsilon)%Q)
    by (apply Math_Clamp_small; [apply epsilon_positive|exact Hdt]).
  rewrite FlushRequests_eq in Hflush.
  destruct (mIsDuringSimulation s) eqn:Hduring; [discriminate|].
  destruct (CPhysX E) eqn:Hphysx; [|discriminate].
  cbn [negb andb] in Hflush.
  destruct (flush_scene (queues s) (mScene s)) as [w1|] eqn:Hfs; [|discriminate].
  injection Hflush as <-.
  destruct (advance_below_epsilon w1 dt' (prepare_stepper E dt' (mStepper s)) Hsmall)
    as [st' Hadv].
  eexists. split.
  - rewrite Simulate_eq, Hduring, Hphysx, Hfs. cbn [negb andb]. cbv zeta.
    fold dt'. rewrite Hadv. reflexivity.
  - unfold simulated, flushed.
    cbn [mScene mLastDeltaTime trace queues]. repeat split.
    + now rewrite <- !app_assoc, app_nil_r.
    + intros Hnew Hdead. unfold flush_scene, flush_world in Hfs.
      rewrite Hnew, Hdead in Hfs. cbn [HasItems orb] in Hfs.
      destruct (mScene s); congruence.
Qed.

(** C5.  A returning [Simulate(dt)] calls [advance] exactly once, with the
    delta clamp(dt, 0, MaxDeltaTime).  When that call dispatches the step
    the clamped delta is what [mLastDeltaTime] records, and for a [dt]
    above [MaxDeltaTime] it is [MaxDeltaTime] itself; when the call does not
    dispatch, [mLastDeltaTime] keeps its value. *)
Theorem Simulate_clamps_delta (inMain : bool) (dt : float) s s1 :
  Simulate E inMain dt s = Some (tt, s1) ->
  let dt' := Math_Clamp dt 0%Q (MaxDeltaTime (Settings E)) in
  exists evs dispatched,
    trace s1 = trace s ++ evs
    /\ advance_calls evs = [(dt', dispatched)]
    /\ (dispatched = true ->
        mLastDeltaTime s1 = dt'
        /\ ((MaxDeltaTime (Settings E) < dt)%Q ->
            dt' = MaxDeltaTime (Settings E)
            /\ mLastDeltaTime s1 = MaxDeltaTime (Settings E)))
    /\ (dispatched = false -> mLastDeltaTime s1 = mLastDeltaTime s).
Proof.
  intros Hrun dt'.
  destruct (Simulate_Some _ _ _ _ Hrun)
    as (w1 & dispatched & st2 & w2 & _ & _ & _ & _ & _ & Hadv & ->).
  fold dt' in Hadv |- *.
  eexists. exists dispatched. unfold simulated. cbn [trace mLastDeltaTime].
  split; [reflexivity|]. split.
  - rewrite !advance_calls_app, advance_calls_flush, advance_calls_prepare.
    destruct dispatched; reflexivity.
  - split; intros ->; [|reflexivity].
    split; [reflexivity|]. intros Habove.
    assert (Hclamp : dt' = MaxDeltaTime (Settings E)).
    { apply Math_Clamp_above; [exact Habove|].
      destruct (Qlt_le_dec dt' minimalEpsilon) as [Hsmall|Hbig].
      - destruct (advance_below_epsilon w1 dt'
                    (prepare_stepper E dt' (mStepper s)) Hsmall) as [st' Hfalse].
        rewrite Hadv in Hfalse. discriminate.
      - eapply Qlt_le_trans; [apply epsilon_positive|exact Hbig]. }
    split; [exact Hclamp|exact Hclamp].
Qed.

End Delta.

(** C4 as stated fails: [Simulate(0)] on a live scene with one actor waiting
    in [mNewActors] dispatches no step, and yet the world at exit holds an
    actor that the world at entry did not. *)
Lemma Simulate_zero_delta_flushes_pending_actor :
  (0 <= 0)%Q
  /\ exists s1,
       Simulate sample_engine true 0%Q pending_scene = Some (tt, s1)
       /\ option_map sceneActors (mScene pending_scene) = Some []
       /\ option_map sceneActors (mScene s1) = Some [1%nat]
       /\ mScene s1 <> mScene pending_scene.
Proof.
  split; [apply Qle_refl|].
  eexists. split; [vm_compute; reflexivity|].
  cbn. repeat split. intros Heq. discriminate Heq.
Qed.

Lemma Simulate_skips_small_delta_witness :
  exists s1,
    Simulate sample_engine true (-1 # 1)%Q pending_scene = Some (tt, s1)
    /\ option_map sceneActors (mScene s1) = Some [1%nat]
    /\ mLastDeltaTime s1 = 0%Q.
Proof.
  destruct (Simulate_skips_small_delta sample_engine (-1 # 1)%Q pending_scene
              (flushed pending_scene
                 (Some (flush_world (queues pending_scene)
                          (mkPxScene [] (mkVector3 0%Q (-981 # 1)%Q 0%Q) 67
                             (200 # 1)%Q [] []))))
              (or_introl (Qle_bool_imp_le (-1 # 1) 0 eq_refl))
              (FlushRequests_live sample_engine pending_scene _ eq_refl eq_refl eq_refl))
    as (s1 & Hrun & Hw & Hlast & _).
  exists s1. repeat split; [exact Hrun|now rewrite Hw|exact Hlast].
Defined.

Lemma Simulate_clamps_delta_witness :
  exists evs dispatched,
    trace stepped_scene = trace live_scene ++ evs
    /\ advance_calls evs = [((1 # 10)%Q, dispatched)]
    /\ (dispatched = true -> mLastDeltaTime stepped_scene = (1 # 10)%Q).
Proof.
  assert (Hrun : Simulate sample_engine true (1 # 1)%Q live_scene
                 = Some (tt, stepped_scene))
    by (vm_compute; reflexivity).
  destruct (Simulate_clamps_delta sample_engine true (1 # 1)%Q live_scene
              stepped_scene Hrun)
    as (evs & dispatched & Htrace & Hcalls & Htrue & _).
  exists evs, dispatched.
  split; [exact Htrace|]. split; [exact Hcalls|].
  intros Hd. exact (proj1 (Htrue Hd)).
Defined.

(* ------------------------------------------------------------------ *)
(** ** Postconditions of member functions

    The rules below execute a member function forwards under [post]. *)

Section Post.
Context {St : Type} `{PhysicsStepper St}.
Implicit Types (s : PhysicsScene St).

Lemma post_Some {A} (c : M St A) s (P : A -> PhysicsScene St -> Prop) a s' :
  post c s P -> c s = Some (a, s') -> P a s'.
Proof. unfold post. intros Hpost Hrun. now rewrite Hrun in Hpost. Qed.

Lemma post_ret {A} (a : A) s P : P a s -> post (ret a) s P.
Proof. exact (fun H => H). Qed.

Lemma post_crash {A} s (P : A -> PhysicsScene St -> Prop) : post crash s P.
Proof. exact I. Qed.

Lemma post_gets {A} (f : PhysicsScene St -> A) s P : P (f s) s -> post (gets f) s P.
Proof. exact (fun H => H). Qed.

Lemma post_modify (f : PhysicsScene St -> PhysicsScene St) s P :
  P tt (f s) -> post (modify f) s P.
Proof. exact (fun H => H). Qed.

Lemma post_modify_wheels (f : WheelBuffers -> WheelBuffers) s P :
  P tt (set_wheels (f (wheels s)) s) -> post (modify_wheels f) s P.
Proof. exact (fun H => H). Qed.

Lemma post_modify_queues (f : Queues -> Queues) s P :
  P tt (set_queues (f (queues s)) s) -> post (modify_queues f) s P.
Proof. exact (fun H => H). Qed.

Lemma post_emit (e : Event) s P :
  P tt (set_trace (trace s ++ [e]) s) -> post (emit e) s P.
Proof. exact (fun H => H). Qed.

Lemma post_bind {A B} (c : M St A) (k : A -> M St B) s P :
  post c s (fun a s' => post (k a) s' P) -> post (bind c k) s P.
Proof. unfold post, bind. now destruct (c s) as [[a s']|]. Qed.

Lemma post_when (b : bool) (c : M St unit) s P :
  (b = true -> post c s P) -> (b = false -> P tt s) -> post (when b c) s P.
Proof. destruct b; intros Ht Hf; [now apply Ht | now apply Hf]. Qed.

Lemma post_ASSERT (b : bool) s P : (b = true -> P tt s) -> post (ASSERT b) s P.
Proof. destruct b; intros Hb; [now apply Hb | exact I]. Qed.

Lemma post_for_each_emit {A} (f : A -> Event) (l : list A) s P :
  P tt (set_trace (trace s ++ map f l) s) ->
  post (for_each l (fun x => emit (f x))) s P.
Proof. unfold post. now rewrite for_each_emit. Qed.

Lemma post_for_each_events (l : list Event) s P :
  P tt (set_trace (trace s ++ l) s) -> post (for_each l emit) s P.
Proof.
  intros HP. unfold post.
  rewrite (for_each_emits (fun e => [e])) by reflexivity.
  rewrite flat_map_singleton, map_id. exact HP.
Qed.

Lemma active_transforms_eq (actors : list PxActor) s :
  for_each actors (fun pxActor =>
    owners <- gets userData ;;
    ASSERT (existsb (Nat.eqb pxActor) owners) ;;
    emit (EvOnActiveTransformChanged pxActor)) s
  = if forallb (fun pxActor => existsb (Nat.eqb pxActor) (userData s)) actors
    then Some (tt, set_trace (trace s ++ map EvOnActiveTransformChanged actors) s)
    else None.
Proof.
  revert s. induction actors as [|a actors IH]; intros s.
  - cbn. unfold ret. now rewrite app_nil_r, set_trace_same.
  - cbn [for_each forallb map]. rewrite bind_assoc, bind_gets.
    destruct (existsb (Nat.eqb a) (userData s)); [|reflexivity].
    cbn [ASSERT andb]. rewrite bind_assoc, bind_ret, bind_emit, IH.
    cbn [userData set_trace trace].
    match goal with
    | |- context [forallb ?f actors] => destruct (forallb f actors)
    end; [|reflexivity].
    now rewrite set_trace_twice, <- app_assoc.
Qed.

Lemma post_active_transforms (actors : list PxActor) s P :
  (forallb (fun pxActor => existsb (Nat.eqb pxActor) (userData s)) actors = true ->
   P tt (set_trace (trace s ++ map EvOnActiveTransformChanged actors) s)) ->
  post (for_each actors (fun pxActor =>
          owners <- gets userData ;;
          ASSERT (existsb (Nat.eqb pxActor) owners) ;;
          emit (EvOnActiveTransformChanged pxActor))) s P.
Proof.
  intros HP. unfold post. rewrite active_transforms_eq.
  match goal with
  | |- context [forallb ?f actors] => destruct (forallb f actors)
  end; [now apply HP|exact I].
Qed.

Lemma post_read_scene {A} (f : PxScene -> A) s P :
  (forall w, mScene s = Some w -> P (f w) s) -> post (read_scene f) s P.
Proof.
  intros HP. unfold post, read_scene.
  destruct (mScene s) as [w|]; [now apply HP | exact I].
Qed.

Lemma post_on_scene (f : PxScene -> PxScene) s P :
  (forall w, mScene s = Some w -> P tt (set_mScene (Some (f w)) s)) ->
  post (on_scene f) s P.
Proof.
  intros HP. unfold post, on_scene.
  destruct (mScene s) as [w|]; [now apply HP | exact I].
Qed.

Lemma post_resize_wheels {A} (get : WheelBuffers -> Array A)
    (set : Array A -> WheelBuffers -> WheelBuffers) (dflt : A) (size : Z) s P :
  (forall a, Resize dflt size (get (wheels s)) = Some a ->
             P tt (set_wheels (set a (wheels s)) s)) ->
  post (resize_wheels get set dflt size) s P.
Proof.
  intros HP. unfold post, resize_wheels.
  destruct (Resize dflt size (get (wheels s))) as [a|]; [now apply HP | exact I].
Qed.

Lemma post_stepper_wait s P :
  (forall st st' w',
      mStepper s = Some st -> wait (mScene s) st = Some (st', w') ->
      P tt (set_trace (trace s ++ [EvWait])
              (set_mScene w' (set_mStepper (Some st') s)))) ->
  post stepper_wait s P.
Proof.
  intros HP. unfold post, stepper_wait, the_stepper, bind, gets.
  destruct (mStepper s) as [st|] eqn:Hst; [|exact I].
  destruct (wait (mScene s) st) as [[st' w']|] eqn:Hwait; [|exact I].
  exact (HP st st' w' eq_refl Hwait).
Qed.

Lemma post_consequence {A} (c : M St A) s (Q P : A -> PhysicsScene St -> Prop) :
  post c s Q -> (forall a s', Q a s' -> P a s') -> post c s P.
Proof.
  unfold post. destruct (c s) as [[a s']|]; [|trivial].
  intros HQ HP. now apply HP.
Qed.

End Post.

Ltac wheel_members :=
  cbv beta iota delta
      [mName mScene mCpuDispatcher mControllerManager mAutoSimulation
       mIsDuringSimulation mLastDeltaTime mScratchMemory mStepper
       queues wheels trace userData
       set_mScene set_mAutoSimulation set_mIsDuringSimulation
       set_mLastDeltaTime set_mScratchMemory set_mStepper set_queues
       set_wheels set_trace set_userData
       mNewActors mActions mDeadActors mDeadColliders mDeadJoints
       mDeadMaterials mDeadObjects
       set_mNewActors set_mActions set_mDeadActors set_mDeadColliders
       set_mDeadJoints set_mDeadMaterials set_mDeadObjects
       mWheelVehicles mWheelVehiclesCache mWheelQueryResults mWheelHitResults
       mWheelVehiclesResultsPerWheel mWheelVehiclesResultsPerVehicle
       mWheelRaycastBatchQuery mWheelTireFrictions
       set_mWheelVehicles set_mWheelVehiclesCache set_mWheelQueryResults
       set_mWheelHitResults set_mWheelVehiclesResultsPerWheel
       set_mWheelVehiclesResultsPerVehicle set_mWheelRaycastBatchQuery
       set_mWheelTireFrictions] in *.

(** Forward execution of a member function under [post]. *)
Ltac wp_step :=
  wheel_members; cbn [negb andb orb] in *;
  lazymatch goal with
  | |- post (bind _ _) _ _ => apply post_bind
  | |- post (ret _) _ _ => apply post_ret
  | |- post crash _ _ => apply post_crash
  | |- post (gets _) _ _ => apply post_gets
  | |- post (modify_wheels _) _ _ => apply post_modify_wheels
  | |- post (modify_queues _) _ _ => apply post_modify_queues
  | |- post (modify _) _ _ => apply post_modify
  | |- post (emit _) _ _ => apply post_emit
  | |- post (when _ _) _ _ => apply post_when; intros ?
  | |- post (ASSERT _) _ _ => apply post_ASSERT; intros ?
  | |- post (for_each _ emit) _ _ => apply post_for_each_events
  | |- post (for_each _ (fun pxActor => bind (gets _) _)) _ _ =>
      apply post_active_transforms; intros ?
  | |- post (for_each _ (fun x => emit _)) _ _ => apply post_for_each_emit
  | |- post (read_scene _) _ _ => apply post_read_scene; intros ? ?
  | |- post (on_scene _) _ _ => apply post_on_scene; intros ? ?
  | |- post (resize_wheels _ _ _ _) _ _ => apply post_resize_wheels; intros ? ?
  | |- post stepper_wait _ _ => apply post_stepper_wait; intros ? ? ? ? ?
  | |- post (match ?x with _ => _ end) _ _ => destruct x eqn:?
  | |- post (let '(_, _) := ?x in _) _ _ => destruct x eqn:?
  end;
  wheel_members.

Ltac wp := repeat wp_step; wheel_members.

(* ------------------------------------------------------------------ *)
(** ** The vehicle pipeline and the wheel buffers *)

Lemma Resize_Capacity {A} (dflt : A) (size : Z) (a a' : Array A) :
  Resize dflt size a = Some a' -> Capacity a <= Capacity a'.
Proof.
  unfold Resize. destruct (size <? 0); [discriminate|].
  destruct (Count a >? size); intros [= <-]; cbn [Capacity]; lia.
Qed.

Lemma Resize_Count {A} (dflt : A) (size : Z) (a a' : Array A) :
  Resize dflt size a = Some a' -> Count a' = size.
Proof.
  unfold Resize, Count. destruct (Z.ltb_spec size 0) as [|Hpos]; [discriminate|].
  destruct (Z.gtb_spec (Z.of_nat (length (items a))) size) as [Hgt|Hle];
    intros [= <-]; cbn [items].
  - rewrite length_firstn. lia.
  - rewrite length_app, repeat_length. lia.
Qed.

Section Vehicles.
Context {St : Type} `{PhysicsStepper St}.
Variable SetCurrentGear : Z -> WheeledVehicle -> WheeledVehicle.
Variable E : Engine.
Implicit Types (s : PhysicsScene St).

Lemma UpdateVehiclesSteering_count (lastDt : float) (vehicles : list WheeledVehicle) :
  forall cache n vehicles' cache' n' evs,
    UpdateVehiclesSteering SetCurrentGear lastDt vehicles cache n
    = Some (vehicles', cache', n', evs) ->
    n' = ActiveWheelsCount vehicles n.
Proof.
  induction vehicles as [|v rest IH]; intros cache n vehicles' cache' n' evs; simpl.
  - intros [= _ _ <- _]. reflexivity.
  - destruct (IsActiveInHierarchy v); cbn [negb].
    + destruct (_drive v) as [drive|]; [|discriminate].
      destruct (ComputeVehicleInput SetCurrentGear v) as [[throttle brake] v'].
      destruct (UpdateVehiclesSteering _ _ rest _ _) as [[[[vs c] m] e]|] eqn:Hrest;
        [|discriminate].
      intros [= _ _ <- _]. eapply IH. exact Hrest.
    + destruct (UpdateVehiclesSteering _ _ rest _ _) as [[[[vs c] m] e]|] eqn:Hrest;
        [|discriminate].
      intros [= _ _ <- _]. eapply IH. exact Hrest.
Qed.

Lemma VehiclePipeline_post s :
  post (VehiclePipeline SetCurrentGear) s (fun _ s' =>
    mIsDuringSimulation s' = mIsDuringSimulation s
    /\ (exists evs, trace s' = trace s ++ evs)
    /\ buffers_step (ActiveWheelsCount (mWheelVehicles (wheels s)) 0)
         (wheels s) (wheels s')).
Proof.
  destruct s as [nm sc cd cm au du ld sm stp q wh tr ud].
  destruct wh as [vs ca qr hr pw pv bq tf].
  unfold VehiclePipeline. wheel_members.
  wp.
  all: split; [reflexivity|].
  all: split; [rewrite <- ?app_assoc; eexists; reflexivity|].
  all: match goal with
       | Hloop : UpdateVehiclesSteering _ _ _ _ _ = Some _ |- _ =>
           apply UpdateVehiclesSteering_count in Hloop; subst
       end.
  all: unfold buffers_step; wheel_members.
  all: repeat match goal with
         | Hr : Resize _ _ _ = Some _ |- _ =>
             pose proof (Resize_Capacity _ _ _ _ Hr); revert Hr
         end; intros.
  all: cbn [Capacity]; repeat (split; [lia|]).
  all: first
         [ left; split; reflexivity
         | right; repeat split; try assumption;
           match goal with
           | Hgt : (_ >? _) = true |- _ => apply Z.gtb_lt in Hgt; lia
           end ].
Qed.

Lemma buffers_step_refl (n : Z) (w : WheelBuffers) : buffers_step n w w.
Proof. unfold buffers_step. repeat split; try lia. left. split; reflexivity. Qed.

Lemma CollectResults_post (inMain : bool) s :
  post (CollectResults SetCurrentGear E inMain) s (fun _ s' =>
    (mIsDuringSimulation s = false -> s' = s)
    /\ (mIsDuringSimulation s = true ->
        mIsDuringSimulation s' = false
        /\ (exists mid,
              trace s'
              = trace s ++ EvWait :: mid
                ++ [EvEventsCollectResults; EvSendTriggerEvents;
                    EvSendCollisionEvents; EvSendJointEvents])
        /\ buffers_step (ActiveWheelsCount (mWheelVehicles (wheels s)) 0)
             (wheels s) (wheels s'))).
Proof.
  destruct s as [nm sc cd cm au du ld sm stp q wh tr ud].
  unfold CollectResults. destruct du.
  2: { wp. split; [reflexivity|discriminate]. }
  repeat lazymatch goal with
         | |- post (bind (when _ (VehiclePipeline _)) _) _ _ => fail
         | _ => wp_step
         end.
  apply post_bind. apply post_when; intros Hvehicles.
  - eapply post_consequence; [apply VehiclePipeline_post|].
    intros [] s' (Hflag & [evs Htrace] & Hbuf).
    destruct s' as [nm' sc' cd' cm' au' du' ld' sm' stp' q' wh' tr' ud'].
    wheel_members. subst du' tr'.
    wp. split; [discriminate|]. intros _.
    split; [reflexivity|]. split; [|exact Hbuf].
    match goal with
    | |- context [sceneActiveActors ?w] =>
        exists (evs ++ map EvOnActiveTransformChanged (sceneActiveActors w))
    end.
    rewrite <- !app_assoc. reflexivity.
  - wp. split; [discriminate|]. intros _.
    split; [reflexivity|]. split; [|apply buffers_step_refl].
    match goal with
    | |- context [sceneActiveActors ?w] =>
        exists (map EvOnActiveTransformChanged (sceneActiveActors w))
    end.
    rewrite <- !app_assoc. reflexivity.
Qed.

Lemma buffers_step_le (n : Z) (w w' : WheelBuffers) :
  buffers_synced w -> buffers_step n w w' ->
  buffers_le w w' /\ buffers_synced w'
  /\ ((Count (mWheelQueryResults w') = Count (mWheelQueryResults w)
       /\ Count (mWheelHitResults w') = Count (mWheelHitResults w))
      \/ (Count (mWheelQueryResults w) < n
          /\ Count (mWheelQueryResults w') = n
          /\ Count (mWheelHitResults w') = n)).
Proof.
  unfold buffers_synced, buffers_step, buffers_le.
  intros Hsync (Hc1 & Hc2 & Hc3 & Hc4 & [[Hq Hh]|(Hlt & Hq & Hh)]).
  - rewrite Hq, Hh. repeat split; lia.
  - apply Resize_Count in Hq, Hh. repeat split; lia.
Qed.

Lemma buffers_le_trans (a b c : WheelBuffers) :
  buffers_le a b -> buffers_le b c -> buffers_le a c.
Proof. unfold buffers_le. intros. repeat split; lia. Qed.

Lemma buffers_le_refl (a : WheelBuffers) : buffers_le a a.
Proof. unfold buffers_le. repeat split; lia. Qed.

(** What any single operation does to the wheel buffers and to the mid-step
    flag. *)
Lemma run_op_post (op : Op) s :
  post (run_op SetCurrentGear E op) s (fun _ s' =>
    (exists n, buffers_step n (wheels s) (wheels s'))
    /\ ((forall b, op <> OpCollectResults b) ->
        mIsDuringSimulation s = true -> mIsDuringSimulation s' = true)).
Proof.
  destruct op; cbn [run_op].
  - (* Simulate *)
    unfold post. rewrite Simulate_eq.
    destruct (inMain && negb (mIsDuringSimulation s) && CPhysX E); [|exact I].
    destruct (flush_scene (queues s) (mScene s)) as [w1|]; [|exact I].
    cbv zeta.
    destruct (advance _ _ _) as [[[dispatched st2] w2]|]; [|exact I].
    split; [|reflexivity]. exists 0. apply buffers_step_refl.
  - (* CollectResults *)
    eapply post_consequence; [apply CollectResults_post|].
    intros [] s' [Hidle Hbusy]. split.
    + destruct (mIsDuringSimulation s) eqn:Hduring.
      * eexists. apply (Hbusy eq_refl).
      * rewrite (Hidle eq_refl). exists 0. apply buffers_step_refl.
    + intros Hop. exfalso. exact (Hop inMain eq_refl).
  - (* FlushRequests *)
    unfold post. rewrite FlushRequests_eq.
    destruct (mIsDuringSimulation s) eqn:Hduring; [exact I|].
    destruct (CPhysX E); [|exact I]. cbn [negb andb].
    destruct (flush_scene (queues s) (mScene s)) as [w1|]; [|exact I].
    split; [|discriminate]. exists 0. apply buffers_step_refl.
  - destruct s, inMain; unfold AddActor; wp;
      (split; [exists 0; apply buffers_step_refl|auto]).
  - destruct s, inMain, putToSleep; unfold AddDynamicActor; wp;
      (split; [exists 0; apply buffers_step_refl|auto]).
  - destruct s; unfold UnlinkActor; wp;
      (split; [exists 0; apply buffers_step_refl|auto]).
  - destruct s; unfold RemoveActor; wp;
      (split; [exists 0; apply buffers_step_refl|auto]).
  - destruct s; unfold RemoveCollider; wp;
      (split; [exists 0; apply buffers_step_refl|auto]).
  - destruct s; unfold RemoveJoint; wp;
      (split; [exists 0; apply buffers_step_refl|auto]).
  - destruct s; unfold RemoveMaterial; wp;
      (split; [exists 0; apply buffers_step_refl|auto]).
  - destruct s; unfold RemoveObject; wp;
      (split; [exists 0; apply buffers_step_refl|auto]).
  - destruct s; unfold SetAutoSimulation; wp;
      (split; [exists 0; apply buffers_step_refl|auto]).
  - unfold post, SetGravity. destruct (mScene s);
      (split; [exists 0; apply buffers_step_refl|auto]).
  - unfold post, SetEnableCCD. destruct (mScene s);
      (split; [exists 0; apply buffers_step_refl|auto]).
  - unfold post, SetBounceThresholdVelocity. destruct (mScene s);
      (split; [exists 0; apply buffers_step_refl|auto]).
  - destruct s as [? ? ? ? ? ? ? ? ? ? [] ? ?]. wp. split; [|auto].
    exists 0. unfold buffers_step. wheel_members.
    repeat split; try lia; left; split; reflexivity.
Qed.

(** Along any sequence of operations the buffers only grow and the two
    shared buffers keep the same size. *)
Lemma run_ops_buffers (ops : list Op) :
  forall s s',
    buffers_synced (wheels s) ->
    run_ops SetCurrentGear E ops s = Some (tt, s') ->
    buffers_le (wheels s) (wheels s') /\ buffers_synced (wheels s').
Proof.
  induction ops as [|op ops IH]; intros s s' Hsync Hrun.
  - injection Hrun as <-. split; [apply buffers_le_refl|exact Hsync].
  - cbn [run_ops] in Hrun. apply bind_Some in Hrun.
    destruct Hrun as ([] & s1 & Hop & Hrest).
    destruct (post_Some _ _ _ _ _ (run_op_post op s) Hop) as [[n Hstep] _].
    destruct (buffers_step_le _ _ _ Hsync Hstep) as (Hle & Hsync1 & _).
    destruct (IH _ _ Hsync1 Hrest) as [Hle' Hsync'].
    split; [eapply buffers_le_trans; eassumption|exact Hsync'].
Qed.

(** C7.  Start from a scene whose two shared wheel-query buffers have the
    same size (as in a fresh scene) and run any sequence of operations,
    with any number of [CollectResults] calls and any changes to the
    registered vehicles in between.  The sizes of the shared buffers and the
    capacities of all four wheel buffers at the end are at least what they
    were at the start.  Moreover a further [CollectResults] either leaves
    the sizes of the shared buffers as they are, or the wheel total of the
    active vehicles exceeds the stored size and both grow to that total. *)
Theorem wheel_buffers_only_grow (ops : list Op) s s' :
  Count (mWheelHitResults (wheels s)) = Count (mWheelQueryResults (wheels s)) ->
  run_ops SetCurrentGear E ops s = Some (tt, s') ->
  Count (mWheelQueryResults (wheels s)) <= Count (mWheelQueryResults (wheels s'))
  /\ Count (mWheelHitResults (wheels s)) <= Count (mWheelHitResults (wheels s'))
  /\ Capacity (mWheelQueryResults (wheels s))
     <= Capacity (mWheelQueryResults (wheels s'))
  /\ Capacity (mWheelHitResults (wheels s))
     <= Capacity (mWheelHitResults (wheels s'))
  /\ Capacity (mWheelVehiclesResultsPerWheel (wheels s))
     <= Capacity (mWheelVehiclesResultsPerWheel (wheels s'))
  /\ Capacity (mWheelVehiclesResultsPerVehicle (wheels s))
     <= Capacity (mWheelVehiclesResultsPerVehicle (wheels s'))
  /\ (forall inMain s'',
        CollectResults SetCurrentGear E inMain s' = Some (tt, s'') ->
        let total := ActiveWheelsCount (mWheelVehicles (wheels s')) 0 in
        (Count (mWheelQueryResults (wheels s''))
         = Count (mWheelQueryResults (wheels s'))
         /\ Count (mWheelHitResults (wheels s''))
            = Count (mWheelHitResults (wheels s')))
        \/ (Count (mWheelQueryResults (wheels s')) < total
            /\ Count (mWheelQueryResults (wheels s'')) = total
            /\ Count (mWheelHitResults (wheels s'')) = total)).
Proof.
  intros Hsync Hrun.
  destruct (run_ops_buffers ops s s' Hsync Hrun) as [Hle Hsync'].
  destruct Hle as (H1 & H2 & H3 & H4 & H5 & H6).
  repeat (split; [assumption|]).
  intros inMain s'' Hcollect total.
  destruct (post_Some _ _ _ _ _ (CollectResults_post inMain s') Hcollect)
    as [Hidle Hbusy].
  destruct (mIsDuringSimulation s') eqn:Hduring.
  - destruct (Hbusy eq_refl) as (_ & _ & Hstep).
    exact (proj2 (proj2 (buffers_step_le _ _ _ Hsync' Hstep))).
  - rewrite (Hidle eq_refl). left. split; reflexivity.
Qed.

End Vehicles.

Lemma wheel_buffers_only_grow_witness :
  exists s',
    run_ops ForceGear sample_engine two_frames live_scene = Some (tt, s')
    /\ Count (mWheelQueryResults (wheels live_scene))
       <= Count (mWheelQueryResults (wheels s'))
    /\ Capacity (mWheelVehiclesResultsPerWheel (wheels live_scene))
       <= Capacity (mWheelVehiclesResultsPerWheel (wheels s')).
Proof.
  destruct (run_ops ForceGear sample_engine two_frames live_scene)
    as [[[] s']|] eqn:Hrun.
  - exists s'. split; [reflexivity|].
    pose proof (wheel_buffers_only_grow ForceGear sample_engine two_frames
                  live_scene s' eq_refl Hrun) as (Hq & _ & _ & _ & Hw & _).
    split; assumption.
  - exfalso. vm_compute in Hrun. discriminate Hrun.
Defined.


(* ------------------------------------------------------------------ *)
(** ** Per-vehicle wheel-query records *)

(** C10 does not hold of the code.  With the parked truck (inactive, six
    wheels) registered before the driving car (active, four wheels), one
    frame leaves a single per-vehicle record, prepared for the car whose
    drive is the only one cached, and that record announces six wheels: the
    loop reads the drive of [mWheelVehicles[ii]], the truck, where the car is
    [mWheelVehicles[i]]. *)
Theorem interleaved_inactive_vehicle_wheel_count :
  exists s',
    run_ops ForceGear sample_engine interleaved_frame live_scene = Some (tt, s')
    /\ mWheelVehiclesCache (wheels s') = [mkDrive 8%nat 4]
    /\ items (mWheelVehiclesResultsPerVehicle (wheels s')) = [mkPerVehicle 6 0]
    /\ option_map getNbWheels (_drive driving_car) = Some 4
    /\ SetupWheelStates [parked_truck; driving_car] [parked_truck; driving_car]
         0 0 [PxVehicleWheelQueryResult_default]
       = Some [mkPerVehicle 6 0].
Proof.
  eexists. split; [vm_compute; reflexivity|].
  repeat split.
Qed.

(* ------------------------------------------------------------------ *)
(** ** Further properties: the two filters *)

(** X1.  The pair filter does not depend on the order in which the two
    objects are presented: both the returned filter flags and the pair flags
    are the same when the objects are swapped. *)
Theorem FilterShader_symmetric (a0 : Z) (fd0 : PxFilterData) (a1 : Z)
    (fd1 : PxFilterData) (pf : PxPairFlags) :
  FilterShader a0 fd0 a1 fd1 pf = FilterShader a1 fd1 a0 fd0 pf.
Proof.
  unfold FilterShader.
  rewrite (orb_comm (PxFilterObjectIsTrigger a1)),
          (andb_comm (PxFilterObjectIsKinematic a1)),
          (andb_comm (nonzero (Z.land (word0 fd1) (word1 fd0)))).
  reflexivity.
Qed.

(** X2.  The wheel raycast filter is symmetric in its two arguments, only
    ever answers eNONE or eBLOCK (never eTOUCH), and never blocks a shape
    that carries the same word3 id as the querying wheel. *)
Theorem WheelRaycastPreFilter_symmetric_no_touch (fd0 fd1 : PxFilterData) :
  WheelRaycastPreFilter fd0 fd1 = WheelRaycastPreFilter fd1 fd0
  /\ (WheelRaycastPreFilter fd0 fd1 = PxQueryHitType.eNONE
      \/ WheelRaycastPreFilter fd0 fd1 = PxQueryHitType.eBLOCK)
  /\ WheelRaycastPreFilter fd0 fd1 <> PxQueryHitType.eTOUCH
  /\ (word3 fd0 = word3 fd1 ->
      WheelRaycastPreFilter fd0 fd1 = PxQueryHitType.eNONE).
Proof.
  unfold WheelRaycastPreFilter.
  rewrite (Z.eqb_sym (word3 fd1)),
          (andb_comm (nonzero (Z.land (word0 fd1) (word1 fd0)))).
  split; [reflexivity|].
  destruct (Z.eqb_spec (word3 fd0) (word3 fd1)) as [Heq|Hne];
    [|destruct (nonzero (Z.land (word0 fd0) (word1 fd1))
                && nonzero (Z.land (word0 fd1) (word1 fd0)))];
    (split; [first [left; reflexivity | right; reflexivity]|]);
    (split; [discriminate|]); intros; congruence.
Qed.

(** X3.  Whatever a wheel raycast is allowed to block, the pair filter does
    not kill: when the raycast filter answers eBLOCK for two filter data,
    the pair filter on the same data returns eDEFAULT or eSUPPRESS, whatever
    the object attributes, and never eKILL. *)
Theorem WheelRaycastPreFilter_block_not_killed (fd0 fd1 : PxFilterData)
    (a0 a1 : Z) (pf : PxPairFlags) :
  WheelRaycastPreFilter fd0 fd1 = PxQueryHitType.eBLOCK ->
  fst (FilterShader a0 fd0 a1 fd1 pf) <> PxFilterFlag.eKILL
  /\ (fst (FilterShader a0 fd0 a1 fd1 pf) = PxFilterFlag.eDEFAULT
      \/ fst (FilterShader a0 fd0 a1 fd1 pf) = PxFilterFlag.eSUPPRESS).
Proof.
  unfold WheelRaycastPreFilter, FilterShader.
  destruct (word3 fd0 =? word3 fd1); [discriminate|].
  destruct (nonzero _ && nonzero _); [|discriminate].
  intros _.
  destruct (PxFilterObjectIsTrigger a0 || PxFilterObjectIsTrigger a1);
    [|destruct (PxFilterObjectIsKinematic a0 && PxFilterObjectIsKinematic a1)];
    cbn [fst]; split; try discriminate; auto.
Qed.

Lemma WheelRaycastPreFilter_block_not_killed_witness :
  fst (FilterShader 1 (mkFilterData 1 1 0 5) 0 (mkFilterData 1 1 0 6) 0)
  <> PxFilterFlag.eKILL.
Proof.
  exact (proj1 (WheelRaycastPreFilter_block_not_killed
                  (mkFilterData 1 1 0 5) (mkFilterData 1 1 0 6) 1 0 0 eq_refl)).
Defined.

(* ------------------------------------------------------------------ *)
(** ** Further properties: construction and settings *)

(** X4.  Whenever the dispatcher is created it gets between one and four
    worker threads, one less than the core count inside that range.  The
    subtraction is done in uint32: a core count of zero wraps around and
    yields four threads, not one. *)
Theorem PhysicsScene_new_dispatcher_threads {St : Type} (name : String.string)
    (settings : PhysicsSettings) (cores : Z) (sceneCreated : bool) :
  exists n,
    mCpuDispatcher (PhysicsScene_new (St := St) name settings cores true sceneCreated)
    = Some n
    /\ 1 <= n <= 4
    /\ (2 <= cores <= 5 -> n = cores - 1)
    /\ (cores = 1 -> n = 1)
    /\ (5 <= cores < 2 ^ 32 -> n = 4)
    /\ (cores = 0 -> n = 4).
Proof.
  unfold PhysicsScene_new. cbn [negb].
  destruct sceneCreated; cbn [negb mCpuDispatcher]; eexists; (split; [reflexivity|]).
  all: destruct (Z.ltb_spec ((cores - 1) mod 2 ^ 32) 1) as [H1|H1];
    [|destruct (Z.ltb_spec ((cores - 1) mod 2 ^ 32) 4) as [H4|H4]].
  all: repeat split; try lia; intros Hc;
    try (subst cores; cbn in *; lia);
    try (rewrite Z.mod_small in * by lia; lia).
Qed.

(** X5.  What the getters report on a new scene.  When the dispatcher and
    the world were created, [GetEnableCCD], [GetBounceThresholdVelocity] and
    [GetGravity] report the settings handed to the constructor, whatever the
    process-wide settings are at the time of the call.  When a creation
    failed, the first two report the process-wide settings of the time of
    the call, which need not be the constructor's, and [GetGravity] reports
    zero.  A new scene is not mid-step, has empty queues and no vehicles,
    and has a world only if both creations succeeded. *)
Theorem PhysicsScene_new_reports_settings {St : Type} (E : Engine)
    (name : String.string) (settings : PhysicsSettings) (cores : Z)
    (dispatcherCreated sceneCreated : bool) :
  let s := PhysicsScene_new (St := St) name settings cores
             dispatcherCreated sceneCreated in
  let reported := if dispatcherCreated && sceneCreated
                  then settings else Settings E in
  GetEnableCCD E s = negb (DisableCCD reported)
  /\ GetBounceThresholdVelocity E s = BounceThresholdVelocity reported
  /\ GetGravity s
     = (if dispatcherCreated && sceneCreated then DefaultGravity settings
        else Vector3_Zero)
  /\ IsDuringSimulation s = false
  /\ queues s = Queues_empty
  /\ mWheelVehicles (wheels s) = []
  /\ (mScene s <> None <-> dispatcherCreated && sceneCreated = true)
  /\ mControllerManager s = dispatcherCreated && sceneCreated.
Proof.
  intros s reported. subst s reported.
  unfold GetEnableCCD, GetBounceThresholdVelocity, GetGravity, IsDuringSimulation,
    PhysicsScene_new.
  destruct dispatcherCreated, sceneCreated;
    cbn [negb andb mScene mIsDuringSimulation queues wheels
         mWheelVehicles WheelBuffers_empty mControllerManager
         sceneFlags sceneGravity sceneBounceThresholdVelocity];
    repeat split; try congruence; try discriminate.
  destruct (DisableCCD settings), (EnableAdaptiveForce settings); reflexivity.
Qed.

(* ------------------------------------------------------------------ *)
(** ** Further properties: vehicle inputs *)


Lemma fltb_false_iff (a b : float) : fltb a b = false <-> (b <= a)%Q.
Proof.
  unfold fltb. rewrite negb_false_iff. apply Qle_bool_iff.
Qed.

Lemma Math_Abs_nonneg (x : float) : (0 <= Math_Abs x)%Q.
Proof.
  unfold Math_Abs. destruct (fltb x 0%Q) eqn:Hx.
  - apply fltb_true_iff in Hx. lra.
  - apply fltb_false_iff in Hx. exact Hx.
Qed.

Lemma Math_Abs_Qabs (x : float) : (Math_Abs x == Qabs x)%Q.
Proof.
  unfold Math_Abs. destruct (fltb x 0%Q) eqn:Hx.
  - apply fltb_true_iff in Hx. rewrite Qabs_neg by lra. reflexivity.
  - apply fltb_false_iff in Hx. rewrite Qabs_pos by lra. reflexivity.
Qed.

(** X7.  The inputs computed for a vehicle are well formed whatever the raw
    inputs: the throttle handed to the smoother is never negative and never
    exceeds the magnitude of the raw throttle, and the brake is either the
    raw brake or full brake.  A gear change is requested only under the
    reverse-as-brake policy, below 80 units of speed: to reverse under a
    negative throttle from non-negative gears, to first gear under a
    positive throttle from non-positive gears; otherwise the vehicle is left
    alone. *)
Theorem ComputeVehicleInput_well_formed
    (SetCurrentGear : Z -> WheeledVehicle -> WheeledVehicle) (v : WheeledVehicle) :
  let '(throttle, brake, v') := ComputeVehicleInput SetCurrentGear v in
  (0 <= throttle)%Q
  /\ (throttle <= Qabs (_throttle v))%Q
  /\ (brake = _brake v \/ brake = 1%Q)
  /\ (v' = v
      \/ (v' = SetCurrentGear (-1) v
          /\ UseReverseAsBrake v = true
          /\ (Qabs (GetForwardSpeed v) < 80)%Q
          /\ (_throttle v < - ZeroTolerance)%Q
          /\ 0 <= GetCurrentGear v /\ 0 <= GetTargetGear v)
      \/ (v' = SetCurrentGear 1 v
          /\ UseReverseAsBrake v = true
          /\ (Qabs (GetForwardSpeed v) < 80)%Q
          /\ (ZeroTolerance < _throttle v)%Q
          /\ GetCurrentGear v <= 0 /\ GetTargetGear v <= 0)).
Proof.
  unfold ComputeVehicleInput.
  destruct (UseReverseAsBrake v) eqn:Hpolicy.
  - cbv zeta.
    set (v' := if fltb (Math_Abs (GetForwardSpeed v)) 80%Q then _ else v).
    split; [|split; [|split]].
    + apply Math_Abs_nonneg.
    + destruct (_ || _).
      * change (Math_Abs 0%Q) with 0%Q. apply Qabs_nonneg.
      * rewrite Math_Abs_Qabs. lra.
    + destruct (fgtb (_throttle v) 0%Q); [|destruct (fltb (_throttle v) 0%Q)];
        match goal with |- context [if ?c then _ else _] => destruct c end; auto.
    + subst v'.
      destruct (fltb (Math_Abs (GetForwardSpeed v)) 80%Q) eqn:Hspeed; [|now left].
      apply fltb_true_iff in Hspeed. rewrite Math_Abs_Qabs in Hspeed.
      destruct (fltb (_throttle v) (- ZeroTolerance)%Q
                && (GetCurrentGear v >=? 0) && (GetTargetGear v >=? 0)) eqn:Hrev.
      * right. left. apply andb_prop in Hrev. destruct Hrev as [Hrev Ht].
        apply andb_prop in Hrev. destruct Hrev as [Hthr Hc].
        apply fltb_true_iff in Hthr. apply Z.geb_le in Hc, Ht. auto 10.
      * destruct (fgtb (_throttle v) ZeroTolerance
                  && (GetCurrentGear v <=? 0) && (GetTargetGear v <=? 0)) eqn:Hfwd;
          [|now left].
        right. right. apply andb_prop in Hfwd. destruct Hfwd as [Hfwd Ht].
        apply andb_prop in Hfwd. destruct Hfwd as [Hthr Hc].
        apply fltb_true_iff in Hthr. apply Z.leb_le in Hc, Ht. auto 10.
  - split; [|split; [|split]].
    + unfold Math_Max, fgtb. destruct (fltb 0%Q (_throttle v)) eqn:Ht.
      * apply fltb_true_iff in Ht. lra.
      * lra.
    + unfold Math_Max, fgtb. destruct (fltb 0%Q (_throttle v)) eqn:Ht.
      * apply Qle_Qabs.
      * apply Qabs_nonneg.
    + now left.
    + now left.
Qed.

(** X8.  The digital raw input never asks to steer left and right at once,
    and raises a direction only when the steering input is beyond the dead
    zone on that side; the analog raw input passes throttle, brake,
    steering and handbrake through unchanged. *)
Theorem MakeRawInput_steering (v : WheeledVehicle) (throttle brake : float) :
  match MakeRawInput v throttle brake with
  | DigitalInput _ _ steerLeft steerRight _ =>
      UseAnalogSteering v = false
      /\ steerLeft && steerRight = false
      /\ (steerLeft = true <-> (_steering v < - deadZone)%Q)
      /\ (steerRight = true <-> (deadZone < _steering v)%Q)
  | AnalogInput accel brake' steer handbrake =>
      UseAnalogSteering v = true
      /\ accel = throttle /\ brake' = brake
      /\ steer = _steering v /\ handbrake = _handBrake v
  end.
Proof.
  unfold MakeRawInput. destruct (UseAnalogSteering v).
  - repeat split.
  - split; [reflexivity|]. split; [|split; apply fltb_true_iff].
    destruct (fltb (_steering v) (- deadZone)%Q) eqn:Hl; [|reflexivity].
    destruct (fgtb (_steering v) deadZone) eqn:Hr; [|reflexivity].
    apply fltb_true_iff in Hl, Hr. unfold deadZone in *. exfalso. lra.
Qed.

(* ------------------------------------------------------------------ *)
(** ** Further properties: the vehicle loops *)

Section VehicleLoops.
Variable SetCurrentGear : Z -> WheeledVehicle -> WheeledVehicle.

Lemma UpdateVehiclesSteering_result (lastDeltaTime : float)
    (vehicles : list WheeledVehicle) :
  forall cache n vehicles' cache' n' evs,
    UpdateVehiclesSteering SetCurrentGear lastDeltaTime vehicles cache n
    = Some (vehicles', cache', n', evs) ->
    cache' = cache ++ active_drives vehicles
    /\ length evs = length (active_drives vehicles)
    /\ Forall (fun e => exists kind drive raw,
                   e = EvSmoothInputs kind drive raw lastDeltaTime) evs
    /\ length vehicles' = length vehicles
    /\ Forall2 (fun v v' => IsActiveInHierarchy v = false -> v' = v)
         vehicles vehicles'.
Proof.
  induction vehicles as [|v rest IH]; intros cache n vehicles' cache' n' evs Hrun.
  - cbn in Hrun. injection Hrun as <- <- <- <-. cbn. rewrite app_nil_r.
    repeat split; constructor.
  - cbn [UpdateVehiclesSteering] in Hrun.
    cbn [active_drives flat_map].
    destruct (IsActiveInHierarchy v) eqn:Hactive; cbn [negb] in Hrun.
    + destruct (_drive v) as [drive|] eqn:Hdrive; [|discriminate].
      destruct (ComputeVehicleInput SetCurrentGear v) as [[throttle brake] v'].
      destruct (UpdateVehiclesSteering SetCurrentGear lastDeltaTime rest
                  (cache ++ [drive]) (wrap32 (n + getNbWheels drive)))
        as [[[[vs c] m] e]|] eqn:Hrest; [|discriminate].
      injection Hrun as <- <- <- <-.
      destruct (IH _ _ _ _ _ _ Hrest) as (Hc & Hl & Hf & Hlen & Hin).
      fold (active_drives rest).
      split; [rewrite Hc, <- app_assoc; reflexivity|].
      split; [cbn [app length]; congruence|].
      split; [constructor; [eauto|exact Hf]|].
      split; [cbn [length]; congruence|].
      constructor; [congruence|exact Hin].
    + destruct (UpdateVehiclesSteering SetCurrentGear lastDeltaTime rest cache n)
        as [[[[vs c] m] e]|] eqn:Hrest; [|discriminate].
      injection Hrun as <- <- <- <-.
      destruct (IH _ _ _ _ _ _ Hrest) as (Hc & Hl & Hf & Hlen & Hin).
      fold (active_drives rest). cbn [app].
      split; [exact Hc|]. split; [exact Hl|]. split; [exact Hf|].
      split; [cbn [length]; congruence|].
      constructor; [reflexivity|exact Hin].
Qed.

Lemma UpdateVehiclesSteering_returns (lastDeltaTime : float)
    (vehicles : list WheeledVehicle) :
  forall cache n,
    (forall v, In v vehicles -> IsActiveInHierarchy v = true -> _drive v <> None)
    <-> UpdateVehiclesSteering SetCurrentGear lastDeltaTime vehicles cache n <> None.
Proof.
  induction vehicles as [|v rest IH]; intros cache n.
  - cbn. split; [discriminate|]. intros _ v [].
  - cbn [UpdateVehiclesSteering].
    destruct (IsActiveInHierarchy v) eqn:Hactive; cbn [negb].
    + destruct (_drive v) as [drive|] eqn:Hdrive.
      * destruct (ComputeVehicleInput SetCurrentGear v) as [[throttle brake] v'].
        specialize (IH (cache ++ [drive]) (wrap32 (n + getNbWheels drive))).
        destruct (UpdateVehiclesSteering SetCurrentGear lastDeltaTime rest
                    (cache ++ [drive]) (wrap32 (n + getNbWheels drive)))
          as [[[[vs c] m] e]|].
        -- split; [discriminate|]. intros _ x [<-|Hin] Hx.
           ++ congruence.
           ++ apply (proj2 IH); [discriminate|exact Hin|exact Hx].
        -- split; [|intros Habs; now contradiction Habs].
           intros Hall. apply (proj1 IH).
           intros x Hin Hx. apply Hall; [now right|exact Hx].
      * split; [|intros Habs; now contradiction Habs].
        intros Hall. exfalso.
        apply (Hall v); [now left|exact Hactive|exact Hdrive].
    + specialize (IH cache n).
      destruct (UpdateVehiclesSteering SetCurrentGear lastDeltaTime rest cache n)
        as [[[[vs c] m] e]|].
      * split; [discriminate|]. intros _ x [<-|Hin] Hx.
        -- congruence.
        -- apply (proj2 IH); [discriminate|exact Hin|exact Hx].
      * split; [|intros Habs; now contradiction Habs].
        intros Hall. apply (proj1 IH).
        intros x Hin Hx. apply Hall; [now right|exact Hx].
Qed.

(** X9.  The steering loop returns exactly when every active vehicle has a
    drive (the ASSERT).  When it returns, the cache holds the drives of the
    active vehicles in registration order, one smoother call was made per
    active vehicle, each with the last simulated delta, the number of
    registered vehicles is unchanged and every inactive vehicle is left
    exactly as it was. *)
Theorem UpdateVehiclesSteering_active_only (lastDeltaTime : float)
    (vehicles : list WheeledVehicle) (cache : list PxVehicleWheels) (n : Z) :
  ((forall v, In v vehicles -> IsActiveInHierarchy v = true -> _drive v <> None)
   <-> UpdateVehiclesSteering SetCurrentGear lastDeltaTime vehicles cache n <> None)
  /\ (forall vehicles' cache' n' evs,
        UpdateVehiclesSteering SetCurrentGear lastDeltaTime vehicles cache n
        = Some (vehicles', cache', n', evs) ->
        cache' = cache ++ active_drives vehicles
        /\ length evs = length (active_drives vehicles)
        /\ Forall (fun e => exists kind drive raw,
                       e = EvSmoothInputs kind drive raw lastDeltaTime) evs
        /\ length vehicles' = length vehicles
        /\ Forall2 (fun v v' => IsActiveInHierarchy v = false -> v' = v)
             vehicles vehicles').
Proof.
  split.
  - apply UpdateVehiclesSteering_returns.
  - apply UpdateVehiclesSteering_result.
Qed.

End VehicleLoops.

Lemma list_set_middle {A} (done : list A) (x y : A) (todo : list A) :
  list_set (length done) y (done ++ x :: todo) = Some (done ++ y :: todo).
Proof.
  induction done as [|d done IH]; cbn; [reflexivity|]. now rewrite IH.
Qed.

Lemma SetupWheelStates_skips_inactive (all inactive : list WheeledVehicle)
    (ii : nat) (n : Z) (perVehicle : list PxVehicleWheelQueryResult) :
  Forall (fun v => IsActiveInHierarchy v = false) inactive ->
  SetupWheelStates all inactive ii n perVehicle = Some perVehicle.
Proof.
  induction 1 as [|u inactive Hu _ IH]; [reflexivity|].
  cbn [SetupWheelStates]. rewrite Hu. exact IH.
Qed.

Lemma SetupWheelStates_in_order (active : list WheeledVehicle) :
  forall (pre inactive : list WheeledVehicle) (n : Z)
         (done todo : list PxVehicleWheelQueryResult),
    Forall (fun v => IsActiveInHierarchy v = true /\ _drive v <> None) active ->
    Forall (fun v => IsActiveInHierarchy v = false) inactive ->
    length done = length pre ->
    length todo = length active ->
    SetupWheelStates (pre ++ active ++ inactive) (active ++ inactive)
      (length pre) n (done ++ todo)
    = Some (done ++ wheel_records active n).
Proof.
  induction active as [|v active IH];
    intros pre inactive n done todo Hact Hinact Hdone Htodo.
  - destruct todo; [|discriminate]. cbn [app wheel_records].
    now apply SetupWheelStates_skips_inactive.
  - destruct todo as [|t todo]; [discriminate|].
    inversion Hact as [|? ? [Hv Hd] Hrest]; subst.
    destruct (_drive v) as [d|] eqn:Hdrive; [|congruence].
    cbn [app SetupWheelStates wheel_records]. rewrite Hv. cbn [negb].
    rewrite nth_error_app2, Nat.sub_diag by lia. cbn [nth_error].
    rewrite Hdrive, <- Hdone, list_set_middle.
    specialize (IH (pre ++ [v]) inactive (wrap32 (n + getNbWheels d))
                  (done ++ [mkPerVehicle (getNbWheels d) n]) todo Hrest Hinact).
    rewrite !length_app in IH. cbn [length] in IH.
    rewrite <- !app_assoc in IH. cbn [app] in IH.
    replace (S (length done)) with (length pre + 1)%nat by lia.
    apply IH; [lia|]. cbn [length] in Htodo. lia.
Qed.

(** X10.  When no inactive vehicle is registered before an active one, the
    loop preparing the per-vehicle records is right: it returns, the record
    of each active vehicle carries that vehicle's own wheel count, and the
    records are laid out one after the other from offset 0. *)
Theorem SetupWheelStates_actives_first (active inactive : list WheeledVehicle)
    (perVehicle : list PxVehicleWheelQueryResult) :
  Forall (fun v => IsActiveInHierarchy v = true /\ _drive v <> None) active ->
  Forall (fun v => IsActiveInHierarchy v = false) inactive ->
  length perVehicle = length active ->
  SetupWheelStates (active ++ inactive) (active ++ inactive) 0 0 perVehicle
  = Some (wheel_records active 0)
  /\ Forall2 (fun v r => option_map getNbWheels (_drive v)
                         = Some (nbWheelQueryResults r))
       active (wheel_records active 0).
Proof.
  intros Hact Hinact Hlen. split.
  - exact (SetupWheelStates_in_order active [] inactive 0 [] perVehicle
             Hact Hinact eq_refl Hlen).
  - clear Hlen. generalize 0. induction Hact as [|v active [_ Hd] _ IH]; intros n.
    + constructor.
    + cbn [wheel_records]. destruct (_drive v) as [d|] eqn:Hdrive; [|congruence].
      constructor; [now rewrite Hdrive|apply IH].
Qed.

Lemma SetupWheelStates_actives_first_witness :
  SetupWheelStates [active_truck; driving_car; parked_truck]
    [active_truck; driving_car; parked_truck] 0 0
    [PxVehicleWheelQueryResult_default; PxVehicleWheelQueryResult_default]
  = Some [mkPerVehicle 6 0; mkPerVehicle 4 6].
Proof.
  refine (proj1 (SetupWheelStates_actives_first [active_truck; driving_car]
                   [parked_truck]
                   [PxVehicleWheelQueryResult_default;
                    PxVehicleWheelQueryResult_default] _ _ eq_refl)).
  - repeat constructor; discriminate.
  - repeat constructor.
Defined.

(** X11.  When the first registered vehicle is inactive and has no drive,
    and some later vehicle is active, the loop preparing the per-vehicle
    records dereferences the null drive of the first vehicle: it crashes,
    whatever the later vehicles are. *)
Theorem SetupWheelStates_null_drive_first (first : WheeledVehicle)
    (rest : list WheeledVehicle) (n : Z)
    (perVehicle : list PxVehicleWheelQueryResult) :
  IsActiveInHierarchy first = false ->
  _drive first = None ->
  Exists (fun v => IsActiveInHierarchy v = true) rest ->
  SetupWheelStates (first :: rest) (first :: rest) 0 n perVehicle = None.
Proof.
  intros Hfirst Hdrive Hsome.
  assert (Hgen : forall all,
             nth_error all 0 = Some first ->
             SetupWheelStates all rest 0 n perVehicle = None).
  { intros all Hnth.
    induction Hsome as [v rest Hv|v rest _ IH].
    - cbn [SetupWheelStates]. rewrite Hv. cbn [negb]. now rewrite Hnth, Hdrive.
    - cbn [SetupWheelStates]. destruct (IsActiveInHierarchy v); cbn [negb].
      + now rewrite Hnth, Hdrive.
      + exact IH. }
  cbn [SetupWheelStates]. rewrite Hfirst. cbn [negb].
  apply Hgen. reflexivity.
Qed.

Lemma SetupWheelStates_null_drive_first_witness :
  SetupWheelStates
    [mkVehicle false None 0%Q 0%Q 0%Q 0%Q false true Drive4W 0%Q 0 0 4; driving_car]
    [mkVehicle false None 0%Q 0%Q 0%Q 0%Q false true Drive4W 0%Q 0 0 4; driving_car]
    0 0 [PxVehicleWheelQueryResult_default]
  = None.
Proof.
  apply SetupWheelStates_null_drive_first; [reflexivity|reflexivity|].
  constructor. reflexivity.
Defined.

(* ------------------------------------------------------------------ *)
(** ** Further properties: the deferred queues *)

Lemma Queues_eta (q : Queues) :
  mkQueues (mNewActors q) (mActions q) (mDeadActors q) (mDeadColliders q)
    (mDeadJoints q) (mDeadMaterials q) (mDeadObjects q) = q.
Proof. now destruct q. Qed.

Lemma Queues_app_empty (q : Queues) : Queues_app q Queues_empty = q.
Proof. unfold Queues_app. cbn. rewrite !app_nil_r. apply Queues_eta. Qed.

Lemma Queues_app_assoc (a b c : Queues) :
  Queues_app (Queues_app a b) c = Queues_app a (Queues_app b c).
Proof. unfold Queues_app. cbn. now rewrite <- !app_assoc. Qed.

Section Deferred.
Context {St : Type} `{PhysicsStepper St}.
Variable SetCurrentGear : Z -> WheeledVehicle -> WheeledVehicle.
Variable E : Engine.
Implicit Types (s : PhysicsScene St).

(** X12.  A flush right after a flush finds nothing to do: it takes and drops
    the lock and changes nothing else, on a null world as well. *)
Theorem FlushRequests_twice s s1 :
  FlushRequests E s = Some (tt, s1) ->
  FlushRequests E s1 = Some (tt, set_trace (trace s1 ++ [EvLock; EvUnlock]) s1).
Proof.
  intros Hrun. rewrite FlushRequests_eq in Hrun.
  destruct (mIsDuringSimulation s) eqn:Hduring; [discriminate|].
  destruct (CPhysX E) eqn:Hphysx; [|discriminate].
  cbn [negb andb] in Hrun.
  destruct (flush_scene (queues s) (mScene s)) as [w1|]; [|discriminate].
  injection Hrun as <-.
  rewrite FlushRequests_eq. unfold flushed at 1 2 3.
  cbn [mIsDuringSimulation queues mScene]. rewrite Hduring, Hphysx.
  cbn [negb andb]. destruct w1 as [w1|]; reflexivity.
Qed.

Lemma deferred_step (op : Op) s :
  deferred op = true ->
  exists s1,
    run_op SetCurrentGear E op s = Some (tt, s1)
    /\ mScene s1 = mScene s
    /\ mIsDuringSimulation s1 = mIsDuringSimulation s
    /\ wheels s1 = wheels s
    /\ queues s1 = Queues_app (queues s) (submitted [op]).
Proof.
  destruct op as [| | |[] a|[] a [] | | | | | | | | | | |]; try discriminate;
    intros _; cbn [run_op];
    (eexists; split;
     [ first [unfold AddActor | unfold AddDynamicActor | unfold RemoveActor
             | unfold RemoveCollider | unfold RemoveJoint | unfold RemoveMaterial
             | unfold RemoveObject];
       repeat run_step; unfold emit, modify, ret; reflexivity
     | run_members; repeat split;
       unfold Queues_app, submitted; cbn; rewrite ?app_nil_r;
       destruct (queues s); reflexivity ]).
Qed.

(** X13.  A sequence made only of deferred operations (the [Remove...]
    operations and [AddActor] from other threads) always returns, never
    touches the world, the mid-step flag or the wheel buffers, and leaves in
    each queue what was there followed by everything submitted to that
    queue, in submission order: nothing is lost, reordered or duplicated. *)
Theorem deferred_operations_accumulate (ops : list Op) s :
  forallb deferred ops = true ->
  exists s',
    run_ops SetCurrentGear E ops s = Some (tt, s')
    /\ mScene s' = mScene s
    /\ mIsDuringSimulation s' = mIsDuringSimulation s
    /\ wheels s' = wheels s
    /\ queues s' = Queues_app (queues s) (submitted ops).
Proof.
  revert s. induction ops as [|op ops IH]; intros s Hall.
  - exists s. cbn. rewrite Queues_app_empty. repeat split.
  - cbn [forallb] in Hall. apply andb_prop in Hall. destruct Hall as [Hop Hall].
    destruct (deferred_step op s Hop) as (s1 & Hrun1 & Hw1 & Hf1 & Hwh1 & Hq1).
    destruct (IH s1 Hall) as (s' & Hrun & Hw & Hf & Hwh & Hq).
    exists s'. split.
    + cbn [run_ops]. unfold bind. rewrite Hrun1. exact Hrun.
    + repeat split; try congruence.
      rewrite Hq, Hq1, Queues_app_assoc. f_equal.
      unfold Queues_app, submitted. cbn [flat_map mNewActors mActions mDeadActors
        mDeadColliders mDeadJoints mDeadMaterials mDeadObjects].
      now rewrite !app_nil_r.
Qed.

End Deferred.

Lemma deferred_operations_accumulate_witness :
  exists s',
    run_ops ForceGear sample_engine
      [OpRemoveCollider 4%nat; OpAddDynamicActor false 9%nat true;
       OpRemoveCollider 5%nat] busy_scene = Some (tt, s')
    /\ mDeadColliders (queues s') = [4%nat; 4%nat; 5%nat]
    /\ mNewActors (queues s') = [1%nat; 2%nat; 9%nat].
Proof.
  destruct (deferred_operations_accumulate ForceGear sample_engine
              [OpRemoveCollider 4%nat; OpAddDynamicActor false 9%nat true;
               OpRemoveCollider 5%nat] busy_scene eq_refl)
    as (s' & Hrun & _ & _ & _ & Hq).
  exists s'. split; [exact Hrun|]. rewrite Hq. split; reflexivity.
Defined.

Lemma FlushRequests_twice_witness :
  exists s1,
    FlushRequests sample_engine busy_scene = Some (tt, s1)
    /\ FlushRequests sample_engine s1
       = Some (tt, set_trace (trace s1 ++ [EvLock; EvUnlock]) s1).
Proof.
  destruct (FlushRequests sample_engine busy_scene) as [[[] s1]|] eqn:Hrun.
  - exists s1. split; [reflexivity|].
    exact (FlushRequests_twice sample_engine busy_scene s1 Hrun).
  - exfalso. vm_compute in Hrun. discriminate Hrun.
Defined.

(* ------------------------------------------------------------------ *)
(** ** Further properties: adding and removing actors *)

Lemma removeActors_removes (dead actors : list PxActor) (a : PxActor) :
  In a dead ->
  ~ In a (filter (fun x => negb (existsb (Nat.eqb x) dead)) actors).
Proof.
  intros Hdead Hin. apply filter_In in Hin. destruct Hin as [_ Hkeep].
  apply negb_true_iff in Hkeep.
  assert (Hex : existsb (Nat.eqb a) dead = true)
    by (apply existsb_exists; exists a; split; [exact Hdead|apply Nat.eqb_refl]).
  congruence.
Qed.


Section Actors.
Context {St : Type} `{PhysicsStepper St}.
Variable SetCurrentGear : Z -> WheeledVehicle -> WheeledVehicle.
Variable E : Engine.
Implicit Types (s : PhysicsScene St).

(** X14.  An actor that is both added and removed before a flush is not in
    the world after the flush, whichever of the two calls came first and
    whichever thread added it: the flush always applies removals after
    additions. *)
Theorem added_and_removed_actor_is_gone s (w : PxScene) (a : PxActor)
    (inMain addFirst : bool) :
  mScene s = Some w ->
  mIsDuringSimulation s = false ->
  CPhysX E = true ->
  exists s' w',
    run_ops SetCurrentGear E
      ((if addFirst then [OpAddActor inMain a; OpRemoveActor a]
        else [OpRemoveActor a; OpAddActor inMain a]) ++ [OpFlushRequests]) s
    = Some (tt, s')
    /\ mScene s' = Some w'
    /\ ~ In a (sceneActors w')
    /\ queues s' = Queues_empty.
Proof.
  intros Hw Hduring Hphysx.
  assert (Hflush : forall s1 w1,
             mScene s1 = Some w1 -> mIsDuringSimulation s1 = false ->
             In a (mDeadActors (queues s1)) ->
             exists s' w',
               FlushRequests E s1 = Some (tt, s')
               /\ mScene s' = Some w' /\ ~ In a (sceneActors w')
               /\ queues s' = Queues_empty).
  { intros s1 w1 Hw1 Hd1 Hin.
    eexists. eexists. split; [apply (FlushRequests_live E s1 w1 Hd1 Hphysx Hw1)|].
    split; [reflexivity|]. split; [|reflexivity].
    unfold flush_world.
    destruct (mDeadActors (queues s1)) as [|d dead] eqn:Hdead; [contradiction|].
    cbn [HasItems PxScene_removeActors sceneActors].
    now apply removeActors_removes. }
  assert (Hpre : exists s1 w1,
             run_ops SetCurrentGear E
               ((if addFirst then [OpAddActor inMain a; OpRemoveActor a]
                 else [OpRemoveActor a; OpAddActor inMain a]) ++ [OpFlushRequests]) s
             = bind (FlushRequests E) (fun _ => ret tt) s1
             /\ mScene s1 = Some w1
             /\ mIsDuringSimulation s1 = false
             /\ In a (mDeadActors (queues s1))).
  { destruct addFirst, inMain; cbn [app run_ops run_op];
      unfold AddActor, RemoveActor; repeat run_step;
      (eexists; eexists; split; [reflexivity|]);
      run_members;
      (split; [first [reflexivity | exact Hw]|]);
      (split; [exact Hduring|]);
      apply in_or_app; right; now left. }
  destruct Hpre as (s1 & w1 & Hrun & Hw1 & Hd1 & Hin).
  destruct (Hflush s1 w1 Hw1 Hd1 Hin) as (s' & w' & Hrun' & Hres).
  exists s', w'. split; [|exact Hres].
  rewrite Hrun. unfold bind. rewrite Hrun'. reflexivity.
Qed.


End Actors.

Lemma added_and_removed_actor_is_gone_witness :
  exists s' w',
    run_ops ForceGear sample_engine
      [OpRemoveActor 9%nat; OpAddActor true 9%nat; OpFlushRequests] live_scene
    = Some (tt, s')
    /\ mScene s' = Some w' /\ ~ In 9%nat (sceneActors w').
Proof.
  destruct (added_and_removed_actor_is_gone ForceGear sample_engine live_scene
              (mkPxScene [] (mkVector3 0%Q (-981 # 1)%Q 0%Q) 67 (200 # 1)%Q [] [])
              9%nat true false eq_refl eq_refl eq_refl)
    as (s' & w' & Hrun & Hw & Hnot & _).
  exists s', w'. repeat split; assumption.
Defined.


(* ------------------------------------------------------------------ *)
(** ** Further properties: calling discipline *)

Section Discipline.
Context {St : Type} `{PhysicsStepper St}.
Variable SetCurrentGear : Z -> WheeledVehicle -> WheeledVehicle.
Variable E : Engine.
Implicit Types (s : PhysicsScene St).

(** X16.  On a scene without a world the three setters do nothing at all,
    but not every call is guarded: [AddActor] from the owning thread,
    [UnlinkActor], and a flush (hence a [Simulate]) while an actor is queued
    for addition or removal dereference the null world and crash. *)
Theorem null_world_guards s (a : PxActor) (g : Vector3) (b : bool) (v dt : float) :
  mScene s = None ->
  SetGravity g s = Some (tt, s)
  /\ SetEnableCCD b s = Some (tt, s)
  /\ SetBounceThresholdVelocity v s = Some (tt, s)
  /\ AddActor true a s = None
  /\ AddDynamicActor true a b s = None
  /\ UnlinkActor true a s = None
  /\ (mNewActors (queues s) <> [] \/ mDeadActors (queues s) <> [] ->
      FlushRequests E s = None /\ Simulate E true dt s = None).
Proof.
  intros Hnull.
  unfold SetGravity, SetEnableCCD, SetBounceThresholdVelocity. rewrite Hnull.
  repeat (split; [reflexivity|]).
  split; [unfold AddActor; repeat run_step; reflexivity|].
  split; [unfold AddDynamicActor; repeat run_step; reflexivity|].
  split; [unfold UnlinkActor; cbn [ASSERT]; repeat run_step; reflexivity|].
  intros Hqueued.
  assert (Hcrash : flush_scene (queues s) (mScene s) = None).
  { unfold flush_scene. rewrite Hnull.
    destruct (mNewActors (queues s)), (mDeadActors (queues s));
      cbn [HasItems orb]; try reflexivity.
    destruct Hqueued; congruence. }
  rewrite FlushRequests_eq, Simulate_eq, Hcrash.
  split; destruct (_ && _); reflexivity.
Qed.

(** X17.  A step in flight excludes a second one.  After any returning
    [Simulate], a further [Simulate] or [FlushRequests] crashes on its
    assertion, whatever the thread and the delta, and so does a
    [CollectResults] called off the owning thread; [Simulate] off the owning
    thread crashes from any scene. *)
Theorem Simulate_not_reentrant (inMain : bool) (dt : float) s s1 :
  Simulate E inMain dt s = Some (tt, s1) ->
  (forall inMain' dt', Simulate E inMain' dt' s1 = None)
  /\ FlushRequests E s1 = None
  /\ CollectResults SetCurrentGear E false s1 = None
  /\ (forall s0 dt', Simulate E false dt' s0 = None).
Proof.
  intros Hrun.
  assert (Hflag : mIsDuringSimulation s1 = true).
  { rewrite Simulate_eq in Hrun.
    destruct (inMain && negb (mIsDuringSimulation s) && CPhysX E); [|discriminate].
    destruct (flush_scene (queues s) (mScene s)) as [w1|]; [|discriminate].
    cbv zeta in Hrun.
    destruct (advance _ _ _) as [[[dispatched st2] w2]|]; [|discriminate].
    injection Hrun as <-. reflexivity. }
  split; [|split; [|split]].
  - intros inMain' dt'. rewrite Simulate_eq, Hflag. cbn [negb].
    now rewrite andb_false_r.
  - now rewrite FlushRequests_eq, Hflag.
  - unfold CollectResults. rewrite bind_gets, Hflag. reflexivity.
  - intros s0 dt'. now rewrite Simulate_eq.
Qed.

Lemma CollectResults_idle (inMain : bool) s :
  mIsDuringSimulation s = false ->
  CollectResults SetCurrentGear E inMain s = Some (tt, s).
Proof.
  intros Hidle. unfold CollectResults. rewrite bind_gets, Hidle. reflexivity.
Qed.

(** X18.  [CollectResults] is idempotent: once a call has returned, a second
    call from any thread returns the same scene, with nothing waited for and
    nothing published.  In particular a call on a scene that is not mid-step
    is a no-op, also off the owning thread and without the backend. *)
Theorem CollectResults_idempotent (inMain : bool) s s1 :
  CollectResults SetCurrentGear E inMain s = Some (tt, s1) ->
  (forall inMain', CollectResults SetCurrentGear E inMain' s1 = Some (tt, s1))
  /\ (mIsDuringSimulation s = false -> s1 = s).
Proof.
  intros Hrun.
  destruct (post_Some _ _ _ _ _ (CollectResults_post SetCurrentGear E inMain s) Hrun)
    as [Hidle Hbusy].
  split; [|exact Hidle].
  intros inMain'. apply CollectResults_idle.
  destruct (mIsDuringSimulation s) eqn:Hduring.
  - exact (proj1 (Hbusy eq_refl)).
  - rewrite (Hidle eq_refl). exact Hduring.
Qed.

End Discipline.

Lemma null_world_guards_witness :
  AddActor true 9%nat failed_scene = None
  /\ SetGravity Vector3_Zero failed_scene = Some (tt, failed_scene).
Proof.
  destruct (null_world_guards sample_engine failed_scene 9%nat Vector3_Zero
              true 0%Q 0%Q eq_refl)
    as (Hset & _ & _ & Hadd & _).
  split; assumption.
Defined.

Lemma Simulate_not_reentrant_witness :
  FlushRequests sample_engine stepped_scene = None
  /\ Simulate sample_engine true (1 # 1)%Q stepped_scene = None.
Proof.
  assert (Hrun : Simulate sample_engine true (1 # 1)%Q live_scene
                 = Some (tt, stepped_scene))
    by (vm_compute; reflexivity).
  destruct (Simulate_not_reentrant ForceGear sample_engine true (1 # 1)%Q
              live_scene stepped_scene Hrun) as (Hsim & Hflush & _).
  split; [exact Hflush|apply Hsim].
Defined.

Lemma CollectResults_idempotent_witness :
  CollectResults ForceGear sample_engine false live_scene = Some (tt, live_scene).
Proof.
  exact (proj1 (CollectResults_idempotent ForceGear sample_engine true
                  live_scene live_scene eq_refl) false).
Defined.

(* ------------------------------------------------------------------ *)
(** ** Further properties: what CollectResults calls *)

Lemma list_set_length {A} (i : nat) (x : A) (l l' : list A) :
  list_set i x l = Some l' -> length l' = length l.
Proof.
  revert l l'. induction i as [|i IH]; intros [|h t] l'; cbn; try discriminate.
  - intros [= <-]. reflexivity.
  - destruct (list_set i x t) as [t'|] eqn:Ht; [|discriminate].
    intros [= <-]. cbn. f_equal. eapply IH. exact Ht.
Qed.

Lemma SetupWheelStates_length (all rest : list WheeledVehicle) :
  forall ii n perVehicle results,
    SetupWheelStates all rest ii n perVehicle = Some results ->
    length results = length perVehicle.
Proof.
  induction rest as [|v rest IH]; intros ii n perVehicle results; cbn.
  - intros [= <-]. reflexivity.
  - destruct (IsActiveInHierarchy v); cbn [negb]; [|apply IH].
    destruct (nth_error all ii) as [other|]; [|discriminate].
    destruct (_drive other) as [drive|]; [|discriminate].
    destruct (list_set ii _ perVehicle) as [pv'|] eqn:Hset; [|discriminate].
    intros Hrun. apply IH in Hrun. apply list_set_length in Hset. congruence.
Qed.

Lemma SynchronizeState_events (cache : list PxVehicleWheels)
    (perVehicle : list PxVehicleWheelQueryResult) (rest : list WheeledVehicle) :
  forall i ii evs,
    SynchronizeState cache perVehicle rest i ii = Some evs ->
    Forall (fun e => is_sync_event e = true) evs.
Proof.
  induction rest as [|v rest IH]; intros i ii evs; cbn.
  - intros [= <-]. constructor.
  - destruct (IsActiveInHierarchy v); cbn [negb]; [|apply IH].
    destruct (nth_error cache ii) as [drive|]; [|discriminate].
    destruct (nth_error perVehicle ii) as [r|]; [|discriminate].
    destruct (SynchronizeState cache perVehicle rest (S i) (S ii)) as [evs'|] eqn:Hrest;
      [|discriminate].
    intros [= <-]. constructor; [reflexivity|]. eapply IH. exact Hrest.
Qed.

Lemma smooth_events_collect (lastDeltaTime : float) (evs : list Event) :
  Forall (fun e => exists kind drive raw,
              e = EvSmoothInputs kind drive raw lastDeltaTime) evs ->
  Forall (fun e => is_smooth_event e = true) evs.
Proof.
  intros Hall. eapply Forall_impl; [|exact Hall].
  intros e (kind & drive & raw & ->). reflexivity.
Qed.

Lemma Resize_Some_Count {A} (dflt : A) (size : Z) (a a' : Array A) :
  Resize dflt size a = Some a' -> Count a' = size.
Proof. apply Resize_Count. Qed.

Section Collecting.
Context {St : Type} `{PhysicsStepper St}.
Variable SetCurrentGear : Z -> WheeledVehicle -> WheeledVehicle.
Variable E : Engine.
Implicit Types (s : PhysicsScene St).

Lemma VehiclePipeline_result s :
  post (VehiclePipeline SetCurrentGear) s (fun _ s' => pipeline_result s s').
Proof.
  destruct s as [nm sc cd cm au du ld sm stp q wh tr ud].
  destruct wh as [vs ca qr hr pw pv bq tf].
  unfold VehiclePipeline. wp.
  all: unfold pipeline_result; wheel_members.
  all: match goal with
       | Hloop : UpdateVehiclesSteering _ _ _ _ _ = Some _ |- _ =>
           pose proof (UpdateVehiclesSteering_count _ _ _ _ _ _ _ _ _ Hloop) as Hn;
           destruct (UpdateVehiclesSteering_result _ _ _ _ _ _ _ _ _ Hloop)
             as (Hcache & _ & Hsmooth & _ & _);
           apply smooth_events_collect in Hsmooth;
           cbn [app] in Hcache; subst
       end.
  all: repeat match goal with
         | Hr : Resize _ _ _ = Some _ |- _ =>
             pose proof (Resize_Some_Count _ _ _ _ Hr); clear Hr
         | Hs : SetupWheelStates _ _ _ _ _ = Some _ |- _ =>
             apply SetupWheelStates_length in Hs
         | Hs : SynchronizeState _ _ _ _ _ = Some _ |- _ =>
             apply SynchronizeState_events in Hs
         | Hg : (_ >? _) = _ |- _ =>
             first [apply Z.gtb_lt in Hg | rewrite Z.gtb_ltb in Hg; apply Z.ltb_ge in Hg]
         end.
  all: repeat (split; [reflexivity|]).
  all: split;
    [ match goal with
      | Hl : length _ = length (items ?a), Hc : Count ?a = _ |- _ =>
          unfold Count in Hc |- *; cbn [items]; rewrite Hl; exact Hc
      end |].
  all: split; [assumption|].
  all: split; [lia|].
  all: split;
    [ first [ intros _ size [= <-]; split; assumption
            | intros Hfits; exact Hfits ] |].
  all: rewrite <- !app_assoc; eexists; (split; [reflexivity|]).
  all: split;
    [ repeat first [ apply Forall_app; split | apply Forall_cons; [reflexivity|]
                   | apply Forall_nil ];
      (eapply Forall_impl; [|eassumption]); intros [] He; try discriminate He;
      reflexivity |].
  all: split; intros; repeat (rewrite in_app_iff in * || cbn [In] in * );
    repeat match goal with
      | Hor : _ \/ _ |- _ => destruct Hor
      | Hf : False |- _ => contradiction
      | Heq : _ = _ :> Event |- _ => first [discriminate Heq | injection Heq as <- <- <- <- | injection Heq as <- <-]
      | Hin : In ?e ?l, Hall : Forall _ ?l |- _ =>
          rewrite Forall_forall in Hall; apply Hall in Hin; discriminate Hin
      end;
    repeat split; cbn [option_map]; congruence.
Qed.

End Collecting.

Lemma Forall_collect_smooth (evs : list Event) :
  Forall (fun e => is_smooth_event e = true) evs ->
  Forall (fun e => collect_event e = true) evs.
Proof.
  intros Hall. eapply Forall_impl; [|exact Hall].
  intros [] He; try discriminate He; reflexivity.
Qed.

Lemma Forall_transform_events (actors : list PxActor) :
  Forall (fun e => collect_event e = true) (map EvOnActiveTransformChanged actors).
Proof. apply Forall_forall. intros e Hin. apply in_map_iff in Hin as (a & <- & _). reflexivity. Qed.

Lemma In_transform_events (actors : list PxActor) (e : Event) :
  In e (map EvOnActiveTransformChanged actors) ->
  exists a, e = EvOnActiveTransformChanged a.
Proof. intros Hin. apply in_map_iff in Hin as (a & <- & _). now exists a. Qed.

Section Results.
Context {St : Type} `{PhysicsStepper St}.
Variable SetCurrentGear : Z -> WheeledVehicle -> WheeledVehicle.
Variable E : Engine.
Implicit Types (s : PhysicsScene St).

(** One whole [CollectResults] on a scene that is mid-step. *)
Lemma CollectResults_result (inMain : bool) s :
  mIsDuringSimulation s = true ->
  post (CollectResults SetCurrentGear E inMain) s (fun _ s' =>
    let vehicles := mWheelVehicles (wheels s) in
    is_some (mStepper s) = true
    /\ queues s' = queues s
    /\ mLastDeltaTime s' = mLastDeltaTime s
    /\ mScratchMemory s' = mScratchMemory s
    /\ is_some (mStepper s') = true
    /\ (batch_query_fits (wheels s) -> batch_query_fits (wheels s'))
    /\ exists evs,
         trace s' = trace s ++ evs
         /\ Forall (fun e => collect_event e = true) evs
         /\ (forall c nb, In (EvSuspensionRaycasts c nb) evs ->
               c = active_drives vehicles
               /\ nb = Count (mWheelQueryResults (wheels s'))
               /\ ActiveWheelsCount vehicles 0 <= nb)
         /\ (forall dt g c r, In (EvVehicleUpdates dt g c r) evs ->
               dt = mLastDeltaTime s
               /\ c = active_drives vehicles
               /\ r = items (mWheelVehiclesResultsPerVehicle (wheels s'))
               /\ length r = length c)).
Proof.
  intros Hduring.
  destruct s as [nm sc cd cm au du ld sm stp q wh tr ud].
  destruct wh as [vs ca qr hr pw pv bq tf].
  cbn in Hduring. subst du.
  unfold CollectResults.
  repeat lazymatch goal with
         | |- post (bind (when _ (VehiclePipeline _)) _) _ _ => fail
         | _ => wp_step
         end.
  apply post_bind. apply post_when; intros Hvehicles.
  - eapply post_consequence; [apply VehiclePipeline_result|].
    intros [] s' Hres. unfold pipeline_result in Hres. wheel_members.
    destruct Hres as (Hsc & Hq & Hld & Hsm & Hstp & Hud & Hcache & Hpv & Hpw & Hle
                      & Hfit & evs & Htrace & Hall & Hray & Hupd).
    destruct s' as [nm' sc' cd' cm' au' du' ld' sm' stp' q' wh' tr' ud'].
    destruct wh' as [vs' ca' qr' hr' pw' pv' bq' tf'].
    wheel_members. subst sc' q' ld' sm' stp' tr'.
    wp. split; [subst stp; reflexivity|].
    repeat (split; [reflexivity|]). split; [exact Hfit|].
    match goal with
    | |- context [sceneActiveActors ?w] =>
        exists (EvWait :: evs ++ map EvOnActiveTransformChanged (sceneActiveActors w)
                ++ [EvEventsCollectResults; EvSendTriggerEvents;
                    EvSendCollisionEvents; EvSendJointEvents])
    end.
    split; [cbn [app]; rewrite <- !app_assoc; reflexivity|].
    split.
    { apply Forall_cons; [reflexivity|]. apply Forall_app. split; [exact Hall|].
      apply Forall_app. split; [apply Forall_transform_events|].
      repeat (apply Forall_cons; [reflexivity|]). apply Forall_nil. }
    split.
    + intros c nb [Hin|Hin]; [discriminate Hin|].
      apply in_app_iff in Hin as [Hin|Hin].
      * destruct (Hray c nb Hin) as [-> ->]. repeat split. exact Hle.
      * apply in_app_iff in Hin as [Hin|Hin].
        -- apply In_transform_events in Hin as [a Ha]. discriminate Ha.
        -- cbn [In] in Hin. repeat destruct Hin as [Hin|Hin]; try discriminate Hin.
           contradiction.
    + intros dt g c r [Hin|Hin]; [discriminate Hin|].
      apply in_app_iff in Hin as [Hin|Hin].
      * destruct (Hupd dt g c r Hin) as (-> & -> & -> & _). repeat split.
        unfold Count in Hpv. lia.
      * apply in_app_iff in Hin as [Hin|Hin].
        -- apply In_transform_events in Hin as [a Ha]. discriminate Ha.
        -- cbn [In] in Hin. repeat destruct Hin as [Hin|Hin]; try discriminate Hin.
           contradiction.
  - wp. split; [subst stp; reflexivity|].
    repeat (split; [reflexivity|]). split; [intros Hfit; exact Hfit|].
    match goal with
    | |- context [sceneActiveActors ?w] =>
        exists (EvWait :: map EvOnActiveTransformChanged (sceneActiveActors w)
                ++ [EvEventsCollectResults; EvSendTriggerEvents;
                    EvSendCollisionEvents; EvSendJointEvents])
    end.
    split; [cbn [app]; rewrite <- !app_assoc; reflexivity|].
    split.
    { apply Forall_cons; [reflexivity|].
      apply Forall_app. split; [apply Forall_transform_events|].
      repeat (apply Forall_cons; [reflexivity|]). apply Forall_nil. }
    split.
    + intros c nb [Hin|Hin]; [discriminate Hin|].
      apply in_app_iff in Hin as [Hin|Hin].
      * apply In_transform_events in Hin as [a Ha]. discriminate Ha.
      * cbn [In] in Hin. repeat destruct Hin as [Hin|Hin]; try discriminate Hin.
        contradiction.
    + intros dt g c r [Hin|Hin]; [discriminate Hin|].
      apply in_app_iff in Hin as [Hin|Hin].
      * apply In_transform_events in Hin as [a Ha]. discriminate Ha.
      * cbn [In] in Hin. repeat destruct Hin as [Hin|Hin]; try discriminate Hin.
        contradiction.
Qed.

(** X19.  Whatever the scene, a [CollectResults] that returns has left the
    pending queues, the stored delta time and the scratch block as they
    were, and every call it made is one of: the wait on the stepper, the
    vehicle calls (input smoothing, batch query release and creation, tire
    friction setup, suspension raycasts, vehicle updates, wheel state
    synchronisation), the transform notifications and the four event
    publications.  It never takes the scene lock, never adds, removes or
    releases an object and never advances the stepper. *)
Theorem CollectResults_only_collects (inMain : bool) s s' :
  CollectResults SetCurrentGear E inMain s = Some (tt, s') ->
  queues s' = queues s
  /\ mLastDeltaTime s' = mLastDeltaTime s
  /\ mScratchMemory s' = mScratchMemory s
  /\ exists evs,
       trace s' = trace s ++ evs
       /\ Forall (fun e => collect_event e = true) evs.
Proof.
  intros Hrun. destruct (mIsDuringSimulation s) eqn:Hduring.
  - destruct (post_Some _ _ _ _ _ (CollectResults_result inMain s Hduring) Hrun)
      as (_ & Hq & Hld & Hsm & _ & _ & evs & Htrace & Hall & _).
    repeat (split; [assumption|]). exists evs. split; assumption.
  - rewrite (CollectResults_idle SetCurrentGear E inMain s Hduring) in Hrun.
    injection Hrun as <-. repeat (split; [reflexivity|]).
    exists []. split; [symmetry; apply app_nil_r|apply Forall_nil].
Qed.

(** X20.  The arguments of the vehicle calls of one [CollectResults].  Every
    suspension raycast is issued for the drives of the vehicles active in
    their hierarchy, in registration order, with a result buffer count equal
    to the size of the query buffer, which is at least the wheel total of
    those vehicles.  Every vehicle update gets the delta time stored by the
    simulation step, the same drives, and the whole per-vehicle result
    array, which has one record per drive. *)
Theorem CollectResults_vehicle_calls (inMain : bool) s s' (evs : list Event) :
  CollectResults SetCurrentGear E inMain s = Some (tt, s') ->
  trace s' = trace s ++ evs ->
  let vehicles := mWheelVehicles (wheels s) in
  (forall c nb, In (EvSuspensionRaycasts c nb) evs ->
     c = active_drives vehicles
     /\ nb = Count (mWheelQueryResults (wheels s'))
     /\ ActiveWheelsCount vehicles 0 <= nb)
  /\ (forall dt g c r, In (EvVehicleUpdates dt g c r) evs ->
        dt = mLastDeltaTime s
        /\ c = active_drives vehicles
        /\ r = items (mWheelVehiclesResultsPerVehicle (wheels s'))
        /\ length r = length c).
Proof.
  intros Hrun Htrace vehicles. destruct (mIsDuringSimulation s) eqn:Hduring.
  - destruct (post_Some _ _ _ _ _ (CollectResults_result inMain s Hduring) Hrun)
      as (_ & _ & _ & _ & _ & _ & evs' & Htrace' & _ & Hray & Hupd).
    rewrite Htrace' in Htrace. apply app_inv_head in Htrace. subst evs'.
    split; assumption.
  - rewrite (CollectResults_idle SetCurrentGear E inMain s Hduring) in Hrun.
    injection Hrun as <-.
    rewrite <- (app_nil_r (trace s)) in Htrace at 1.
    apply app_inv_head in Htrace. subst evs.
    split; intros; contradiction.
Qed.

End Results.

Lemma CollectResults_only_collects_witness :
  exists s s',
    run_ops ForceGear sample_engine
      [OpSetVehicles [active_truck; driving_car]; OpSimulate true (1 # 60)%Q]
      live_scene = Some (tt, s)
    /\ CollectResults ForceGear sample_engine true s = Some (tt, s')
    /\ queues s' = queues s
    /\ exists evs, trace s' = trace s ++ evs
                   /\ Forall (fun e => collect_event e = true) evs.
Proof.
  destruct (run_ops ForceGear sample_engine
              [OpSetVehicles [active_truck; driving_car]; OpSimulate true (1 # 60)%Q]
              live_scene) as [[[] s]|] eqn:Hops.
  - destruct (CollectResults ForceGear sample_engine true s) as [[[] s']|] eqn:Hrun.
    + exists s, s'. split; [reflexivity|]. split; [exact Hrun|].
      destruct (CollectResults_only_collects ForceGear sample_engine true s s' Hrun)
        as (Hq & _ & _ & Hevs).
      split; assumption.
    + exfalso. vm_compute in Hops. injection Hops as <-.
      vm_compute in Hrun. discriminate Hrun.
  - exfalso. vm_compute in Hops. discriminate Hops.
Defined.

Lemma CollectResults_vehicle_calls_witness :
  exists s s',
    run_ops ForceGear sample_engine
      [OpSetVehicles [parked_truck; driving_car]; OpSimulate true (1 # 60)%Q]
      live_scene = Some (tt, s)
    /\ CollectResults ForceGear sample_engine true s = Some (tt, s')
    /\ forall c nb, In (EvSuspensionRaycasts c nb) (skipn (length (trace s)) (trace s')) ->
                    c = [mkDrive 8%nat 4] /\ 4 <= nb.
Proof.
  destruct (run_ops ForceGear sample_engine
              [OpSetVehicles [parked_truck; driving_car]; OpSimulate true (1 # 60)%Q]
              live_scene) as [[[] s]|] eqn:Hops.
  - destruct (CollectResults ForceGear sample_engine true s) as [[[] s']|] eqn:Hrun.
    + exists s, s'. split; [reflexivity|]. split; [exact Hrun|].
      assert (Htrace : trace s' = trace s ++ skipn (length (trace s)) (trace s')).
      { vm_compute in Hops. injection Hops as <-.
        vm_compute in Hrun. injection Hrun as <-. reflexivity. }
      assert (Hvehicles : mWheelVehicles (wheels s) = [parked_truck; driving_car]).
      { vm_compute in Hops. injection Hops as <-. reflexivity. }
      destruct (CollectResults_vehicle_calls ForceGear sample_engine true s s' _
                  Hrun Htrace) as [Hray _].
      intros c nb Hin. destruct (Hray c nb Hin) as (Hc & _ & Hle).
      rewrite Hvehicles in Hc, Hle. split; [exact Hc|exact Hle].
    + exfalso. vm_compute in Hops. injection Hops as <-.
      vm_compute in Hrun. discriminate Hrun.
  - exfalso. vm_compute in Hops. discriminate Hops.
Defined.

(* ------------------------------------------------------------------ *)
(** ** Further properties: calls made along any sequence of operations *)

Lemma filter_none {A} (f : A -> bool) (l : list A) :
  Forall (fun x => f x = false) l -> filter f l = [].
Proof.
  induction 1 as [|x l Hx _ IH]; [reflexivity|]. cbn. now rewrite Hx.
Qed.

Lemma filter_map_none {A B} (f : B -> bool) (g : A -> B) (l : list A) :
  (forall x, f (g x) = false) -> filter f (map g l) = [].
Proof.
  intros Hg. apply filter_none. apply Forall_forall.
  intros y Hin. apply in_map_iff in Hin as (x & <- & _). apply Hg.
Qed.

Lemma filter_flat_map_none {A B} (f : B -> bool) (g : A -> list B) (l : list A) :
  (forall x, filter f (g x) = []) -> filter f (flat_map g l) = [].
Proof.
  intros Hg. induction l as [|x l IH]; [reflexivity|].
  cbn [flat_map]. now rewrite filter_app, Hg, IH.
Qed.

(** The events of a flush, seen through a filter that lets none of the
    flush calls proper through. *)
Lemma flush_events_filter (f : Event -> bool) (q : Queues) :
  (forall a, f (EvAddActors a) = false) ->
  (forall a, f (EvPutToSleep a) = false) ->
  (forall a b, f (EvRemoveActors a b) = false) ->
  (forall a, f (EvActorRelease a) = false) ->
  (forall c, f (EvOnColliderRemoved c) = false) ->
  (forall j, f (EvOnJointRemoved j) = false) ->
  (forall m, f (EvMaterialUnlink m) = false) ->
  (forall m, f (EvMaterialRelease m) = false) ->
  (forall o, f (EvObjectRelease o) = false) ->
  filter f (flush_events q) = filter f [EvLock] ++ filter f [EvUnlock].
Proof.
  intros Hadd Hsleep Hrem Hrel Hcol Hjoint Hunl Hmat Hobj.
  unfold flush_events. rewrite !filter_app.
  rewrite (filter_map_none f (fun action => EvPutToSleep (Actor action)))
    by (intros; apply Hsleep).
  rewrite (filter_map_none f EvOnColliderRemoved) by assumption.
  rewrite (filter_map_none f EvOnJointRemoved) by assumption.
  rewrite (filter_map_none f EvObjectRelease) by assumption.
  rewrite filter_flat_map_none by (intros m; cbn; now rewrite Hunl, Hmat).
  destruct (HasItems (mNewActors q)), (HasItems (mDeadActors q)); cbn [filter app];
    rewrite ?Hadd, ?Hrem, ?filter_map_none by assumption; reflexivity.
Qed.

Lemma lock_pairs_app (j k : nat) :
  lock_pairs j ++ lock_pairs k = lock_pairs (j + k).
Proof. induction j as [|j IH]; [reflexivity|]. cbn. now rewrite IH. Qed.

Lemma collect_events_filter (f : Event -> bool) (evs : list Event) :
  (forall e, collect_event e = true -> f e = false) ->
  Forall (fun e => collect_event e = true) evs -> filter f evs = [].
Proof.
  intros Hf Hall. apply filter_none. eapply Forall_impl; [|exact Hall]. exact Hf.
Qed.

(** An operation with a literal list of calls holding [k] lock pairs, and
    one with no call at all. *)
Ltac some_calls k :=
  (split; [auto|]); rewrite <- ?app_assoc; eexists; (split; [reflexivity|]);
  (split; [reflexivity|split; [reflexivity|now exists k]]).

Ltac no_calls :=
  (split; [auto|]); exists []; (split; [symmetry; apply app_nil_r|]);
  (split; [reflexivity|split; [reflexivity|now exists 0%nat]]).

Section Calls.
Context {St : Type} `{PhysicsStepper St}.
Variable SetCurrentGear : Z -> WheeledVehicle -> WheeledVehicle.
Variable E : Engine.
Implicit Types (s : PhysicsScene St).

Lemma op_calls_refl s : op_calls s s.
Proof.
  split; [auto|]. exists []. split; [symmetry; apply app_nil_r|].
  split; [reflexivity|]. split; [reflexivity|]. now exists 0%nat.
Qed.

Lemma op_calls_trans s1 s2 s3 : op_calls s1 s2 -> op_calls s2 s3 -> op_calls s1 s3.
Proof.
  intros (Hfit1 & evs1 & Ht1 & Hsc1 & Hst1 & k1 & Hk1)
         (Hfit2 & evs2 & Ht2 & Hsc2 & Hst2 & k2 & Hk2).
  split; [auto|]. exists (evs1 ++ evs2).
  split; [now rewrite Ht2, Ht1, app_assoc|].
  rewrite !filter_app, !length_app.
  split; [lia|]. split; [lia|].
  exists (k1 + k2)%nat. now rewrite Hk1, Hk2, lock_pairs_app.
Qed.

Lemma run_op_calls (op : Op) s :
  post (run_op SetCurrentGear E op) s (fun _ s' => op_calls s s').
Proof.
  destruct op; cbn [run_op].
  - (* Simulate *)
    unfold post. rewrite Simulate_eq.
    destruct (inMain && negb (mIsDuringSimulation s) && CPhysX E); [|exact I].
    destruct (flush_scene (queues s) (mScene s)) as [w1|]; [|exact I].
    cbv zeta.
    destruct (advance _ _ _) as [[[dispatched st2] w2]|]; [|exact I].
    split; [auto|]. eexists. split; [reflexivity|].
    unfold prepare_events, scratch_missing, stepper_missing.
    cbn [simulated mScratchMemory mStepper].
    rewrite !filter_app, !length_app.
    rewrite !flush_events_filter by reflexivity.
    destruct (mScratchMemory s), (mStepper s), dispatched,
      (EnableSubstepping (Settings E)); cbn.
    all: split; [reflexivity|split; [reflexivity|now exists 1%nat]].
  - (* CollectResults *)
    destruct (mIsDuringSimulation s) eqn:Hduring.
    + eapply post_consequence; [apply (CollectResults_result _ _ _ _ Hduring)|].
      intros [] s' (Hst & _ & _ & Hsm & Hst' & Hfit & evs & Htrace & Hall & _).
      split; [exact Hfit|]. exists evs. split; [exact Htrace|].
      rewrite !(collect_events_filter _ evs) by
        (try exact Hall; intros [] He; try discriminate He; reflexivity).
      unfold scratch_missing, stepper_missing. rewrite Hsm.
      destruct (mStepper s); [|discriminate Hst].
      destruct (mStepper s'); [|discriminate Hst'].
      split; [reflexivity|]. split; [reflexivity|]. now exists 0%nat.
    + unfold post. rewrite CollectResults_idle by exact Hduring.
      apply op_calls_refl.
  - (* FlushRequests *)
    unfold post. rewrite FlushRequests_eq.
    destruct (negb (mIsDuringSimulation s) && CPhysX E); [|exact I].
    destruct (flush_scene (queues s) (mScene s)) as [w1|]; [|exact I].
    split; [auto|]. eexists. split; [reflexivity|].
    rewrite !flush_events_filter by reflexivity.
    split; [reflexivity|]. split; [reflexivity|]. now exists 1%nat.
  - destruct s, inMain; unfold AddActor; wp; some_calls 1%nat.
  - destruct s, inMain, putToSleep; unfold AddDynamicActor; wp; some_calls 1%nat.
  - destruct s; unfold UnlinkActor; wp; some_calls 0%nat.
  - destruct s; unfold RemoveActor; wp; some_calls 1%nat.
  - destruct s; unfold RemoveCollider; wp; some_calls 1%nat.
  - destruct s; unfold RemoveJoint; wp; some_calls 1%nat.
  - destruct s; unfold RemoveMaterial; wp; some_calls 1%nat.
  - destruct s; unfold RemoveObject; wp; some_calls 1%nat.
  - destruct s; unfold SetAutoSimulation; wp; no_calls.
  - unfold post, SetGravity.
    destruct s as [nm [w|] cd cm au du ld sm stp q wh tr ud]; cbn [mScene]; no_calls.
  - unfold post, SetEnableCCD.
    destruct s as [nm [w|] cd cm au du ld sm stp q wh tr ud]; cbn [mScene]; no_calls.
  - unfold post, SetBounceThresholdVelocity.
    destruct s as [nm [w|] cd cm au du ld sm stp q wh tr ud]; cbn [mScene]; no_calls.
  - destruct s as [? ? ? ? ? ? ? ? ? ? [] ? ?]. wp.
    split; [intros Hfit; exact Hfit|].
    exists []. split; [symmetry; apply app_nil_r|].
    split; [reflexivity|]. split; [reflexivity|]. now exists 0%nat.
Qed.

Lemma run_ops_calls (ops : list Op) :
  forall s s', run_ops SetCurrentGear E ops s = Some (tt, s') -> op_calls s s'.
Proof.
  induction ops as [|op ops IH]; intros s s' Hrun.
  - injection Hrun as <-. apply op_calls_refl.
  - cbn [run_ops] in Hrun. apply bind_Some in Hrun.
    destruct Hrun as ([] & s1 & Hop & Hrest).
    eapply op_calls_trans; [|exact (IH _ _ Hrest)].
    exact (post_Some _ _ _ _ _ (run_op_calls op s) Hop).
Qed.

(** X21.  The batch query handed to the suspension raycasts always fits its
    buffers: starting from a scene where the live batch query, if any, was
    created for the size of the two raycast buffers (a new scene has none),
    any sequence of operations leaves a scene where this still holds.  The
    buffers are resized only where the query is created anew. *)
Theorem batch_query_matches_buffers (ops : list Op) s s' (size : Z) :
  batch_query_fits (wheels s) ->
  run_ops SetCurrentGear E ops s = Some (tt, s') ->
  mWheelRaycastBatchQuery (wheels s') = Some size ->
  Count (mWheelQueryResults (wheels s')) = size
  /\ Count (mWheelHitResults (wheels s')) = size.
Proof.
  intros Hfit Hrun Hquery.
  exact (proj1 (run_ops_calls ops s s' Hrun) Hfit size Hquery).
Qed.

(** X22.  Along any sequence of operations the scratch block is allocated
    at most once and the stepper is created at most once, and neither is
    allocated again when the scene already has it. *)
Theorem scratch_and_stepper_created_once (ops : list Op) s s' (evs : list Event) :
  run_ops SetCurrentGear E ops s = Some (tt, s') ->
  trace s' = trace s ++ evs ->
  (length (filter is_scratch_allocation evs) <= 1)%nat
  /\ (length (filter is_stepper_creation evs) <= 1)%nat
  /\ (mScratchMemory s = true -> filter is_scratch_allocation evs = [])
  /\ (is_some (mStepper s) = true -> filter is_stepper_creation evs = [])
  /\ (mScratchMemory s = true -> mScratchMemory s' = true)
  /\ (is_some (mStepper s) = true -> is_some (mStepper s') = true).
Proof.
  intros Hrun Htrace.
  destruct (run_ops_calls ops s s' Hrun) as (_ & evs' & Htrace' & Hsc & Hst & _).
  rewrite Htrace' in Htrace. apply app_inv_head in Htrace. subst evs'.
  unfold scratch_missing, stepper_missing in Hsc, Hst.
  split; [destruct (mScratchMemory s), (mScratchMemory s'); lia|].
  split; [destruct (mStepper s), (mStepper s'); lia|].
  split; [|split; [|split]].
  - intros Hhas. rewrite Hhas in Hsc. apply length_zero_iff_nil.
    destruct (mScratchMemory s'); lia.
  - intros Hhas. destruct (mStepper s); [|discriminate Hhas].
    apply length_zero_iff_nil. destruct (mStepper s'); lia.
  - intros Hhas. rewrite Hhas in Hsc. destruct (mScratchMemory s'); [reflexivity|lia].
  - intros Hhas. destruct (mStepper s); [|discriminate Hhas].
    destruct (mStepper s'); [reflexivity|lia].
Qed.

(** X23.  Along any sequence of operations that return, the calls on the
    scene lock are a sequence of lock/unlock pairs: the lock is never taken
    twice in a row, never released without being held, and no operation
    returns while holding it. *)
Theorem lock_calls_are_paired (ops : list Op) s s' (evs : list Event) :
  run_ops SetCurrentGear E ops s = Some (tt, s') ->
  trace s' = trace s ++ evs ->
  exists k, filter is_lock_event evs = lock_pairs k.
Proof.
  intros Hrun Htrace.
  destruct (run_ops_calls ops s s' Hrun) as (_ & evs' & Htrace' & _ & _ & Hlock).
  rewrite Htrace' in Htrace. apply app_inv_head in Htrace. subst evs'.
  exact Hlock.
Qed.

End Calls.

Lemma batch_query_matches_buffers_witness :
  exists s',
    run_ops ForceGear sample_engine two_frames live_scene = Some (tt, s')
    /\ mWheelRaycastBatchQuery (wheels s') = Some 10
    /\ Count (mWheelQueryResults (wheels s')) = 10
    /\ Count (mWheelHitResults (wheels s')) = 10.
Proof.
  destruct (run_ops ForceGear sample_engine two_frames live_scene)
    as [[[] s']|] eqn:Hrun.
  - exists s'. split; [reflexivity|].
    assert (Hquery : mWheelRaycastBatchQuery (wheels s') = Some 10).
    { vm_compute in Hrun. injection Hrun as <-. reflexivity. }
    split; [exact Hquery|].
    apply (batch_query_matches_buffers ForceGear sample_engine two_frames
             live_scene s' 10); [|exact Hrun|exact Hquery].
    intros size Hnone. discriminate Hnone.
  - exfalso. vm_compute in Hrun. discriminate Hrun.
Defined.

Lemma scratch_and_stepper_created_once_witness :
  exists s',
    run_ops ForceGear sample_engine two_frames live_scene = Some (tt, s')
    /\ (length (filter is_scratch_allocation (trace s')) <= 1)%nat
    /\ (length (filter is_stepper_creation (trace s')) <= 1)%nat.
Proof.
  destruct (run_ops ForceGear sample_engine two_frames live_scene)
    as [[[] s']|] eqn:Hrun.
  - exists s'. split; [reflexivity|].
    destruct (scratch_and_stepper_created_once ForceGear sample_engine two_frames
                live_scene s' (trace s') Hrun eq_refl) as (Hsc & Hst & _).
    split; assumption.
  - exfalso. vm_compute in Hrun. discriminate Hrun.
Defined.

Lemma lock_calls_are_paired_witness :
  exists s' k,
    run_ops ForceGear sample_engine two_frames live_scene = Some (tt, s')
    /\ filter is_lock_event (trace s') = lock_pairs k.
Proof.
  destruct (run_ops ForceGear sample_engine two_frames live_scene)
    as [[[] s']|] eqn:Hrun.
  - destruct (lock_calls_are_paired ForceGear sample_engine two_frames
                live_scene s' (trace s') Hrun eq_refl) as [k Hk].
    exists s', k. split; [reflexivity|exact Hk].
  - exfalso. vm_compute in Hrun. discriminate Hrun.
Defined.

(* ------------------------------------------------------------------ *)
(** ** Further properties: one frame, from Simulate to CollectResults *)

Section Frame.
Context {St : Type} `{PhysicsStepper St}.
Variable SetCurrentGear : Z -> WheeledVehicle -> WheeledVehicle.
Variable E : Engine.
Implicit Types (s : PhysicsScene St).

(** X24.  A frame is collected whether or not its step was dispatched.
    After a [Simulate] that returns, a [CollectResults] that returns has
    first waited on the stepper and has cleared the mid-step flag, also when
    [advance] answered false and no step is under way.  The vehicle updates
    of that frame get the clamped delta of the [Simulate] call when the step
    was dispatched, and otherwise the delta time of an earlier frame. *)
Theorem frame_collected_with_last_delta (inMain inMain' : bool) (dt : float)
    s s1 s2 (evs : list Event) :
  Simulate E inMain dt s = Some (tt, s1) ->
  CollectResults SetCurrentGear E inMain' s1 = Some (tt, s2) ->
  trace s2 = trace s1 ++ evs ->
  let dt' := Math_Clamp dt 0%Q (MaxDeltaTime (Settings E)) in
  exists evs1 dispatched,
    trace s1 = trace s ++ evs1
    /\ advance_calls evs1 = [(dt', dispatched)]
    /\ hd_error evs = Some EvWait
    /\ mIsDuringSimulation s2 = false
    /\ forall d g c r, In (EvVehicleUpdates d g c r) evs ->
         d = if dispatched then dt' else mLastDeltaTime s.
Proof.
  intros Hsim Hcollect Htrace dt'.
  destruct (Simulate_Some _ _ _ _ _ Hsim)
    as (w1 & dispatched & st2 & w2 & _ & _ & _ & _ & _ & _ & Hs1).
  fold dt' in Hs1.
  assert (Hduring : mIsDuringSimulation s1 = true) by (subst s1; reflexivity).
  assert (Hlast : mLastDeltaTime s1 = if dispatched then dt' else mLastDeltaTime s)
    by (subst s1; reflexivity).
  exists (flush_events (queues s) ++ prepare_events E dt' s
          ++ [EvAdvance dt' dispatched]
          ++ (if dispatched then [EvEventsClear; EvRenderDone] else [])), dispatched.
  split; [subst s1; reflexivity|].
  split.
  { rewrite !advance_calls_app, advance_calls_flush, advance_calls_prepare.
    destruct dispatched; reflexivity. }
  destruct (post_Some _ _ _ _ _ (CollectResults_post SetCurrentGear E inMain' s1) Hcollect)
    as [_ Hbusy].
  destruct (Hbusy Hduring) as (Hflag & [mid Hmid] & _).
  rewrite Hmid in Htrace. apply app_inv_head in Htrace. subst evs.
  split; [reflexivity|]. split; [exact Hflag|].
  intros d g c r Hin.
  destruct (post_Some _ _ _ _ _
              (CollectResults_result SetCurrentGear E inMain' s1 Hduring) Hcollect)
    as (_ & _ & _ & _ & _ & _ & evs' & Htrace' & _ & _ & Hupd).
  rewrite Hmid in Htrace'. apply app_inv_head in Htrace'. subst evs'.
  destruct (Hupd d g c r Hin) as (-> & _). exact Hlast.
Qed.

End Frame.

Lemma frame_collected_with_last_delta_witness :
  exists s1 s2,
    Simulate sample_engine true 0%Q live_scene = Some (tt, s1)
    /\ CollectResults ForceGear sample_engine true s1 = Some (tt, s2)
    /\ advance_calls (trace s1) = [(0%Q, false)]
    /\ hd_error (skipn (length (trace s1)) (trace s2)) = Some EvWait
    /\ mIsDuringSimulation s2 = false.
Proof.
  destruct (Simulate sample_engine true 0%Q live_scene) as [[[] s1]|] eqn:Hsim.
  - destruct (CollectResults ForceGear sample_engine true s1) as [[[] s2]|] eqn:Hrun.
    + exists s1, s2. split; [reflexivity|]. split; [exact Hrun|].
      assert (Htrace : trace s2 = trace s1 ++ skipn (length (trace s1)) (trace s2)).
      { vm_compute in Hsim. injection Hsim as <-.
        vm_compute in Hrun. injection Hrun as <-. reflexivity. }
      destruct (frame_collected_with_last_delta ForceGear sample_engine true true
                  0%Q live_scene s1 s2 _ Hsim Hrun Htrace)
        as (evs1 & dispatched & Hevs1 & Hadv & Hwait & Hflag & _).
      cbn [trace live_scene app] in Hevs1.
      assert (Hcalls : advance_calls (trace s1) = [(0%Q, false)]).
      { vm_compute in Hsim. injection Hsim as <-. reflexivity. }
      split; [exact Hcalls|]. split; assumption.
    + exfalso. vm_compute in Hsim. injection Hsim as <-.
      vm_compute in Hrun. discriminate Hrun.
  - exfalso. vm_compute in Hsim. discriminate Hsim.
Defined.

(* ------------------------------------------------------------------ *)
(** ** Further properties: construction and destruction *)

(** X25.  Destroying a scene right after its construction.  When both the
    dispatcher and the world were created, the destructor releases the
    controller manager, deletes the dispatcher, frees the scratch pointer
    and releases the world last; no batch query, tire friction table or
    stepper exists yet.  When the creation of the dispatcher or of the world
    failed, the constructor has returned early with a null world and the
    destructor crashes on its unguarded [mScene->release()]. *)
Theorem PhysicsScene_delete_after_new {St : Type} `{PhysicsStepper St}
    (name : String.string) (settings : PhysicsSettings) (ProcessorCoreCount : Z)
    (dispatcherCreated sceneCreated : bool) :
  PhysicsScene_delete (St := St)
    (PhysicsScene_new name settings ProcessorCoreCount dispatcherCreated sceneCreated)
  = if dispatcherCreated && sceneCreated
    then Some [TdControllerManagerRelease; TdCpuDispatcherDelete; TdScratchFree;
               TdSceneRelease]
    else None.
Proof. destruct dispatcherCreated, sceneCreated; reflexivity. Qed.

Section Destruction.
Context {St : Type} `{PhysicsStepper St}.
Variable E : Engine.
Implicit Types (s : PhysicsScene St).

(** X26.  What a frame leaves for the destructor.  On a scene that has been
    through a [Simulate] that returned, the destructor, when the world is
    still there, deletes the stepper; the world is released last and after
    everything else, and nothing is released twice. *)
Theorem PhysicsScene_delete_after_Simulate (inMain : bool) (dt : float) s s1
    (calls : list Teardown) :
  Simulate E inMain dt s = Some (tt, s1) ->
  PhysicsScene_delete s1 = Some calls ->
  In TdStepperDelete calls
  /\ NoDup calls
  /\ exists before, calls = before ++ [TdScratchFree; TdSceneRelease].
Proof.
  intros Hsim Hdel.
  destruct (Simulate_Some _ _ _ _ _ Hsim)
    as (w1 & dispatched & st2 & w2 & _ & _ & _ & _ & _ & _ & ->).
  unfold PhysicsScene_delete in Hdel.
  cbn [simulated mScene mStepper mControllerManager mCpuDispatcher wheels] in Hdel.
  destruct w2 as [w2|]; [|discriminate Hdel]. injection Hdel as <-.
  destruct (mWheelRaycastBatchQuery (wheels s)), (mWheelTireFrictions (wheels s)),
    (mControllerManager s), (mCpuDispatcher s); cbn.
  all: split;
    [ tauto
    | split;
      [ repeat (constructor; [cbn; intuition discriminate|]); constructor
      | match goal with
        | |- exists before, ?l = _ => exists (removelast (removelast l)); reflexivity
        end ] ].
Qed.

End Destruction.

Lemma PhysicsScene_delete_after_Simulate_witness :
  exists s1 calls,
    Simulate sample_engine true (1 # 60)%Q live_scene = Some (tt, s1)
    /\ PhysicsScene_delete s1 = Some calls
    /\ In TdStepperDelete calls.
Proof.
  destruct (Simulate sample_engine true (1 # 60)%Q live_scene) as [[[] s1]|] eqn:Hsim.
  - destruct (PhysicsScene_delete s1) as [calls|] eqn:Hdel.
    + exists s1, calls. split; [reflexivity|]. split; [exact Hdel|].
      exact (proj1 (PhysicsScene_delete_after_Simulate sample_engine true (1 # 60)%Q
                      live_scene s1 calls Hsim Hdel)).
    + exfalso. vm_compute in Hsim. injection Hsim as <-.
      vm_compute in Hdel. discriminate Hdel.
  - exfalso. vm_compute in Hsim. discriminate Hsim.
Defined.

(* ------------------------------------------------------------------ *)
(** ** Further properties: when CollectResults returns *)

Section Returning.
Context {St : Type} `{PhysicsStepper St}.
Implicit Types (s : PhysicsScene St).

Lemma returns_ret {A} (a : A) s (P : A -> PhysicsScene St -> Prop) :
  P a s -> returns (ret a) s P.
Proof. intros HP. now exists a, s. Qed.

Lemma returns_gets {A} (f : PhysicsScene St -> A) s P :
  P (f s) s -> returns (gets f) s P.
Proof. intros HP. now exists (f s), s. Qed.

Lemma returns_modify (f : PhysicsScene St -> PhysicsScene St) s P :
  P tt (f s) -> returns (modify f) s P.
Proof. intros HP. now exists tt, (f s). Qed.

Lemma returns_modify_wheels (f : WheelBuffers -> WheelBuffers) s P :
  P tt (set_wheels (f (wheels s)) s) -> returns (modify_wheels f) s P.
Proof. apply returns_modify. Qed.

Lemma returns_emit (e : Event) s P :
  P tt (set_trace (trace s ++ [e]) s) -> returns (emit e) s P.
Proof. apply returns_modify. Qed.

Lemma returns_bind {A B} (c : M St A) (k : A -> M St B) s P :
  returns c s (fun a s' => returns (k a) s' P) -> returns (bind c k) s P.
Proof.
  intros (a & s' & Hc & b & s'' & Hk & HP).
  exists b, s''. split; [|exact HP]. unfold bind. now rewrite Hc.
Qed.

Lemma returns_when (b : bool) (c : M St unit) s P :
  (b = true -> returns c s P) -> (b = false -> P tt s) -> returns (when b c) s P.
Proof.
  destruct b; intros Ht Hf; [now apply Ht|]. apply returns_ret. now apply Hf.
Qed.

Lemma returns_ASSERT (b : bool) s P : b = true -> P tt s -> returns (ASSERT b) s P.
Proof. intros -> HP. now apply returns_ret. Qed.

Lemma returns_for_each_emit {A} (f : A -> Event) (l : list A) s P :
  P tt (set_trace (trace s ++ map f l) s) ->
  returns (for_each l (fun x => emit (f x))) s P.
Proof. intros HP. eexists _, _. split; [apply for_each_emit|exact HP]. Qed.

Lemma returns_for_each_events (l : list Event) s P :
  P tt (set_trace (trace s ++ l) s) -> returns (for_each l emit) s P.
Proof.
  intros HP. eexists _, _. split; [|exact HP].
  rewrite (for_each_emits (fun e => [e])) by reflexivity.
  now rewrite flat_map_singleton, map_id.
Qed.

Lemma returns_active_transforms (actors : list PxActor) s P :
  forallb (fun pxActor => existsb (Nat.eqb pxActor) (userData s)) actors = true ->
  P tt (set_trace (trace s ++ map EvOnActiveTransformChanged actors) s) ->
  returns (for_each actors (fun pxActor =>
             owners <- gets userData ;;
             ASSERT (existsb (Nat.eqb pxActor) owners) ;;
             emit (EvOnActiveTransformChanged pxActor))) s P.
Proof.
  intros Hown HP. eexists _, _. split; [|exact HP].
  now rewrite active_transforms_eq, Hown.
Qed.

Lemma returns_read_scene {A} (f : PxScene -> A) s (w : PxScene) P :
  mScene s = Some w -> P (f w) s -> returns (read_scene f) s P.
Proof.
  intros Hw HP. exists (f w), s. split; [|exact HP].
  unfold read_scene. now rewrite Hw.
Qed.

Lemma returns_resize_wheels {A} (get : WheelBuffers -> Array A)
    (set : Array A -> WheelBuffers -> WheelBuffers) (dflt : A) (size : Z) s P :
  0 <= size ->
  (forall a, Resize dflt size (get (wheels s)) = Some a ->
             P tt (set_wheels (set a (wheels s)) s)) ->
  returns (resize_wheels get set dflt size) s P.
Proof.
  intros Hsize HP. unfold returns, resize_wheels.
  destruct (Resize dflt size (get (wheels s))) as [a|] eqn:Hr.
  - eexists _, _. split; [reflexivity|]. now apply HP.
  - exfalso. unfold Resize in Hr.
    destruct (size <? 0) eqn:Hneg; [apply Z.ltb_lt in Hneg; lia|].
    destruct (Count (get (wheels s)) >? size); discriminate Hr.
Qed.

Lemma returns_stepper_wait s (st st' : St) (w' : option PxScene) P :
  mStepper s = Some st ->
  wait (mScene s) st = Some (st', w') ->
  P tt (set_trace (trace s ++ [EvWait])
          (set_mScene w' (set_mStepper (Some st') s))) ->
  returns stepper_wait s P.
Proof.
  intros Hst Hwait HP. eexists _, _. split; [|exact HP].
  unfold stepper_wait, the_stepper, bind, gets. rewrite Hst, Hwait. reflexivity.
Qed.

Lemma returns_post {A} (c : M St A) s (Q P : A -> PhysicsScene St -> Prop) :
  post c s Q -> returns c s P -> returns c s (fun a s' => Q a s' /\ P a s').
Proof.
  intros Hpost (a & s' & Hc & HP). exists a, s'. split; [exact Hc|].
  split; [exact (post_Some _ _ _ _ _ Hpost Hc)|exact HP].
Qed.

End Returning.

(** Forward execution of a member function under [returns]. *)
Ltac returns_step :=
  wheel_members; cbn [negb andb orb] in *;
  lazymatch goal with
  | |- returns (bind _ _) _ _ => apply returns_bind
  | |- returns (ret _) _ _ => apply returns_ret
  | |- returns (gets _) _ _ => apply returns_gets
  | |- returns (modify_wheels _) _ _ => apply returns_modify_wheels
  | |- returns (modify _) _ _ => apply returns_modify
  | |- returns (emit _) _ _ => apply returns_emit
  | |- returns (when _ _) _ _ => apply returns_when; intros ?
  | |- returns (ASSERT _) _ _ => apply returns_ASSERT; [reflexivity|]
  | |- returns stepper_wait _ _ =>
      eapply returns_stepper_wait; [reflexivity|eassumption|]
  | |- returns (for_each _ emit) _ _ => apply returns_for_each_events
  | |- returns (for_each _ (fun pxActor => bind (gets _) _)) _ _ =>
      apply returns_active_transforms; [assumption|]
  | |- returns (for_each _ (fun x => emit _)) _ _ => apply returns_for_each_emit
  | |- returns (read_scene _) _ _ => eapply returns_read_scene; [reflexivity|]
  | |- returns (resize_wheels _ _ _ _) _ _ =>
      apply returns_resize_wheels; [lia|intros ? ?]
  end;
  wheel_members.

Lemma owners_forallb (actors owners : list PxActor) :
  (forall a, In a actors -> In a owners) ->
  forallb (fun pxActor => existsb (Nat.eqb pxActor) owners) actors = true.
Proof.
  intros Hown. apply forallb_forall. intros a Hin.
  apply existsb_exists. exists a. split; [now apply Hown|apply Nat.eqb_refl].
Qed.

Lemma active_drives_app (a b : list WheeledVehicle) :
  active_drives (a ++ b) = active_drives a ++ active_drives b.
Proof. apply flat_map_app. Qed.

Lemma active_drives_inactive (inactive : list WheeledVehicle) :
  Forall (fun v => IsActiveInHierarchy v = false) inactive ->
  active_drives inactive = [].
Proof.
  induction 1 as [|v l Hv _ IH]; [reflexivity|].
  cbn [active_drives flat_map]. rewrite Hv. exact IH.
Qed.

Lemma active_drives_active (active : list WheeledVehicle) :
  Forall (fun v => IsActiveInHierarchy v = true /\ _drive v <> None) active ->
  length (active_drives active) = length active.
Proof.
  induction 1 as [|v l [Hv Hd] _ IH]; [reflexivity|].
  cbn [active_drives flat_map]. rewrite Hv.
  destruct (_drive v); [|congruence]. cbn [app length]. f_equal. exact IH.
Qed.

Lemma SynchronizeState_returns (cache : list PxVehicleWheels)
    (perVehicle : list PxVehicleWheelQueryResult) (rest : list WheeledVehicle) :
  forall i ii,
    (ii + length (filter IsActiveInHierarchy rest) <= length cache)%nat ->
    (ii + length (filter IsActiveInHierarchy rest) <= length perVehicle)%nat ->
    exists evs, SynchronizeState cache perVehicle rest i ii = Some evs.
Proof.
  induction rest as [|v rest IH]; intros i ii Hc Hp; cbn [SynchronizeState].
  - now exists [].
  - cbn [filter] in Hc, Hp.
    destruct (IsActiveInHierarchy v); cbn [negb length] in *.
    + destruct (nth_error cache ii) as [drive|] eqn:Hdrive;
        [|apply nth_error_None in Hdrive; lia].
      destruct (nth_error perVehicle ii) as [r|] eqn:Hr;
        [|apply nth_error_None in Hr; lia].
      destruct (IH (S i) (S ii)) as [evs Hevs]; [lia|lia|].
      rewrite Hevs. eauto.
    + apply IH; assumption.
Qed.

Lemma filter_active_shape (active inactive : list WheeledVehicle) :
  Forall (fun v => IsActiveInHierarchy v = true /\ _drive v <> None) active ->
  Forall (fun v => IsActiveInHierarchy v = false) inactive ->
  length (filter IsActiveInHierarchy (active ++ inactive)) = length active.
Proof.
  intros Ha Hi. rewrite filter_app, length_app.
  replace (filter IsActiveInHierarchy inactive) with (@nil WheeledVehicle).
  - cbn [length]. rewrite Nat.add_0_r.
    induction Ha as [|v l [Hv _] _ IH]; [reflexivity|].
    cbn [filter]. rewrite Hv. cbn [length]. now f_equal.
  - symmetry. induction Hi as [|v l Hv _ IH]; [reflexivity|].
    cbn [filter]. now rewrite Hv.
Qed.

Section Shape.
Variable SetCurrentGear : Z -> WheeledVehicle -> WheeledVehicle.
Hypothesis gear_only : forall gear v, same_place v (SetCurrentGear gear v).

Lemma ComputeVehicleInput_same_place (v : WheeledVehicle) :
  same_place v (snd (ComputeVehicleInput SetCurrentGear v)).
Proof.
  unfold ComputeVehicleInput.
  destruct (UseReverseAsBrake v); [|split; reflexivity].
  cbn [snd].
  repeat match goal with
         | |- same_place _ (if ?b then _ else _) => destruct b
         end; first [apply gear_only | split; reflexivity].
Qed.

Lemma UpdateVehiclesSteering_same_place (lastDeltaTime : float)
    (vehicles : list WheeledVehicle) :
  forall cache n vehicles' cache' n' evs,
    UpdateVehiclesSteering SetCurrentGear lastDeltaTime vehicles cache n
    = Some (vehicles', cache', n', evs) ->
    Forall2 same_place vehicles vehicles'.
Proof.
  induction vehicles as [|v rest IH]; intros cache n vehicles' cache' n' evs Hrun.
  - cbn in Hrun. injection Hrun as <- _ _ _. constructor.
  - cbn [UpdateVehiclesSteering] in Hrun.
    destruct (IsActiveInHierarchy v); cbn [negb] in Hrun.
    + destruct (_drive v) as [drive|]; [|discriminate].
      pose proof (ComputeVehicleInput_same_place v) as Hv.
      destruct (ComputeVehicleInput SetCurrentGear v) as [[throttle brake] v'].
      destruct (UpdateVehiclesSteering SetCurrentGear lastDeltaTime rest _ _)
        as [[[[vs c] m] e]|] eqn:Hrest; [|discriminate].
      injection Hrun as <- _ _ _. constructor; [exact Hv|].
      eapply IH. exact Hrest.
    + destruct (UpdateVehiclesSteering SetCurrentGear lastDeltaTime rest _ _)
        as [[[[vs c] m] e]|] eqn:Hrest; [|discriminate].
      injection Hrun as <- _ _ _. constructor; [split; reflexivity|].
      eapply IH. exact Hrest.
Qed.

End Shape.

Lemma same_place_active (l l' : list WheeledVehicle) :
  Forall2 same_place l l' ->
  Forall (fun v => IsActiveInHierarchy v = true /\ _drive v <> None) l ->
  Forall (fun v => IsActiveInHierarchy v = true /\ _drive v <> None) l'.
Proof.
  induction 1 as [|v v' l l' [Ha Hd] _ IH]; intros Hall; [constructor|].
  inversion Hall as [|? ? [Hv Hdv] Hrest]; subst.
  constructor; [split; congruence|now apply IH].
Qed.

Lemma same_place_inactive (l l' : list WheeledVehicle) :
  Forall2 same_place l l' ->
  Forall (fun v => IsActiveInHierarchy v = false) l ->
  Forall (fun v => IsActiveInHierarchy v = false) l'.
Proof.
  induction 1 as [|v v' l l' [Ha Hd] _ IH]; intros Hall; [constructor|].
  inversion Hall as [|? ? Hv Hrest]; subst.
  constructor; [congruence|now apply IH].
Qed.

Lemma wheel_records_length (active : list WheeledVehicle) :
  Forall (fun v => IsActiveInHierarchy v = true /\ _drive v <> None) active ->
  forall n, length (wheel_records active n) = length active.
Proof.
  induction 1 as [|v l [_ Hd] _ IH]; intros n; [reflexivity|].
  cbn [wheel_records]. destruct (_drive v); [|congruence].
  cbn [length]. f_equal. apply IH.
Qed.

Section CollectReturns.
Context {St : Type} `{PhysicsStepper St}.
Variable SetCurrentGear : Z -> WheeledVehicle -> WheeledVehicle.
Variable E : Engine.
Hypothesis gear_only : forall gear v, same_place v (SetCurrentGear gear v).
Implicit Types (s : PhysicsScene St).

Lemma VehiclePipeline_returns (active inactive : list WheeledVehicle) s (w : PxScene) :
  mScene s = Some w ->
  mWheelVehicles (wheels s) = active ++ inactive ->
  Forall (fun v => IsActiveInHierarchy v = true /\ _drive v <> None) active ->
  Forall (fun v => IsActiveInHierarchy v = false) inactive ->
  0 <= ActiveWheelsCount (active ++ inactive) 0 ->
  returns (VehiclePipeline SetCurrentGear) s (fun _ _ => True).
Proof.
  intros Hw Hvs Hact Hinact Htotal.
  destruct s as [nm sc cd cm au du ld sm stp q wh tr ud].
  destruct wh as [vs ca qr hr pw pv bq tf].
  wheel_members. subst sc vs.
  destruct (UpdateVehiclesSteering SetCurrentGear ld (active ++ inactive) [] 0)
    as [[[[vs' cache] n] evs]|] eqn:Hloop.
  2: { exfalso. revert Hloop.
       apply (proj1 (UpdateVehiclesSteering_returns SetCurrentGear ld
                       (active ++ inactive) [] 0)).
       intros v Hin Hv. apply in_app_iff in Hin as [Hin|Hin].
       - rewrite Forall_forall in Hact. exact (proj2 (Hact v Hin)).
       - rewrite Forall_forall in Hinact. rewrite (Hinact v Hin) in Hv.
         discriminate Hv. }
  pose proof (UpdateVehiclesSteering_count _ _ _ _ _ _ _ _ _ Hloop) as Hn.
  pose proof (UpdateVehiclesSteering_same_place _ gear_only _ _ _ _ _ _ _ _ Hloop)
    as Hshape.
  destruct (UpdateVehiclesSteering_result _ _ _ _ _ _ _ _ _ Hloop)
    as (Hcache & _).
  cbn [app] in Hcache. subst n cache.
  apply Forall2_app_inv_l in Hshape as (active' & inactive' & Ha & Hi & ->).
  pose proof (same_place_active _ _ Ha Hact) as Hact'.
  pose proof (same_place_inactive _ _ Hi Hinact) as Hinact'.
  assert (Hlen : length (active_drives (active ++ inactive)) = length active').
  { rewrite active_drives_app, (active_drives_inactive _ Hinact), app_nil_r.
    rewrite (active_drives_active _ Hact). exact (Forall2_length Ha). }
  unfold VehiclePipeline.
  repeat returns_step. rewrite Hloop.
  repeat returns_step.
  all: match goal with
       | |- returns (match SetupWheelStates ?all ?all 0%nat 0 (items ?a) with _ => _ end) _ _ =>
           let Hsetup := fresh "Hsetup" in
           assert (Hsetup : SetupWheelStates all all 0%nat 0 (items a)
                            = Some (wheel_records active' 0));
           [ apply (SetupWheelStates_in_order active' [] inactive' 0 [] (items a)
                      Hact' Hinact' eq_refl);
             match goal with
             | Hr : Resize _ _ _ = Some a |- _ =>
                 apply Resize_Count in Hr; unfold Count in Hr; lia
             end
           | rewrite Hsetup ]
       end.
  all: repeat returns_step.
  all: match goal with
       | |- returns (match SynchronizeState ?c ?r ?vs 0%nat 0%nat with _ => _ end) _ _ =>
           let Hsync := fresh "Hsync" in
           destruct (SynchronizeState_returns c r vs 0%nat 0%nat) as [sync Hsync];
           [ | | rewrite Hsync ]
       end.
  all: try (rewrite (filter_active_shape _ _ Hact' Hinact'),
                    ?(wheel_records_length _ Hact'); cbn [Nat.add]; lia).
  all: returns_step; exact I.
Qed.

(** X27.  When [CollectResults] returns.  On a scene that is mid-step, on
    the owning thread and with the backend, the call returns, clears the
    mid-step flag and leaves in the cache the drives of the active vehicles,
    provided that: the wait on the stepper returns and leaves a world; every
    vehicle active in its hierarchy has a drive and is registered before
    every inactive one; the wheel total has not overflowed to a negative
    [int32]; a gear change leaves the activity and the drive of the vehicle
    alone; and every actor the world reports as active after the wait still
    has its owner in [userData] (the ASSERT of line 579; [RemoveActor]
    clears it).  Without the second condition the call can crash or mix up
    the wheel counts (the loop at lines 493-505); without the last one it
    stops on the assertion. *)
Theorem CollectResults_returns (active inactive : list WheeledVehicle) s
    (st st' : St) (w' : PxScene) :
  CPhysX E = true ->
  mIsDuringSimulation s = true ->
  mStepper s = Some st ->
  wait (mScene s) st = Some (st', Some w') ->
  mWheelVehicles (wheels s) = active ++ inactive ->
  Forall (fun v => IsActiveInHierarchy v = true /\ _drive v <> None) active ->
  Forall (fun v => IsActiveInHierarchy v = false) inactive ->
  0 <= ActiveWheelsCount (active ++ inactive) 0 ->
  (forall a, In a (sceneActiveActors w') -> In a (userData s)) ->
  exists s',
    CollectResults SetCurrentGear E true s = Some (tt, s')
    /\ mIsDuringSimulation s' = false
    /\ mStepper s' = Some st'
    /\ mScene s' = Some w'
    /\ (active ++ inactive <> [] ->
        mWheelVehiclesCache (wheels s') = active_drives active).
Proof.
  intros Hphysx Hduring Hst Hwait Hvs Hact Hinact Htotal Hown.
  apply owners_forallb in Hown.
  assert (Hrun : returns (CollectResults SetCurrentGear E true) s (fun _ s' =>
            mIsDuringSimulation s' = false
            /\ mStepper s' = Some st'
            /\ mScene s' = Some w'
            /\ (active ++ inactive <> [] ->
                mWheelVehiclesCache (wheels s') = active_drives active))).
  { destruct s as [nm sc cd cm au du ld sm stp q wh tr ud].
    destruct wh as [vs ca qr hr pw pv bq tf].
    wheel_members. subst du stp vs.
    unfold CollectResults. rewrite Hphysx.
    repeat lazymatch goal with
           | |- returns (bind (when _ (VehiclePipeline _)) _) _ _ => fail
           | _ => returns_step
           end.
    apply returns_bind. apply returns_when.
    - intros _.
      match goal with
      | |- returns _ ?s0 _ =>
          pose proof (returns_post _ s0 _ _
                        (VehiclePipeline_result SetCurrentGear s0)
                        (VehiclePipeline_returns active inactive s0 w' eq_refl
                           eq_refl Hact Hinact Htotal)) as (a & s1 & Hpipe & Hres & _)
      end.
      exists a, s1. split; [exact Hpipe|].
      unfold pipeline_result in Hres.
      cbn [mScene queues mLastDeltaTime mScratchMemory mStepper wheels trace
           userData] in Hres.
      destruct Hres as (Hsc & _ & _ & _ & Hstp & Hud & Hcache & _).
      destruct s1 as [nm1 sc1 cd1 cm1 au1 du1 ld1 sm1 stp1 q1 wh1 tr1 ud1].
      destruct wh1 as [vs1 ca1 qr1 hr1 pw1 pv1 bq1 tf1].
      wheel_members. subst sc1 stp1 ca1 ud1.
      repeat returns_step.
      repeat (split; [reflexivity|]). intros _.
      rewrite active_drives_app, (active_drives_inactive _ Hinact).
      apply app_nil_r.
    - intros Hnone. repeat returns_step.
      repeat (split; [reflexivity|]). intros Hsome.
      destruct (active ++ inactive); [congruence|discriminate Hnone]. }
  destruct Hrun as ([] & s' & Hrun & Hres). exists s'. split; assumption.
Qed.

End CollectReturns.

Lemma CollectResults_returns_witness :
  exists s s',
    Simulate sample_engine true (1 # 60)%Q driving_scene = Some (tt, s)
    /\ CollectResults ForceGear sample_engine true s = Some (tt, s')
    /\ mIsDuringSimulation s' = false
    /\ mWheelVehiclesCache (wheels s') = [mkDrive 7%nat 6; mkDrive 8%nat 4].
Proof.
  destruct (Simulate sample_engine true (1 # 60)%Q driving_scene)
    as [[[] s]|] eqn:Hsim.
  - exists s.
    assert (Hvs : mWheelVehicles (wheels s) = [active_truck; driving_car] ++ [])
      by (vm_compute in Hsim; injection Hsim as <-; reflexivity).
    assert (Hduring : mIsDuringSimulation s = true)
      by (vm_compute in Hsim; injection Hsim as <-; reflexivity).
    assert (Hwait : exists st st' w',
               mStepper s = Some st /\ wait (mScene s) st = Some (st', Some w')
               /\ sceneActiveActors w' = [5%nat] /\ userData s = [5%nat]).
    { vm_compute in Hsim. injection Hsim as <-.
      eexists _, _, _. repeat split. }
    destruct Hwait as (st & st' & w' & Hst & Hwait & Hactive & Howners).
    destruct (CollectResults_returns ForceGear sample_engine
                (fun gear v => conj eq_refl eq_refl)
                [active_truck; driving_car] [] s st st' w'
                eq_refl Hduring Hst Hwait Hvs)
      as (s' & Hrun & Hflag & _ & _ & Hcache).
    + repeat constructor; discriminate.
    + constructor.
    + vm_compute. discriminate.
    + rewrite Hactive, Howners. intros a Ha. exact Ha.
    + exists s'. split; [reflexivity|]. split; [exact Hrun|].
      split; [exact Hflag|]. apply Hcache. discriminate.
  - exfalso. vm_compute in Hsim. discriminate Hsim.
Defined.

(* ------------------------------------------------------------------ *)
(** ** The mid-step flag *)

Lemma HasItems_length {A} (l : list A) :
  negb (Z.of_nat (length l) =? 0) = HasItems l.
Proof. now destruct l. Qed.

Lemma owners_In (actors owners : list PxActor) :
  forallb (fun pxActor => existsb (Nat.eqb pxActor) owners) actors = true ->
  forall a, In a actors -> In a owners.
Proof.
  intros Hall a Hin. rewrite forallb_forall in Hall.
  apply Hall in Hin. apply existsb_exists in Hin as (b & Hb & Heq).
  apply Nat.eqb_eq in Heq. now subst b.
Qed.

Section MidStep.
Context {St : Type} `{PhysicsStepper St}.
Variable SetCurrentGear : Z -> WheeledVehicle -> WheeledVehicle.
Variable E : Engine.
Implicit Types (s : PhysicsScene St).

(** On a live world, called from the owning thread outside a step with the
    backend up, [Simulate] returns, whatever the delta. *)
Lemma Simulate_returns `{!StepperContract St} (dt : float) s (w : PxScene) :
  mIsDuringSimulation s = false -> CPhysX E = true -> mScene s = Some w ->
  exists s1, Simulate E true dt s = Some (tt, s1).
Proof.
  intros Hduring Hphysx Hw. rewrite Simulate_eq, Hduring, Hphysx, Hw.
  cbn [negb andb flush_scene]. cbv zeta.
  destruct (advance_live (flush_world (queues s) w)
              (Math_Clamp dt 0%Q (MaxDeltaTime (Settings E)))
              (prepare_stepper E (Math_Clamp dt 0%Q (MaxDeltaTime (Settings E)))
                 (mStepper s)))
    as [[[dispatched st2] w2] Hadv].
  rewrite Hadv. eexists. reflexivity.
Qed.

Lemma post_and {A} (c : M St A) s (P Q : A -> PhysicsScene St -> Prop) :
  post c s P -> post c s Q -> post c s (fun a s' => P a s' /\ Q a s').
Proof. unfold post. destruct (c s) as [[a s']|]; [now split|trivial]. Qed.

(** The calls of the vehicle stage, in order. *)
Lemma VehiclePipeline_calls s :
  post (VehiclePipeline SetCurrentGear) s (fun _ s' =>
    exists smooth sync,
      trace s' = trace s ++ vehicle_stage_calls s s' smooth sync
      /\ Forall (fun e => exists kind drive raw,
                    e = EvSmoothInputs kind drive raw (mLastDeltaTime s)) smooth
      /\ length smooth = length (active_drives (mWheelVehicles (wheels s)))
      /\ Forall (fun e => is_sync_event e = true) sync).
Proof.
  destruct s as [nm sc cd cm au du ld sm stp q wh tr ud].
  destruct wh as [vs ca qr hr pw pv bq tf].
  unfold VehiclePipeline. wp.
  all: match goal with
       | Hloop : UpdateVehiclesSteering _ _ _ _ _ = Some (_, _, _, ?smooth),
         Hsync : SynchronizeState _ _ _ _ _ = Some ?sync |- _ =>
           pose proof (UpdateVehiclesSteering_count _ _ _ _ _ _ _ _ _ Hloop) as Hn;
           destruct (UpdateVehiclesSteering_result _ _ _ _ _ _ _ _ _ Hloop)
             as (Hcache & Hlen & Hsmooth & _ & _);
           apply SynchronizeState_events in Hsync;
           cbn [app] in Hcache; subst;
           exists smooth, sync
       end.
  all: (split; [|split; [assumption|split; assumption]]).
  all: unfold vehicle_stage_calls, GetGravity; wheel_members.
  all: rewrite <- HasItems_length.
  all: repeat match goal with
         | Hb : ?b = _ |- context [if ?b then _ else _] => rewrite Hb
         end.
  all: destruct tf; try discriminate.
  all: rewrite <- ?app_assoc; cbn [app]; try reflexivity.
  all: repeat match goal with
         | Hw : Some _ = Some _ |- _ => injection Hw as ->
         end; reflexivity.
Qed.

(** One whole [CollectResults] on a scene that is mid-step. *)
Lemma CollectResults_full (inMain : bool) s :
  mIsDuringSimulation s = true ->
  post (CollectResults SetCurrentGear E inMain) s (fun _ s' => full_collect s s').
Proof.
  intros Hduring.
  destruct s as [nm sc cd cm au du ld sm stp q wh tr ud].
  destruct wh as [vs ca qr hr pw pv bq tf].
  cbn in Hduring. subst du.
  unfold CollectResults.
  repeat lazymatch goal with
         | |- post (bind (when _ (VehiclePipeline _)) _) _ _ => fail
         | _ => wp_step
         end.
  apply post_bind. apply post_when; intros Hvehicles.
  - eapply post_consequence;
      [apply post_and; [apply VehiclePipeline_result|apply VehiclePipeline_calls]|].
    intros [] s' [Hres (smooth & sync & Htrace & Hsmooth & Hlen & Hsync)].
    unfold pipeline_result in Hres.
    destruct Hres as (Hsc & _ & _ & _ & _ & Hud & Hcache & _).
    destruct s' as [nm' sc' cd' cm' au' du' ld' sm' stp' q' wh' tr' ud'].
    destruct wh' as [vs' ca' qr' hr' pw' pv' bq' tf'].
    unfold vehicle_stage_calls, GetGravity in Htrace.
    wheel_members. subst sc' tr' ud' ca'.
    wp. subst. unfold full_collect, vehicle_stage_calls, GetGravity. wheel_members.
    rewrite Hvehicles.
    split; [reflexivity|]. split; [reflexivity|].
    match goal with
    | |- context [sceneActiveActors ?w] =>
        exists smooth, sync, (sceneActiveActors w)
    end.
    split; [rewrite <- !app_assoc; reflexivity|].
    split; [reflexivity|].
    split; [apply owners_In; assumption|].
    split; [assumption|split; assumption].
  - wp. subst. unfold full_collect. wheel_members. rewrite Hvehicles.
    split; [reflexivity|]. split; [discriminate|].
    match goal with
    | |- context [sceneActiveActors ?w] => exists [], [], (sceneActiveActors w)
    end.
    split; [rewrite <- !app_assoc; reflexivity|].
    split; [reflexivity|].
    split; [apply owners_In; assumption|].
    destruct vs; [|discriminate Hvehicles].
    split; [constructor|split; [reflexivity|constructor]].
Qed.

(** Operations other than [CollectResults] leave a mid-step scene mid-step. *)
Lemma run_ops_keep_flag (ops : list Op) :
  forall s s',
    forallb (fun op => negb (is_collect op)) ops = true ->
    mIsDuringSimulation s = true ->
    run_ops SetCurrentGear E ops s = Some (tt, s') ->
    mIsDuringSimulation s' = true.
Proof.
  induction ops as [|op ops IH]; intros s s' Hops Hflag Hrun.
  - injection Hrun as <-. exact Hflag.
  - cbn [forallb] in Hops. apply andb_prop in Hops as [Hop Hops].
    cbn [run_ops] in Hrun. apply bind_Some in Hrun.
    destruct Hrun as ([] & s1 & Hrun1 & Hrest).
    apply (IH s1 s' Hops); [|exact Hrest].
    apply (proj2 (post_Some _ _ _ _ _ (run_op_post SetCurrentGear E op s) Hrun1));
      [|exact Hflag].
    intros b ->. discriminate Hop.
Qed.

(** C9.  Every [Simulate] call that returns leaves [IsDuringSimulation()]
    true, whether [advance] dispatched a step or answered false.  The flag
    then stays set through any sequence of operations other than
    [CollectResults]: only [CollectResults] resets it.  The next
    [CollectResults] that returns does not take the no-op path but its whole
    body: the wait on the stepper; when a vehicle is registered, the vehicle
    stage (input smoothing of every active drive, batch query and tire
    friction setup where due, suspension raycasts and vehicle updates on the
    cached drives, wheel state reads), which leaves the drives of the active
    vehicles in the cache; the transform notification of every actor the
    world reports active; the four event calls; and the reset of the
    flag. *)
Theorem Simulate_sets_mid_step_flag (inMain : bool) (dt : float) s s1 :
  Simulate E inMain dt s = Some (tt, s1) ->
  IsDuringSimulation s1 = true
  /\ (exists evs dispatched,
        trace s1 = trace s ++ evs
        /\ advance_calls evs
           = [(Math_Clamp dt 0%Q (MaxDeltaTime (Settings E)), dispatched)])
  /\ (forall ops s2,
        forallb (fun op => negb (is_collect op)) ops = true ->
        run_ops SetCurrentGear E ops s1 = Some (tt, s2) ->
        IsDuringSimulation s2 = true
        /\ (forall inMain' s3,
              CollectResults SetCurrentGear E inMain' s2 = Some (tt, s3) ->
              IsDuringSimulation s3 = false /\ full_collect s2 s3)).
Proof.
  intros Hrun.
  destruct (Simulate_Some _ _ _ _ _ Hrun)
    as (w1 & dispatched & st2 & w2 & _ & _ & _ & _ & _ & _ & Hs1).
  assert (Hflag : mIsDuringSimulation s1 = true) by (subst s1; reflexivity).
  split; [exact Hflag|]. split.
  - eexists. exists dispatched. subst s1. unfold simulated. cbn [trace].
    split; [reflexivity|].
    rewrite !advance_calls_app, advance_calls_flush, advance_calls_prepare.
    destruct dispatched; reflexivity.
  - intros ops s2 Hops Hrun2.
    pose proof (run_ops_keep_flag ops s1 s2 Hops Hflag Hrun2) as Hflag2.
    split; [exact Hflag2|].
    intros inMain' s3 Hcollect.
    pose proof (post_Some _ _ _ _ _ (CollectResults_full inMain' s2 Hflag2) Hcollect)
      as Hfull.
    split; [exact (proj1 Hfull)|exact Hfull].
Qed.

End MidStep.

Lemma Simulate_sets_mid_step_flag_witness :
  exists s1 s2 s3,
    Simulate sample_engine true 0%Q driving_scene = Some (tt, s1)
    /\ In (EvAdvance 0%Q false) (trace s1)
    /\ run_ops ForceGear sample_engine [OpRemoveCollider 4%nat; OpSetGravity Vector3_Zero]
         s1 = Some (tt, s2)
    /\ IsDuringSimulation s2 = true
    /\ CollectResults ForceGear sample_engine true s2 = Some (tt, s3)
    /\ IsDuringSimulation s3 = false
    /\ mWheelVehiclesCache (wheels s3) = [mkDrive 7%nat 6; mkDrive 8%nat 4].
Proof.
  destruct (Simulate sample_engine true 0%Q driving_scene) as [[[] s1]|] eqn:Hsim.
  2: { exfalso. vm_compute in Hsim. discriminate Hsim. }
  destruct (run_ops ForceGear sample_engine
              [OpRemoveCollider 4%nat; OpSetGravity Vector3_Zero] s1)
    as [[[] s2]|] eqn:Hops.
  2: { exfalso. vm_compute in Hsim. injection Hsim as <-.
       vm_compute in Hops. discriminate Hops. }
  destruct (CollectResults ForceGear sample_engine true s2) as [[[] s3]|] eqn:Hcollect.
  2: { exfalso. vm_compute in Hsim. injection Hsim as <-.
       vm_compute in Hops. injection Hops as <-.
       vm_compute in Hcollect. discriminate Hcollect. }
  destruct (Simulate_sets_mid_step_flag ForceGear sample_engine true 0%Q
              driving_scene s1 Hsim) as (_ & _ & Hrest).
  destruct (Hrest [OpRemoveCollider 4%nat; OpSetGravity Vector3_Zero] s2 eq_refl Hops)
    as [Hflag2 Hnext].
  destruct (Hnext true s3 Hcollect) as (Hflag3 & _ & Hcache & _).
  exists s1, s2, s3.
  split; [reflexivity|]. split.
  { vm_compute in Hsim. injection Hsim as <-. cbn. tauto. }
  split; [exact Hops|]. split; [exact Hflag2|].
  split; [exact Hcollect|]. split; [exact Hflag3|].
  rewrite Hcache.
  - vm_compute in Hsim. injection Hsim as <-.
    vm_compute in Hops. injection Hops as <-. reflexivity.
  - vm_compute in Hsim. injection Hsim as <-.
    vm_compute in Hops. injection Hops as <-. reflexivity.
Defined.
